(** * qmgr: a personal QEMU launcher

    A shallow embedding of [main.go] and the properties of its
    configuration store, argument builder and command dispatcher.

    Go strings are byte sequences: they are modelled by [string], whose
    characters ([ascii]) are bytes.  Go's [uint] and [int] are 64 bits wide:
    a [uint] is a natural number below [2^64], an [int] is an integer, and
    the conversion between the two is written out.

    The first part holds the definitions: the pieces of the Go runtime
    library that the program calls ([strconv], [strings], [unicode/utf8],
    [encoding/json], [path/filepath], and the operating system as a record
    of state and outcomes), then the program itself, function by function.
    The second part holds the properties. *)

From Stdlib Require Import ZArith NArith List String Ascii Bool Lia.
From stdpp Require Import base option gmap strings list.

Import ListNotations.
Local Open Scope string_scope.
Local Open Scope list_scope.

(** * Part I: definitions *)

(** ** Bytes *)

Definition byte_of (n : N) : ascii := ascii_of_N n.
Definition code (c : ascii) : N := N_of_ascii c.

(** The characters that a string literal of this file cannot hold. *)
Definition DQUOTE : ascii := Eval cbv in byte_of 34.
Definition LF : ascii := Eval cbv in byte_of 10.
Definition CR : ascii := Eval cbv in byte_of 13.
Definition TAB : ascii := Eval cbv in byte_of 9.
Definition BS : ascii := Eval cbv in byte_of 8.
Definition FF : ascii := Eval cbv in byte_of 12.

(** [s[n:]] and [s[:n]] for [n <= len(s)]. *)
Fixpoint drop_bytes (n : nat) (s : string) : string :=
  match n, s with
  | S n', String _ rest => drop_bytes n' rest
  | _, _ => s
  end.

Fixpoint take_bytes (n : nat) (s : string) : string :=
  match n, s with
  | S n', String c rest => String c (take_bytes n' rest)
  | _, _ => ""
  end.

(** ** strconv *)

Module strconv.

Definition digit (n : N) : ascii := byte_of (48 + n).

Definition isDigit (c : ascii) : bool := (48 <=? code c)%N && (code c <=? 57)%N.

(** [strconv.FormatUint(u, 10)]: the digits are produced from the least
    significant one by repeated division.  [fuel] bounds the number of digits. *)
Fixpoint formatBits (fuel : nat) (u : N) : string :=
  match fuel with
  | O => ""
  | S fuel' =>
      if (u <? 10)%N then String (digit u) ""
      else formatBits fuel' (u / 10)%N +:+ String (digit (u mod 10)%N) ""
  end.

Definition FormatUint (u : N) : string :=
  formatBits (S (N.to_nat (N.log2 u))) u.

(** The loop of [strconv.ParseUint(s, 10, 64)]: a character that is no digit
    is a syntax error, a value of [2^64] or more is a range error. *)
Fixpoint parseDigits (s : string) (n : N) : option N :=
  match s with
  | "" => Some n
  | String c rest =>
      if isDigit c then
        let n1 := (n * 10 + (code c - 48))%N in
        if (n1 <? 2 ^ 64)%N then parseDigits rest n1 else None
      else None
  end.

Definition ParseUint (s : string) : option N :=
  match s with
  | "" => None
  | _ => parseDigits s 0%N
  end.

End strconv.

(** ** fmt *)

Module fmt.

(** [fmt.Sprintf("%d", n)] for an integer that is not negative. *)
Definition d (n : N) : string := strconv.FormatUint n.

End fmt.

(** ** strings *)

Module strings.

(** [strings.Join(elems, sep)]. *)
Fixpoint Join (elems : list string) (sep : string) : string :=
  match elems with
  | [] => ""
  | [e] => e
  | e :: rest => e +:+ sep +:+ Join rest sep
  end.

(** [strings.HasSuffix(s, suffix)]. *)
Definition HasSuffix (s suffix : string) : bool :=
  (String.length suffix <=? String.length s)%nat &&
  String.eqb (drop_bytes (String.length s - String.length suffix) s) suffix.

(** [strings.TrimSuffix(s, suffix)]. *)
Definition TrimSuffix (s suffix : string) : string :=
  if HasSuffix s suffix
  then take_bytes (String.length s - String.length suffix) s
  else s.

End strings.

(** ** Data model (main.go, lines 14-36) *)

Record Port := mkPort {
  Guest : N;
  Host : N
}.

(** The field [Type] of the source is spelled [Type_]: [Type] is reserved. *)
Record Drive := mkDrive {
  Path : string;
  Type_ : string
}.

(** A Go slice is either [nil] or backed by an array; the JSON encoder tells
    the two apart.  [elems] is what [range] iterates over, [len] its length. *)
Inductive slice (A : Type) : Type :=
| nil_slice
| make_slice (l : list A).
Arguments nil_slice {A}.
Arguments make_slice {A} l.

Definition elems {A} (s : slice A) : list A :=
  match s with
  | nil_slice => []
  | make_slice l => l
  end.

Definition len {A} (s : slice A) : nat := length (elems s).

Record VMConfig := mkVMConfig {
  Name : string;
  Memory : string;
  Drives : slice Drive;
  Ports : slice Port;
  Cores : N;
  Fullscreen : bool
}.

Definition ConfigDir := ".config/qmgr/configs".
Definition DiskDir := ".config/qmgr/disks".
Definition QemuExec := "qemu-system-x86_64".
Definition QemuImg := "qemu-img".

(** [uint(x)] for an [int] [x]: reduction modulo [2^64]. *)
Definition uint_of_int (x : Z) : N := Z.to_N (x mod 2 ^ 64).

(** The values of a [uint] field. *)
Definition is_uint (n : N) : Prop := (n < 2 ^ 64)%N.

(** ** The argument builder: launchVM, lines 200-236 *)

Module Builder.

(** Lines 201-207: the fixed preamble. *)
Definition preamble (config : VMConfig) : list string :=
  let args := [] in
  let args := args ++ ["-m"; Memory config] in
  let args := args ++ ["-machine"; "q35"] in
  let args := args ++ ["-device"; "qemu-xhci,id=xhci"] in
  let args := args ++ ["-device"; "usb-kbd"] in
  let args := args ++ ["-device"; "usb-tablet"] in
  let args := args ++ ["-device"; "virtio-net,netdev=net0"] in
  args.

(** Lines 209-221: the body of the loop over the drives. *)
Definition driveStep (args : list string) (idx : nat) (drive : Drive)
  : list string :=
  if String.eqb (Path drive) "" then args
  else if String.eqb (Type_ drive) "img" then
    let args := args ++
      ["-drive";
       "if=none,id=usb" +:+ fmt.d (N.of_nat idx) +:+ ",format=raw,file="
         +:+ Path drive] in
    args ++
      ["-device";
       "usb-storage,bus=xhci.0,drive=usb" +:+ fmt.d (N.of_nat idx)]
  else if String.eqb (Type_ drive) "qcow2" then
    args ++ ["-drive"; "if=virtio,format=qcow2,file=" +:+ Path drive]
  else if String.eqb (Type_ drive) "iso" then
    args ++ ["-cdrom"; Path drive]
  else args.

(** Line 208: [for idx, drive := range config.Drives]. *)
Fixpoint rangeDrives (idx : nat) (drives : list Drive) (args : list string)
  : list string :=
  match drives with
  | [] => args
  | drive :: rest => rangeDrives (S idx) rest (driveStep args idx drive)
  end.

(** Lines 223-225: the core count is resolved by an assignment to the field
    of the record that [config] points to. *)
Definition resolveCores (numCPU : Z) (config : VMConfig) : VMConfig :=
  if N.eqb (Cores config) 0 then
    {| Name := Name config; Memory := Memory config;
       Drives := Drives config; Ports := Ports config;
       Cores := uint_of_int numCPU; Fullscreen := Fullscreen config |}
  else config.

(** Lines 232-234: the loop collecting the forwards. *)
Fixpoint rangePorts (ports : list Port) (fwds : list string) : list string :=
  match ports with
  | [] => fwds
  | fwd :: rest =>
      rangePorts rest
        (fwds ++ ["tcp::" +:+ fmt.d (Host fwd) +:+ "-:" +:+ fmt.d (Guest fwd)])
  end.

(** Lines 230-236. *)
Definition portsStep (args : list string) (config : VMConfig) : list string :=
  if Nat.ltb 0 (len (Ports config)) then
    let fwds := rangePorts (elems (Ports config)) [] in
    args ++ ["-netdev"; "user,id=net0,hostfwd=" +:+ strings.Join fwds ","]
  else args.

(** Lines 200-236.  The function receives a pointer: the record it leaves
    behind is returned next to the argument list. *)
Definition buildArgs (numCPU : Z) (config : VMConfig)
  : VMConfig * list string :=
  let args := preamble config in
  let args := rangeDrives 0 (elems (Drives config)) args in
  let config := resolveCores numCPU config in
  let args := args ++ ["-enable-kvm"; "-cpu"; "host"; "-smp";
                       fmt.d (Cores config)] in
  let args := if Fullscreen config
              then args ++ ["-display"; "gtk,full-screen=on"] else args in
  let args := portsStep args config in
  (config, args).

End Builder.

(** ** unicode/utf8 and unicode/utf16 *)

Module utf8.

Definition RuneError : N := 0xFFFD.
Definition RuneSelf : N := 0x80.
Definition MaxRune : N := 0x10FFFF.
Definition surrogateMin : N := 0xD800.
Definition surrogateMax : N := 0xDFFF.

(** The table [first] together with [acceptRanges]: what the first byte of a
    sequence announces.  [AS] is an ASCII byte, [XX] a byte that starts no
    sequence, [LD size lo hi] a leading byte of a sequence of [size] bytes
    whose second byte lies between [lo] and [hi]. *)
Inductive lead :=
| AS
| XX
| LD (size : nat) (lo hi : N).

Definition first (s0 : N) : lead :=
  if (s0 <? 0x80)%N then AS
  else if (s0 <? 0xC2)%N then XX
  else if (s0 <? 0xE0)%N then LD 2 0x80 0xBF
  else if (s0 =? 0xE0)%N then LD 3 0xA0 0xBF
  else if (s0 <? 0xED)%N then LD 3 0x80 0xBF
  else if (s0 =? 0xED)%N then LD 3 0x80 0x9F
  else if (s0 <? 0xF0)%N then LD 3 0x80 0xBF
  else if (s0 =? 0xF0)%N then LD 4 0x90 0xBF
  else if (s0 <? 0xF4)%N then LD 4 0x80 0xBF
  else if (s0 =? 0xF4)%N then LD 4 0x80 0x8F
  else XX.

(** A continuation byte lies outside [lo..hi]. *)
Definition outside (lo hi b : N) : bool := (b <? lo)%N || (hi <? b)%N.

(** [utf8.DecodeRuneInString(s)]: the first rune of [s] and its width in
    bytes; [(RuneError, 1)] where [s] starts with no valid sequence. *)
Definition DecodeRuneInString (s : string) : N * nat :=
  match s with
  | "" => (RuneError, 0)
  | String c0 s1 =>
    let s0 := code c0 in
    match first s0 with
    | AS => (s0, 1)
    | XX => (RuneError, 1)
    | LD sz lo hi =>
      match s1 with
      | "" => (RuneError, 1)
      | String c1 s2 =>
        let b1 := code c1 in
        if outside lo hi b1 then (RuneError, 1)
        else if (sz <=? 2)%nat then
          (N.lor (N.shiftl (N.land s0 0x1F) 6) (N.land b1 0x3F), 2)
        else
          match s2 with
          | "" => (RuneError, 1)
          | String c2 s3 =>
            let b2 := code c2 in
            if outside 0x80 0xBF b2 then (RuneError, 1)
            else if (sz <=? 3)%nat then
              (N.lor (N.lor (N.shiftl (N.land s0 0x0F) 12)
                            (N.shiftl (N.land b1 0x3F) 6))
                     (N.land b2 0x3F), 3)
            else
              match s3 with
              | "" => (RuneError, 1)
              | String c3 _ =>
                let b3 := code c3 in
                if outside 0x80 0xBF b3 then (RuneError, 1)
                else
                  (N.lor (N.lor (N.lor (N.shiftl (N.land s0 0x07) 18)
                                       (N.shiftl (N.land b1 0x3F) 12))
                                (N.shiftl (N.land b2 0x3F) 6))
                         (N.land b3 0x3F), 4)
              end
          end
      end
    end
  end.

Definition encode3 (r : N) : string :=
  String (byte_of (N.lor 0xE0 (N.shiftr r 12)))
    (String (byte_of (N.lor 0x80 (N.land (N.shiftr r 6) 0x3F)))
      (String (byte_of (N.lor 0x80 (N.land r 0x3F))) "")).

(** [utf8.EncodeRune]: the bytes written for the rune [r]. *)
Definition EncodeRune (r : N) : string :=
  if (r <=? 0x7F)%N then String (byte_of r) ""
  else if (r <=? 0x7FF)%N then
    String (byte_of (N.lor 0xC0 (N.shiftr r 6)))
      (String (byte_of (N.lor 0x80 (N.land r 0x3F))) "")
  else if (MaxRune <? r)%N || ((surrogateMin <=? r)%N && (r <=? surrogateMax)%N)
  then encode3 RuneError
  else if (r <=? 0xFFFF)%N then encode3 r
  else
    String (byte_of (N.lor 0xF0 (N.shiftr r 18)))
      (String (byte_of (N.lor 0x80 (N.land (N.shiftr r 12) 0x3F)))
        (String (byte_of (N.lor 0x80 (N.land (N.shiftr r 6) 0x3F)))
          (String (byte_of (N.lor 0x80 (N.land r 0x3F))) ""))).

(** A decoding result that reports an invalid sequence. *)
Definition isError (d : N * nat) : bool :=
  (fst d =? RuneError)%N && (snd d =? 1)%nat.

(** [utf8.ValidString(s)]: every rune of [s] decodes.  [skip] counts the
    bytes of the current rune that are still to be passed over. *)
Fixpoint validFrom (skip : nat) (s : string) : bool :=
  match s with
  | "" => true
  | String _ rest =>
    match skip with
    | S k => validFrom k rest
    | O =>
      let d := DecodeRuneInString s in
      if isError d then false else validFrom (snd d - 1) rest
    end
  end.

Definition ValidString (s : string) : bool := validFrom 0 s.

End utf8.

Module utf16.

Definition ReplacementChar : N := 0xFFFD.

Definition IsSurrogate (r : N) : bool := (0xD800 <=? r)%N && (r <? 0xE000)%N.

(** [utf16.DecodeRune(r1, r2)]. *)
Definition DecodeRune (r1 r2 : N) : N :=
  if (0xD800 <=? r1)%N && (r1 <? 0xDC00)%N && (0xDC00 <=? r2)%N && (r2 <? 0xE000)%N
  then (N.lor (N.shiftl (r1 - 0xD800) 10) (r2 - 0xDC00) + 0x10000)%N
  else ReplacementChar.

End utf16.

(** ** encoding/json

    The encoder and the decoder of Go's [encoding/json], to the extent that
    a [*VMConfig] exercises them: the JSON text is a byte string, the encoder
    writes what [Encoder.Encode] writes after [SetIndent("", "    ")], and
    the decoder reads the first JSON value of its input and stores it,
    directed by the Go type it decodes into. *)

Module json.

(** *** JSON values *)

#[warnings="-register-all"]
Inductive value :=
| JNull
| JBool (b : bool)
| JNumber (lit : string)
| JString (s : string)
| JArray (items : list value)
| JObject (members : list (string * value)).

(** *** Encoding: string literals ([appendString] with HTML escaping) *)

Definition hexDigit (n : N) : ascii :=
  if (n <? 10)%N then byte_of (48 + n) else byte_of (87 + n).

(** [htmlSafeSet], for an ASCII byte. *)
Definition htmlSafe (b : ascii) : bool :=
  (0x20 <=? code b)%N &&
  negb (Ascii.eqb b DQUOTE || Ascii.eqb b "\" || Ascii.eqb b "<"
        || Ascii.eqb b ">" || Ascii.eqb b "&").

(** What is written for an ASCII byte. *)
Definition escapeByte (b : ascii) : string :=
  if htmlSafe b then String b ""
  else if Ascii.eqb b "\" || Ascii.eqb b DQUOTE then String "\" (String b "")
  else if Ascii.eqb b BS then "\b"
  else if Ascii.eqb b FF then "\f"
  else if Ascii.eqb b LF then "\n"
  else if Ascii.eqb b CR then "\r"
  else if Ascii.eqb b TAB then "\t"
  else ("\" +:+ "u00") +:+ String (hexDigit (N.shiftr (code b) 4))
                   (String (hexDigit (N.land (code b) 0xF)) "").

(** The loop of [appendString]; [skip] counts the bytes of the current rune
    that were already written. *)
Fixpoint appendFrom (skip : nat) (src : string) : string :=
  match src with
  | "" => ""
  | String b rest =>
    match skip with
    | S k => appendFrom k rest
    | O =>
      if (code b <? utf8.RuneSelf)%N then escapeByte b +:+ appendFrom 0 rest
      else
        let d := utf8.DecodeRuneInString src in
        if utf8.isError d then ("\" +:+ "ufffd") +:+ appendFrom 0 rest
        else if (fst d =? 0x2028)%N || (fst d =? 0x2029)%N then
          ("\" +:+ "u202") +:+ String (hexDigit (N.land (fst d) 0xF))
                       (appendFrom (snd d - 1) rest)
        else take_bytes (snd d) src +:+ appendFrom (snd d - 1) rest
    end
  end.

Definition appendString (src : string) : string :=
  String DQUOTE (appendFrom 0 src +:+ String DQUOTE "").

(** *** Encoding: layout ([Indent] with prefix [""] and indent ["    "]) *)

Fixpoint indentation (depth : nat) : string :=
  match depth with
  | O => ""
  | S depth' => "    " +:+ indentation depth'
  end.

Definition newline (depth : nat) : string := String LF (indentation depth).

(** The elements of an array after the first one. *)
Definition renderItems (render : value -> string) (sep : string)
  : list value -> string :=
  fix go (l : list value) : string :=
    match l with
    | [] => ""
    | x :: l' => "," +:+ sep +:+ render x +:+ go l'
    end.

(** The members of an object after the first one. *)
Definition renderMembers (render : value -> string) (sep : string)
  : list (string * value) -> string :=
  fix go (l : list (string * value)) : string :=
    match l with
    | [] => ""
    | m :: l' =>
        "," +:+ sep +:+ appendString (fst m) +:+ ": " +:+ render (snd m)
          +:+ go l'
    end.

Fixpoint render (depth : nat) (v : value) : string :=
  match v with
  | JNull => "null"
  | JBool true => "true"
  | JBool false => "false"
  | JNumber lit => lit
  | JString s => appendString s
  | JArray [] => "[]"
  | JArray (x :: xs) =>
      "[" +:+ newline (S depth) +:+ render (S depth) x
        +:+ renderItems (render (S depth)) (newline (S depth)) xs
        +:+ newline depth +:+ "]"
  | JObject [] => "{}"
  | JObject (m :: ms) =>
      "{" +:+ newline (S depth)
        +:+ appendString (fst m) +:+ ": " +:+ render (S depth) (snd m)
        +:+ renderMembers (render (S depth)) (newline (S depth)) ms
        +:+ newline depth +:+ "}"
  end.

(** *** Encoding: Go values *)

Definition encodeSlice {A} (f : A -> value) (s : slice A) : value :=
  match s with
  | nil_slice => JNull
  | make_slice l => JArray (map f l)
  end.

Definition encodePort (p : Port) : value :=
  JObject [("guest", JNumber (strconv.FormatUint (Guest p)));
           ("host", JNumber (strconv.FormatUint (Host p)))].

Definition encodeDrive (d : Drive) : value :=
  JObject [("path", JString (Path d)); ("type", JString (Type_ d))].

Definition encodeVMConfig (c : VMConfig) : value :=
  JObject [("name", JString (Name c));
           ("memory", JString (Memory c));
           ("drives", encodeSlice encodeDrive (Drives c));
           ("ports", encodeSlice encodePort (Ports c));
           ("cores", JNumber (strconv.FormatUint (Cores c)));
           ("fullscreen", JBool (Fullscreen c))].

(** [encoder.SetIndent("", "    "); encoder.Encode(config)] for a pointer
    [config]: the bytes written.  A nil pointer is written as [null]. *)
Definition Encode (config : option VMConfig) : string :=
  match config with
  | None => "null" +:+ String LF ""
  | Some c => render 0 (encodeVMConfig c) +:+ String LF ""
  end.

(** *** Decoding: the scanner

    The scanner turns the input into tokens.  It is total: where the input
    is no JSON text it ends the token list with [TBad]. *)

Inductive token :=
| TLBrace
| TRBrace
| TLBrack
| TRBrack
| TColon
| TComma
| TString (s : string)
| TNumber (lit : string)
| TTrue
| TFalse
| TNull
| TBad.

Definition isSpace (c : ascii) : bool :=
  Ascii.eqb c " " || Ascii.eqb c TAB || Ascii.eqb c CR || Ascii.eqb c LF.

Definition hexValue (c : ascii) : option N :=
  let n := code c in
  if (48 <=? n)%N && (n <=? 57)%N then Some (n - 48)%N
  else if (97 <=? n)%N && (n <=? 102)%N then Some (n - 87)%N
  else if (65 <=? n)%N && (n <=? 70)%N then Some (n - 55)%N
  else None.

(** The four hexadecimal digits that follow [\u] ([getu4]). *)
Definition getu4 (s : string) : option N :=
  match s with
  | String h1 (String h2 (String h3 (String h4 _))) =>
    match hexValue h1, hexValue h2, hexValue h3, hexValue h4 with
    | Some a, Some b, Some c, Some d =>
        Some (N.lor (N.lor (N.lor (N.shiftl a 12) (N.shiftl b 8))
                           (N.shiftl c 4)) d)
    | _, _, _, _ => None
    end
  | _ => None
  end.

(** After the escape of a surrogate [rr]: the rune of the pair it forms with
    the escape that starts [s], if it forms one. *)
Definition pairedSurrogate (rr : N) (s : string) : option N :=
  match s with
  | String "\" (String "u" s') =>
    match getu4 s' with
    | Some rr1 =>
        let dec := utf16.DecodeRune rr rr1 in
        if (dec =? utf16.ReplacementChar)%N then None else Some dec
    | None => None
    end
  | _ => None
  end.

(** The character that a one-letter escape stands for. *)
Definition unescape (e : ascii) : option ascii :=
  if Ascii.eqb e DQUOTE then Some DQUOTE
  else if Ascii.eqb e "\" then Some "\"%char
  else if Ascii.eqb e "/" then Some "/"%char
  else if Ascii.eqb e "b" then Some BS
  else if Ascii.eqb e "f" then Some FF
  else if Ascii.eqb e "n" then Some LF
  else if Ascii.eqb e "r" then Some CR
  else if Ascii.eqb e "t" then Some TAB
  else None.

(** One more byte of input was read for the literal, and [x] was decoded. *)
Definition bump (x : string) (r : option (string * nat))
  : option (string * nat) :=
  match r with
  | Some (t, n) => Some (x +:+ t, S n)
  | None => None
  end.

(** A string literal, from the byte after its opening quote: the string it
    denotes ([unquote]) and the number of bytes up to and including its
    closing quote.  [skip] counts the bytes that belong to what was already
    decoded.  Invalid UTF-8 is replaced as [unquote] replaces it. *)
Fixpoint unquoteFrom (skip : nat) (s : string) : option (string * nat) :=
  match s with
  | "" => None
  | String c rest =>
    match skip with
    | S k => bump "" (unquoteFrom k rest)
    | O =>
      if Ascii.eqb c DQUOTE then Some ("", 1%nat)
      else if Ascii.eqb c "\" then
        match rest with
        | "" => None
        | String e rest' =>
          if Ascii.eqb e "u" then
            match getu4 rest' with
            | None => None
            | Some rr =>
              if utf16.IsSurrogate rr then
                match pairedSurrogate rr (drop_bytes 4 rest') with
                | Some dec =>
                    bump (utf8.EncodeRune dec) (unquoteFrom 11 rest)
                | None =>
                    bump (utf8.EncodeRune utf16.ReplacementChar)
                         (unquoteFrom 5 rest)
                end
              else bump (utf8.EncodeRune rr) (unquoteFrom 5 rest)
            end
          else
            match unescape e with
            | Some ch => bump (String ch "") (unquoteFrom 1 rest)
            | None => None
            end
        end
      else if (code c <? 0x20)%N then None
      else if (code c <? utf8.RuneSelf)%N then
        bump (String c "") (unquoteFrom 0 rest)
      else
        let d := utf8.DecodeRuneInString s in
        bump (utf8.EncodeRune (fst d)) (unquoteFrom (snd d - 1) rest)
    end
  end.

(** The states of the scanner inside a number. *)
Inductive numState :=
| stateNeg
| state0
| state1
| stateDot
| stateDot0
| stateE
| stateESign
| stateE0.

Inductive numStep :=
| NumNext (st : numState)
| NumEnd
| NumError.

Definition numberStep (st : numState) (c : ascii) : numStep :=
  let digit := strconv.isDigit c in
  let dotOrE :=
    if Ascii.eqb c "." then NumNext stateDot
    else if Ascii.eqb c "e" || Ascii.eqb c "E" then NumNext stateE
    else NumEnd in
  match st with
  | stateNeg =>
      if Ascii.eqb c "0" then NumNext state0
      else if digit then NumNext state1 else NumError
  | state1 => if digit then NumNext state1 else dotOrE
  | state0 => dotOrE
  | stateDot => if digit then NumNext stateDot0 else NumError
  | stateDot0 =>
      if digit then NumNext stateDot0
      else if Ascii.eqb c "e" || Ascii.eqb c "E" then NumNext stateE
      else NumEnd
  | stateE =>
      if Ascii.eqb c "+" || Ascii.eqb c "-" then NumNext stateESign
      else if digit then NumNext stateE0 else NumError
  | stateESign => if digit then NumNext stateE0 else NumError
  | stateE0 => if digit then NumNext stateE0 else NumEnd
  end.

(** A number may end in these states. *)
Definition numberEnds (st : numState) : bool :=
  match st with
  | state0 | state1 | stateDot0 | stateE0 => true
  | _ => false
  end.

(** The number of bytes of [s] that continue a number read up to state
    [st], or [None] where the number is malformed. *)
Fixpoint scanNumber (st : numState) (s : string) : option nat :=
  match s with
  | "" => if numberEnds st then Some 0%nat else None
  | String c rest =>
    match numberStep st c with
    | NumNext st' => S <$> scanNumber st' rest
    | NumEnd => Some 0%nat
    | NumError => None
    end
  end.

Definition numberToken (st : numState) (s rest : string)
  (k : nat -> list token) : list token :=
  match scanNumber st rest with
  | Some n => TNumber (take_bytes (S n) s) :: k n
  | None => [TBad]
  end.

(** The scanner.  [skip] counts the bytes of the token that was recognised
    last and are still to be passed over. *)
Fixpoint scan (skip : nat) (s : string) : list token :=
  match s with
  | "" => []
  | String c rest =>
    match skip with
    | S k => scan k rest
    | O =>
      if isSpace c then scan 0 rest
      else if Ascii.eqb c "{" then TLBrace :: scan 0 rest
      else if Ascii.eqb c "}" then TRBrace :: scan 0 rest
      else if Ascii.eqb c "[" then TLBrack :: scan 0 rest
      else if Ascii.eqb c "]" then TRBrack :: scan 0 rest
      else if Ascii.eqb c ":" then TColon :: scan 0 rest
      else if Ascii.eqb c "," then TComma :: scan 0 rest
      else if Ascii.eqb c DQUOTE then
        match unquoteFrom 0 rest with
        | Some (t, n) => TString t :: scan n rest
        | None => [TBad]
        end
      else if Ascii.eqb c "-" then
        numberToken stateNeg s rest (fun n => scan n rest)
      else if Ascii.eqb c "0" then
        numberToken state0 s rest (fun n => scan n rest)
      else if strconv.isDigit c then
        numberToken state1 s rest (fun n => scan n rest)
      else if String.eqb (take_bytes 4 s) "true" then TTrue :: scan 3 rest
      else if String.eqb (take_bytes 5 s) "false" then TFalse :: scan 4 rest
      else if String.eqb (take_bytes 4 s) "null" then TNull :: scan 3 rest
      else [TBad]
    end
  end.

(** *** Decoding: the parser

    The parser keeps a stack of the arrays and objects that are open, each
    with what was read of it, and stops at the end of the first value: what
    follows it in the input is not looked at. *)

Inductive frame :=
| FArray (done : list value)
| FObject (done : list (string * value))
| FMember (done : list (string * value)) (key : string).

Inductive phase :=
| BeginValue
| BeginValueOrEmpty
| BeginStringOrEmpty
| BeginString
| ObjectKey
| EndValue.

Inductive pushed :=
| Whole (v : value)
| Into (stack : list frame)
| Stuck.

(** A value is complete: it is the whole input value, or it goes into the
    array or the object that is open. *)
Definition push (v : value) (stack : list frame) : pushed :=
  match stack with
  | [] => Whole v
  | FArray done :: up => Into (FArray (done ++ [v]) :: up)
  | FMember done key :: up => Into (FObject (done ++ [(key, v)]) :: up)
  | FObject _ :: _ => Stuck
  end.

Fixpoint parse (stack : list frame) (ph : phase) (toks : list token)
  : option value :=
  match toks with
  | [] => None
  | t :: rest =>
    let complete (v : value) (stack : list frame) :=
      match push v stack with
      | Whole v => Some v
      | Into stack' => parse stack' EndValue rest
      | Stuck => None
      end in
    let begin :=
      match t with
      | TLBrace => parse (FObject [] :: stack) BeginStringOrEmpty rest
      | TLBrack => parse (FArray [] :: stack) BeginValueOrEmpty rest
      | TString s => complete (JString s) stack
      | TNumber lit => complete (JNumber lit) stack
      | TTrue => complete (JBool true) stack
      | TFalse => complete (JBool false) stack
      | TNull => complete JNull stack
      | _ => None
      end in
    let key :=
      match t, stack with
      | TString k, FObject done :: up =>
          parse (FMember done k :: up) ObjectKey rest
      | _, _ => None
      end in
    match ph with
    | BeginValue => begin
    | BeginValueOrEmpty =>
        match t, stack with
        | TRBrack, FArray done :: up => complete (JArray done) up
        | _, _ => begin
        end
    | BeginStringOrEmpty =>
        match t, stack with
        | TRBrace, FObject done :: up => complete (JObject done) up
        | _, _ => key
        end
    | BeginString => key
    | ObjectKey =>
        match t with
        | TColon => parse stack BeginValue rest
        | _ => None
        end
    | EndValue =>
        match t, stack with
        | TComma, FArray _ :: _ => parse stack BeginValue rest
        | TComma, FObject _ :: _ => parse stack BeginString rest
        | TRBrack, FArray done :: up => complete (JArray done) up
        | TRBrace, FObject done :: up => complete (JObject done) up
        | _, _ => None
        end
    end
  end.

(** The first JSON value of the input. *)
Definition parseValue (input : string) : option value :=
  parse [] BeginValue (scan 0 input).

(** *** Decoding: Go values

    Each function stores a JSON value into a Go value of the given type and
    returns the new Go value, or [None] for a value that the type does not
    take.  [null] leaves a string, a number, a boolean or a struct as it is
    and makes a slice nil. *)

Definition decodeString (old : string) (v : value) : option string :=
  match v with
  | JString s => Some s
  | JNull => Some old
  | _ => None
  end.

Definition decodeUint (old : N) (v : value) : option N :=
  match v with
  | JNumber lit => strconv.ParseUint lit
  | JNull => Some old
  | _ => None
  end.

Definition decodeBool (old : bool) (v : value) : option bool :=
  match v with
  | JBool b => Some b
  | JNull => Some old
  | _ => None
  end.

Definition toLower (c : ascii) : ascii :=
  if (65 <=? code c)%N && (code c <=? 90)%N then byte_of (code c + 32) else c.

Fixpoint lower (s : string) : string :=
  match s with
  | "" => ""
  | String c rest => String (toLower c) (lower rest)
  end.

(** The field that a key names: the field with that very name, or else the
    first field whose name differs from the key by the case of ASCII letters
    only. *)
Definition fieldIndex (names : list string) (key : string) : option nat :=
  match list_find (String.eqb key) names with
  | Some (i, _) => Some i
  | None =>
      match list_find (fun n => String.eqb (lower n) (lower key)) names with
      | Some (i, _) => Some i
      | None => None
      end
  end.

(** The members of an object are stored one after the other; a member that
    names no field is passed over. *)
Definition decodeMembers {A} (store : A -> string -> value -> option A)
  : A -> list (string * value) -> option A :=
  fix go (a : A) (ms : list (string * value)) : option A :=
    match ms with
    | [] => Some a
    | (k, v) :: ms' =>
        match store a k v with
        | Some a' => go a' ms'
        | None => None
        end
    end.

Definition decodeStruct {A} (store : A -> string -> value -> option A)
  (old : A) (v : value) : option A :=
  match v with
  | JObject ms => decodeMembers store old ms
  | JNull => Some old
  | _ => None
  end.

(** The elements of an array are decoded into the elements of a new slice. *)
Definition decodeItems {A} (item : value -> option A)
  : list value -> option (list A) :=
  fix go (vs : list value) : option (list A) :=
    match vs with
    | [] => Some []
    | v :: vs' =>
        match item v, go vs' with
        | Some a, Some l => Some (a :: l)
        | _, _ => None
        end
    end.

Definition decodeSlice {A} (item : value -> option A) (v : value)
  : option (slice A) :=
  match v with
  | JArray vs => make_slice <$> decodeItems item vs
  | JNull => Some nil_slice
  | _ => None
  end.

Definition storePort (p : Port) (key : string) (v : value) : option Port :=
  match fieldIndex ["guest"; "host"] key with
  | Some 0%nat => (fun n => mkPort n (Host p)) <$> decodeUint (Guest p) v
  | Some 1%nat => (fun n => mkPort (Guest p) n) <$> decodeUint (Host p) v
  | _ => Some p
  end.

Definition storeDrive (d : Drive) (key : string) (v : value) : option Drive :=
  match fieldIndex ["path"; "type"] key with
  | Some 0%nat => (fun s => mkDrive s (Type_ d)) <$> decodeString (Path d) v
  | Some 1%nat => (fun s => mkDrive (Path d) s) <$> decodeString (Type_ d) v
  | _ => Some d
  end.

Definition storeVMConfig (c : VMConfig) (key : string) (v : value)
  : option VMConfig :=
  match fieldIndex ["name"; "memory"; "drives"; "ports"; "cores";
                    "fullscreen"] key with
  | Some 0%nat =>
      (fun s => mkVMConfig s (Memory c) (Drives c) (Ports c) (Cores c)
                           (Fullscreen c)) <$> decodeString (Name c) v
  | Some 1%nat =>
      (fun s => mkVMConfig (Name c) s (Drives c) (Ports c) (Cores c)
                           (Fullscreen c)) <$> decodeString (Memory c) v
  | Some 2%nat =>
      (fun l => mkVMConfig (Name c) (Memory c) l (Ports c) (Cores c)
                           (Fullscreen c))
        <$> decodeSlice (decodeStruct storeDrive (mkDrive "" "")) v
  | Some 3%nat =>
      (fun l => mkVMConfig (Name c) (Memory c) (Drives c) l (Cores c)
                           (Fullscreen c))
        <$> decodeSlice (decodeStruct storePort (mkPort 0 0)) v
  | Some 4%nat =>
      (fun n => mkVMConfig (Name c) (Memory c) (Drives c) (Ports c) n
                           (Fullscreen c)) <$> decodeUint (Cores c) v
  | Some 5%nat =>
      (fun b => mkVMConfig (Name c) (Memory c) (Drives c) (Ports c) (Cores c)
                           b) <$> decodeBool (Fullscreen c) v
  | _ => Some c
  end.

(** [json.NewDecoder(file).Decode(&config)] for a pointer [config] to a
    record: the pointer that [config] holds afterwards, or [None] where
    [Decode] returns an error.  [null] makes the pointer nil. *)
Definition Decode (input : string) (config : option VMConfig)
  : option (option VMConfig) :=
  match parseValue input with
  | None => None
  | Some JNull => Some None
  | Some v =>
      let old := match config with
                 | Some c => c
                 | None => mkVMConfig "" "" nil_slice nil_slice 0 false
                 end in
      Some <$> decodeStruct storeVMConfig old v
  end.

End json.

(** ** path/filepath (Unix) *)

Module filepath.

(** The elements that the separator delimits: [split "a//b" = ["a"; ""; "b"]]. *)
Fixpoint split (path : string) : list string :=
  match path with
  | "" => [""]
  | String c rest =>
      if Ascii.eqb c "/" then "" :: split rest
      else
        match split rest with
        | e :: es => String c e :: es
        | [] => [String c ""]
        end
  end.

(** One element of the path is processed by [Clean].  [out] holds the
    elements written so far, the last one first. *)
Definition cleanStep (rooted : bool) (out : list string) (elem : string)
  : list string :=
  if String.eqb elem "" then out
  else if String.eqb elem "." then out
  else if String.eqb elem ".." then
    let canBacktrack :=
      match out with
      | last :: _ => negb (String.eqb last "..")
      | [] => false
      end in
    if canBacktrack then tail out
    else if negb rooted then ".." :: out
    else out
  else elem :: out.

(** [filepath.Clean(path)]. *)
Definition Clean (path : string) : string :=
  match path with
  | "" => "."
  | String c _ =>
      let rooted := Ascii.eqb c "/" in
      let out := fold_left (cleanStep rooted) (split path) [] in
      if rooted then "/" +:+ strings.Join (rev out) "/"
      else
        match out with
        | [] => "."
        | _ => strings.Join (rev out) "/"
        end
  end.

(** [filepath.Join(elem...)]: the elements from the first one that is not
    empty are joined and cleaned. *)
Fixpoint Join (elem : list string) : string :=
  match elem with
  | [] => ""
  | e :: rest =>
      if String.eqb e "" then Join rest else Clean (strings.Join elem "/")
  end.

End filepath.

(** ** The operating system

    [World] is what the program can observe and change outside itself.  The
    regular files are state: [os.Create] and the writes change them and
    [os.Open] reads them.  Everything else is given: the current user, the
    environment, the processor count, what reading a directory yields, and
    whether creating a directory, creating a file, writing to a file or
    running a command fails.  A write that fails has written the first
    bytes of its data, as many as the world says.  What a child process
    does to the files is not modelled. *)

Inductive error :=
| ErrNotExist (op path : string)
| ErrOther (msg : string)
| Errorf (prefix : string) (err : error).

(** [err.Error()]. *)
Fixpoint Error (e : error) : string :=
  match e with
  | ErrNotExist op path => op +:+ " " +:+ path +:+ ": no such file or directory"
  | ErrOther msg => msg
  | Errorf prefix err => prefix +:+ Error err
  end.

(** [p == nil] for a pointer or an error. *)
Definition isNil {A} (p : option A) : bool :=
  match p with
  | None => true
  | Some _ => false
  end.

(** [os.IsNotExist(err)]; it does not look inside an error that
    [fmt.Errorf] wrapped. *)
Definition IsNotExist (err : option error) : bool :=
  match err with
  | Some (ErrNotExist _ _) => true
  | _ => false
  end.

Inductive directory :=
| Missing
| Entries (names : list string)
| Unreadable (names : list string) (msg : string).

Record World := mkWorld {
  currentUser : error + string;
  environ : string -> string;
  numCPU : Z;
  files : gmap string string;
  directories : string -> directory;
  mkdirFails : string -> option error;
  createFails : string -> option error;
  writeFails : string -> option (nat * error);
  runFails : string -> list string -> option error
}.

(** What the program does that can be observed, in order.  [Stdout] and
    [Stderr] hold a line without the newline that ends it. *)
Inductive event :=
| Stdout (line : string)
| Stderr (line : string)
| Exec (name : string) (args : list string)
| Written (path : string) (content : string).

Record State := mkState {
  world : World;
  trace : list event
}.

(** A computation returns a value, or ends the process: [os.Exit(code)], or
    a panic. *)
Inductive outcome (A : Type) : Type :=
| Value (a : A)
| Exit (exitCode : Z)
| Panic (err : error).
Arguments Value {A} a.
Arguments Exit {A} exitCode.
Arguments Panic {A} err.

Definition Prog (A : Type) : Type := State -> outcome A * State.

Definition ret {A} (a : A) : Prog A := fun st => (Value a, st).

Definition bind {A B} (m : Prog A) (k : A -> Prog B) : Prog B :=
  fun st =>
    match m st with
    | (Value a, st') => k a st'
    | (Exit n, st') => (Exit n, st')
    | (Panic e, st') => (Panic e, st')
    end.

Declare Scope prog_scope.
Delimit Scope prog_scope with prog.
Notation "'let*' x ':=' m 'in' k" := (bind m (fun x => k))
  (at level 10, x pattern, m at level 100, k at level 200) : prog_scope.
Local Open Scope prog_scope.

Definition ask {A} (f : World -> A) : Prog A :=
  fun st => (Value (f (world st)), st).

Definition emit (e : event) : Prog unit :=
  fun st => (Value tt, mkState (world st) (trace st ++ [e])).

(** The world with other files. *)
Definition withFiles (w : World) (fs : gmap string string) : World :=
  mkWorld (currentUser w) (environ w) (numCPU w) fs (directories w)
          (mkdirFails w) (createFails w) (writeFails w) (runFails w).

Definition setFiles (fs : gmap string string) : Prog unit :=
  fun st => (Value tt, mkState (withFiles (world st) fs) (trace st)).

Module os.

(** [os.Exit(code)]. *)
Definition Exit {A} (exitCode : Z) : Prog A := fun st => (Exit exitCode, st).

(** [os.Getenv(key)]. *)
Definition Getenv (key : string) : Prog string := ask (fun w => environ w key).

(** [os.ReadDir(name)]: the entries read and the error. *)
Definition ReadDir (name : string) : Prog (list string * option error) :=
  ask (fun w =>
    match directories w name with
    | Missing => ([], Some (ErrNotExist "open" name))
    | Entries names => (names, None)
    | Unreadable names msg => (names, Some (ErrOther msg))
    end).

(** [os.MkdirAll(path, os.ModePerm)]. *)
Definition MkdirAll (path : string) : Prog (option error) :=
  ask (fun w => mkdirFails w path).

(** [os.Open(name)]: the content that reading the file yields. *)
Definition Open (name : string) : Prog (string * option error) :=
  ask (fun w =>
    match files w !! name with
    | Some content => (content, None)
    | None => ("", Some (ErrNotExist "open" name))
    end).

(** [os.Create(name)]: the file is created or truncated. *)
Definition Create (name : string) : Prog (option error) :=
  let* failure := ask (fun w => createFails w name) in
  match failure with
  | Some e => ret (Some e)
  | None =>
      let* fs := ask files in
      let* _ := setFiles (<[name := ""]> fs) in
      ret None
  end.

(** A write to the file that [os.Create(name)] returned: the error, after
    the bytes that were written. *)
Definition Write (name content : string) : Prog (option error) :=
  let* failure := ask (fun w => writeFails w name) in
  let written :=
    match failure with
    | Some (n, _) => take_bytes n content
    | None => content
    end in
  let* fs := ask files in
  let* _ := setFiles (<[name := default "" (fs !! name) +:+ written]> fs) in
  let* _ := emit (Written name written) in
  ret (snd <$> failure).

End os.

Module user.

(** [user.Current()]: the home directory of the user, and the error. *)
Definition Current : Prog (string * option error) :=
  ask (fun w =>
    match currentUser w with
    | inl e => ("", Some e)
    | inr home => (home, None)
    end).

End user.

Module runtime.

Definition NumCPU : Prog Z := ask numCPU.

(** A run-time panic. *)
Definition panic {A} (err : error) : Prog A := fun st => (Panic err, st).

Definition nilDereference : error :=
  ErrOther "runtime error: invalid memory address or nil pointer dereference".

End runtime.

Module exec.

(** [exec.Command(name, arg...).Run()].  A command with no name is not
    run. *)
Definition Run (name : string) (arg : list string) : Prog (option error) :=
  if String.eqb name "" then ret (Some (ErrOther "exec: no command"))
  else
    let* _ := emit (Exec name arg) in
    ask (fun w => runFails w name arg).

End exec.

Definition Println (line : string) : Prog unit := emit (Stdout line).
Definition Fprintln_Stderr (line : string) : Prog unit := emit (Stderr line).

(** ** The program (main.go) *)

(** Lines 132-147. *)
Definition listConfigs : Prog (list string * option error) :=
  let* (HomeDir, err) := user.Current in
  match err with
  | Some e => ret ([], Some (Errorf "getting current user: " e))
  | None =>
      let* (configFiles, err) :=
        os.ReadDir (filepath.Join [HomeDir; ConfigDir]) in
      if negb (isNil err) && negb (IsNotExist err) then
        ret ([], Some (Errorf "reading config file directory: "
                              (default (ErrOther "") err)))
      else
        let configs :=
          fold_left
            (fun configs file => configs ++ [strings.TrimSuffix file ".json"])
            configFiles [] in
        ret (configs, None)
  end.

(** Lines 149-170.  The result is the pointer [config]: [None] is nil. *)
Definition readConfig (name : string) : Prog (option VMConfig * option error) :=
  let* (HomeDir, err) := user.Current in
  match err with
  | Some e => ret (None, Some (Errorf "getting current user: " e))
  | None =>
      let filePath := filepath.Join [HomeDir; ConfigDir; name +:+ ".json"] in
      let* (file, err) := os.Open filePath in
      match err with
      | Some e => ret (None, Some (Errorf "opening config: " e))
      | None =>
          let config :=
            Some (mkVMConfig "" "" nil_slice nil_slice 0 false) in
          match json.Decode file config with
          | None =>
              ret (None, Some (Errorf "decoding config: "
                                      (ErrOther "invalid JSON input")))
          | Some config => ret (config, None)
          end
      end
  end.

(** Lines 172-197. *)
Definition writeConfig (name : string) (config : option VMConfig)
  : Prog (string * option error) :=
  let* (HomeDir, err) := user.Current in
  match err with
  | Some e => ret ("", Some (Errorf "getting current user: " e))
  | None =>
      let configDir := filepath.Join [HomeDir; ConfigDir] in
      let* err := os.MkdirAll configDir in
      match err with
      | Some e => ret ("", Some (Errorf "creating config directory: " e))
      | None =>
          let filePath := filepath.Join [configDir; name +:+ ".json"] in
          let* err := os.Create filePath in
          match err with
          | Some e => ret ("", Some (Errorf "creating config: " e))
          | None =>
              let* err := os.Write filePath (json.Encode config) in
              match err with
              | Some e => ret ("", Some (Errorf "encofing config: " e))
              | None => ret (filePath, None)
              end
          end
      end
  end.

(** Lines 199-248.  The pointer [config] is dereferenced at line 201; the
    record that it points to afterwards is returned with the error. *)
Definition launchVM (config : option VMConfig)
  : Prog (VMConfig * option error) :=
  match config with
  | None => runtime.panic runtime.nilDereference
  | Some config =>
      let* cpus := runtime.NumCPU in
      let '(config, args) := Builder.buildArgs cpus config in
      let* _ := Println ("cmd.Args: [" +:+ strings.Join (QemuExec :: args) " "
                                       +:+ "]") in
      let* err := exec.Run QemuExec args in
      match err with
      | Some e => ret (config, Some (Errorf "executing qemu: " e))
      | None => ret (config, None)
      end
  end.

(** Lines 250-262. *)
Definition newDisk (name size : string) : Prog (string * option error) :=
  let* (HomeDir, err) := user.Current in
  match err with
  | Some e => ret ("", Some (Errorf "getting current user: " e))
  | None =>
      let filePath := filepath.Join [HomeDir; DiskDir; name +:+ ".qcow2"] in
      let* err := exec.Run QemuImg ["create"; "-f"; "qcow2"; filePath; size] in
      match err with
      | Some e => ret ("", Some (Errorf "creating disk image: " e))
      | None => ret (filePath, None)
      end
  end.

(** Lines 264-266; the function is not called. *)
Definition generateConfig : Prog (option VMConfig * option error) :=
  ret (None, None).

(** Lines 268-283. *)
Definition editor (file : string) : Prog (option error) :=
  let* editor := os.Getenv "VISUAL" in
  let* editor :=
    if String.eqb editor "" then os.Getenv "EDITOR" else ret editor in
  let* err := exec.Run editor [file] in
  match err with
  | Some e => ret (Some (Errorf "opening editor: " e))
  | None => ret None
  end.

Definition usage : string :=
  "no command given" +:+ String LF "  run <name>" +:+ String LF "  list"
    +:+ String LF "  create <name>" +:+ String LF "  edit <name>".

(** [os.Args[i]] for an index within bounds. *)
Definition arg (Args : list string) (i : nat) : string := nth i Args "".

(** Lines 45-52. *)
Definition mainList : Prog unit :=
  let* (configs, err) := listConfigs in
  match err with
  | Some e => runtime.panic e
  | None =>
      fold_left (fun done config => let* _ := done in Println config)
                configs (ret tt)
  end.

(** Lines 54-66. *)
Definition mainRun (Args : list string) : Prog unit :=
  if (length Args <? 3)%nat then
    let* _ := Fprintln_Stderr "no run name" in os.Exit 1
  else
    let* (config, err) := readConfig (arg Args 2) in
    match err with
    | Some e => let* _ := Fprintln_Stderr (Error e) in os.Exit 1
    | None =>
        let* (_, err) := launchVM config in
        match err with
        | Some e => runtime.panic e
        | None => ret tt
        end
    end.

(** Lines 68-118. *)
Definition mainCreate (Args : list string) : Prog unit :=
  if (length Args <? 3)%nat then
    let* _ := Fprintln_Stderr "no create name" in os.Exit 1
  else
    let size := "64G" in
    let size := if (3 <? length Args)%nat then arg Args 3 else size in
    let* (diskPath, err) := newDisk (arg Args 2) size in
    let* _ :=
      match err with
      | Some e => Fprintln_Stderr (Error e)
      | None => ret tt
      end in
    let config :=
      {| Name := arg Args 2;
         Memory := "2G";
         Drives := make_slice [ {| Path := ""; Type_ := "img" |};
                                {| Path := diskPath; Type_ := "qcow2" |};
                                {| Path := ""; Type_ := "iso" |} ];
         Ports := make_slice [ {| Guest := 22; Host := 2222 |} ];
         Cores := 0;
         Fullscreen := false |} in
    let* (configPath, err) := writeConfig (arg Args 2) (Some config) in
    match err with
    | Some e => let* _ := Fprintln_Stderr (Error e) in os.Exit 1
    | None =>
        let* _ := Println configPath in
        let* err := editor configPath in
        match err with
        | Some e =>
            let* _ := Fprintln_Stderr ("editing config: " +:+ Error e) in
            os.Exit 1
        | None => ret tt
        end
    end.

(** Lines 119-128. *)
Definition mainEdit (Args : list string) : Prog unit :=
  if (length Args <? 3)%nat then
    let* _ := Fprintln_Stderr "no edit name" in os.Exit 1
  else
    let configPath := filepath.Join ["~"; ConfigDir; arg Args 2 +:+ ".json"] in
    let* err := editor configPath in
    match err with
    | Some e => Fprintln_Stderr ("editing config: " +:+ Error e)
    | None => ret tt
    end.

(** Lines 38-130: [main], with [os.Args] as its argument. *)
Definition main (Args : list string) : Prog unit :=
  if (length Args <? 2)%nat then Fprintln_Stderr usage
  else
    let command := arg Args 1 in
    if String.eqb command "list" then mainList
    else if String.eqb command "run" then mainRun Args
    else if String.eqb command "create" then mainCreate Args
    else if String.eqb command "edit" then mainEdit Args
    else ret tt.

(** The process from its start: no event yet. *)
Definition start (w : World) : State := mkState w [].

(** The exit status of the process: 0 when [main] returns, the argument of
    [os.Exit], 2 after a panic. *)
Definition exitStatus {A} (o : outcome A) : Z :=
  match o with
  | Value _ => 0
  | Exit n => n
  | Panic _ => 2
  end.

(** ** Vocabulary of the properties *)

(** The strings that one drive adds to the argument list. *)
Definition contribution (idx : nat) (drive : Drive) : list string :=
  Builder.driveStep [] idx drive.

Fixpoint contributions (idx : nat) (drives : list Drive) : list string :=
  match drives with
  | [] => []
  | drive :: rest => contribution idx drive ++ contributions (S idx) rest
  end.

(** The drive types that the builder knows. *)
Definition recognized (type : string) : bool :=
  String.eqb type "img" || String.eqb type "qcow2" || String.eqb type "iso".

(** The core count that the builder prints. *)
Definition resolvedCores (numCPU : Z) (config : VMConfig) : N :=
  if N.eqb (Cores config) 0 then Z.to_N numCPU else Cores config.

Definition cpuArgs (cores : N) : list string :=
  ["-enable-kvm"; "-cpu"; "host"; "-smp"; fmt.d cores].

Definition displayArgs (config : VMConfig) : list string :=
  if Fullscreen config then ["-display"; "gtk,full-screen=on"] else [].

(** One forward, and the arguments that the ports add. *)
Definition forward (p : Port) : string :=
  "tcp::" +:+ fmt.d (Host p) +:+ "-:" +:+ fmt.d (Guest p).

Definition forwardArgs (config : VMConfig) : list string :=
  Builder.portsStep [] config.

(** The option flags that can follow an element of the argument list. *)
Definition isFlag (s : string) : bool :=
  String.eqb s "-machine" || String.eqb s "-drive" || String.eqb s "-cdrom"
  || String.eqb s "-enable-kvm".

(** A string of decimal digits. *)
Fixpoint allDigits (s : string) : bool :=
  match s with
  | "" => true
  | String c rest => strconv.isDigit c && allDigits rest
  end.

(** Every ["-netdev"] of the list is followed by an option flag. *)
Fixpoint netdevUnused (args : list string) : bool :=
  match args with
  | [] => true
  | x :: rest =>
      match rest with
      | [] => negb (String.eqb x "-netdev")
      | y :: _ => (negb (String.eqb x "-netdev") || isFlag y) && netdevUnused rest
      end
  end.

(** ** Examples *)

(** The record that [create vm1] writes for the home directory [/home/u]. *)
Definition vm1 : VMConfig :=
  {| Name := "vm1";
     Memory := "2G";
     Drives := make_slice [ {| Path := ""; Type_ := "img" |};
                            {| Path := "/home/u/.config/qmgr/disks/vm1.qcow2";
                               Type_ := "qcow2" |};
                            {| Path := ""; Type_ := "iso" |} ];
     Ports := make_slice [ {| Guest := 22; Host := 2222 |} ];
     Cores := 0;
     Fullscreen := false |}.

(** A record with four cores, a raw image, a drive of an unknown type and
    no ports. *)
Definition vm2 : VMConfig :=
  {| Name := "vm2";
     Memory := "4G";
     Drives := make_slice [ {| Path := "/images/usb.img"; Type_ := "img" |};
                            {| Path := "/images/disk.vdi"; Type_ := "vdi" |} ];
     Ports := nil_slice;
     Cores := 4;
     Fullscreen := true |}.

(** A record whose memory string is the name of an option. *)
Definition vm3 : VMConfig :=
  {| Name := "vm3";
     Memory := "-netdev";
     Drives := nil_slice;
     Ports := nil_slice;
     Cores := 2;
     Fullscreen := false |}.

(** The list starts with an option flag. *)
Definition startsWithFlag (args : list string) : bool :=
  match args with
  | x :: _ => isFlag x
  | [] => false
  end.

(** The record that [create] builds for a name and the path of its disk. *)
Definition template (name diskPath : string) : VMConfig :=
  {| Name := name;
     Memory := "2G";
     Drives := make_slice [ {| Path := ""; Type_ := "img" |};
                            {| Path := diskPath; Type_ := "qcow2" |};
                            {| Path := ""; Type_ := "iso" |} ];
     Ports := make_slice [ {| Guest := 22; Host := 2222 |} ];
     Cores := 0;
     Fullscreen := false |}.

(** The program that the environment names as the editor. *)
Definition editorProgram (w : World) : string :=
  if String.eqb (environ w "VISUAL") "" then environ w "EDITOR"
  else environ w "VISUAL".

(** A world: the user's home is [/home/u], the editor is [vi], there are 8
    processors, no file and no directory exist, and nothing fails. *)
Definition homeWorld : World :=
  {| currentUser := inr "/home/u";
     environ := fun key => if String.eqb key "EDITOR" then "vi" else "";
     numCPU := 8;
     files := ∅;
     directories := fun _ => Missing;
     mkdirFails := fun _ => None;
     createFails := fun _ => None;
     writeFails := fun _ => None;
     runFails := fun _ _ => None |}.

(** ** Auxiliary notions of the proofs *)

(** A path element: a string without separator. *)
Fixpoint noSlash (s : string) : bool :=
  match s with
  | "" => true
  | String c rest => negb (Ascii.eqb c "/") && noSlash rest
  end.

(** An element that [Clean] keeps as it is. *)
Definition realElem (e : string) : Prop :=
  e <> "" /\ e <> "." /\ e <> ".." /\ noSlash e = true.

(** The elements that [Clean] has written, the last one first: real
    elements above a run of "..", which is empty for a rooted path. *)
Definition cleanStack (rooted : bool) (out : list string) : Prop :=
  exists reals k, out = reals ++ repeat ".." k /\ Forall realElem reals /\
                  (rooted = true -> k = 0%nat).

Definition isRooted (path : string) : bool :=
  match path with
  | "" => false
  | String c _ => Ascii.eqb c "/"
  end.

(** What [Clean] returns for the elements it has written. *)
Definition renderPath (rooted : bool) (out : list string) : string :=
  if rooted then "/" +:+ strings.Join (rev out) "/"
  else
    match out with
    | [] => "."
    | _ => strings.Join (rev out) "/"
    end.

(** The bytes from [lo], [n] of them. *)
Definition byteRange (lo n : nat) : list N := map N.of_nat (seq lo n).

(** The continuation bytes. *)
Definition contBytes : list N := byteRange 128 64.

Fixpoint highBytes (s : string) : bool :=
  match s with
  | "" => true
  | String c rest => (0x80 <=? code c)%N && highBytes rest
  end.

(** A byte sequence that is one rune: it decodes to its full length, the
    rune is encoded by the same bytes, and none of them is ASCII. *)
Definition oneRune (chunk : string) : bool :=
  let d := utf8.DecodeRuneInString chunk in
  (snd d =? String.length chunk)%nat
  && String.eqb (utf8.EncodeRune (fst d)) chunk
  && highBytes chunk.

Definition chunk2 (s0 b1 : N) : string :=
  String (byte_of s0) (String (byte_of b1) "").
Definition chunk3 (s0 b1 b2 : N) : string :=
  String (byte_of s0) (String (byte_of b1) (String (byte_of b2) "")).

(** The first three bytes of a sequence of four: the bits [q] that they
    hold are those of a rune above U+FFFF, and are written back as the
    same three bytes. *)
Definition leading4 (s0 b1 b2 : N) : bool :=
  let q := N.lor (N.lor (N.shiftl (N.land s0 0x07) 12)
                        (N.shiftl (N.land b1 0x3F) 6))
                 (N.land b2 0x3F) in
  (0x400 <=? q)%N && (q <=? 0x43FF)%N
  && (N.lor 0xF0 (N.shiftr q 12) =? s0)%N
  && (N.lor 0x80 (N.land (N.shiftr q 6) 0x3F) =? b1)%N
  && (N.lor 0x80 (N.land q 0x3F) =? b2)%N.

(** The last byte of a sequence is written back from its six low bits. *)
Definition trailing (b : N) : bool :=
  (N.lor 0x80 (N.land b 0x3F) =? b)%N.

(** Every sequence of two or three bytes that starts with [s0] and that the
    decoder accepts is one rune, and the first three bytes of every sequence
    of four are written back: a check of all of them. *)
Definition runesChecked (s0 : N) : bool :=
  match utf8.first s0 with
  | utf8.LD sz lo hi =>
    forallb (fun b1 =>
      utf8.outside lo hi b1 ||
      (if (sz <=? 2)%nat then oneRune (chunk2 s0 b1)
       else
         forallb (fun b2 =>
           if (sz <=? 3)%nat then oneRune (chunk3 s0 b1 b2)
           else leading4 s0 b1 b2)
         contBytes))
    contBytes
  | _ => true
  end.

(** [n] more bytes of input were read for the literal. *)
Definition bumps (n : nat) (r : option (string * nat)) : option (string * nat) :=
  match r with
  | Some (t, m) => Some (t, (n + m)%nat)
  | None => None
  end.

(** The tokens of a JSON value. *)
Definition tokensItems (tokens : json.value -> list json.token)
  : list json.value -> list json.token :=
  fix go (l : list json.value) : list json.token :=
    match l with
    | [] => []
    | x :: l' => json.TComma :: tokens x ++ go l'
    end.

Definition tokensMembers (tokens : json.value -> list json.token)
  : list (string * json.value) -> list json.token :=
  fix go (l : list (string * json.value)) : list json.token :=
    match l with
    | [] => []
    | m :: l' =>
        json.TComma :: json.TString (fst m) :: json.TColon
          :: tokens (snd m) ++ go l'
    end.

Fixpoint tokens (v : json.value) : list json.token :=
  match v with
  | json.JNull => [json.TNull]
  | json.JBool true => [json.TTrue]
  | json.JBool false => [json.TFalse]
  | json.JNumber lit => [json.TNumber lit]
  | json.JString s => [json.TString s]
  | json.JArray [] => [json.TLBrack; json.TRBrack]
  | json.JArray (x :: xs) =>
      json.TLBrack :: tokens x ++ tokensItems tokens xs ++ [json.TRBrack]
  | json.JObject [] => [json.TLBrace; json.TRBrace]
  | json.JObject (m :: ms) =>
      json.TLBrace :: json.TString (fst m) :: json.TColon
        :: tokens (snd m) ++ tokensMembers tokens ms ++ [json.TRBrace]
  end.

(** The JSON values that the encoder produces: the strings and the keys are
    valid UTF-8, and the numbers are the digits of a natural number. *)
Fixpoint wellFormed (v : json.value) : Prop :=
  match v with
  | json.JNull => True
  | json.JBool _ => True
  | json.JNumber lit => exists n : N, lit = strconv.FormatUint n
  | json.JString s => utf8.ValidString s = true
  | json.JArray items =>
      (fix all (l : list json.value) : Prop :=
         match l with
         | [] => True
         | x :: l' => wellFormed x /\ all l'
         end) items
  | json.JObject members =>
      (fix all (l : list (string * json.value)) : Prop :=
         match l with
         | [] => True
         | m :: l' =>
             (utf8.ValidString (fst m) = true /\ wellFormed (snd m)) /\ all l'
         end) members
  end.

(** What follows a value in the text that the encoder writes: a comma or a
    line feed. *)
Definition delimited (s : string) : bool :=
  match s with
  | "" => false
  | String c _ => Ascii.eqb c LF || Ascii.eqb c ","
  end.

(** The scanner reads the text of [v] as the tokens of [v]. *)
Definition scansTo (v : json.value) : Prop :=
  wellFormed v -> forall (depth : nat) (X : string),
    delimited X = true ->
    json.scan 0 (json.render depth v +:+ X) = tokens v ++ json.scan 0 X.

(** What the parser does once the value [v] is complete. *)
Definition completed (v : json.value) (stack : list json.frame)
  (rest : list json.token) : option json.value :=
  match json.push v stack with
  | json.Whole v' => Some v'
  | json.Into stack' => json.parse stack' json.EndValue rest
  | json.Stuck => None
  end.

(** The parser reads the tokens of [v] as [v], where a value may begin. *)
Definition parsesTo (v : json.value) : Prop :=
  forall (stack : list json.frame) (ph : json.phase) (rest : list json.token),
    ph = json.BeginValue \/ ph = json.BeginValueOrEmpty ->
    json.parse stack ph (tokens v ++ rest) = completed v stack rest.

(** The records whose fields the encoder writes and the decoder reads back:
    every string is valid UTF-8 and every number is a [uint]. *)
Definition validDrive (d : Drive) : Prop :=
  utf8.ValidString (Path d) = true /\ utf8.ValidString (Type_ d) = true.

Definition validPort (p : Port) : Prop := is_uint (Guest p) /\ is_uint (Host p).

Definition validConfig (c : VMConfig) : Prop :=
  utf8.ValidString (Name c) = true /\ utf8.ValidString (Memory c) = true /\
  Forall validDrive (elems (Drives c)) /\ Forall validPort (elems (Ports c)) /\
  is_uint (Cores c).

(** The record that [readConfig] decodes into. *)
Definition zeroConfig : VMConfig := mkVMConfig "" "" nil_slice nil_slice 0 false.

(** ** Vocabulary of the further properties *)

(** The line that [launchVM] prints before it runs the hypervisor. *)
Definition commandLine (args : list string) : string :=
  "cmd.Args: [" +:+ strings.Join (QemuExec :: args) " " +:+ "]".

(** What [launchVM] adds to the trace. *)
Definition launched (args : list string) : list event :=
  [Stdout (commandLine args); Exec QemuExec args].

(** The world [homeWorld] with one more file. *)
Definition homeWorldWith (path content : string) : World :=
  withFiles homeWorld (<[path := content]> (files homeWorld)).

(** A world in which the current user cannot be looked up. *)
Definition noUserWorld : World :=
  {| currentUser := inl (ErrOther "user: unknown userid 1000");
     environ := fun key => if String.eqb key "EDITOR" then "vi" else "";
     numCPU := 8;
     files := ∅;
     directories := fun _ => Missing;
     mkdirFails := fun _ => None;
     createFails := fun _ => None;
     writeFails := fun _ => None;
     runFails := fun _ _ => None |}.

(** The size that [create] passes to the disk-image tool (lines 74-77). *)
Definition diskSize (Args : list string) : string :=
  if (3 <? length Args)%nat then arg Args 3 else "64G".

(** What a failed step prints, with the prefix of the step. *)
Definition reported (prefix : string) (err : option error) : list event :=
  match err with
  | Some e => [Stderr (prefix +:+ Error e)]
  | None => []
  end.

(** The environment of [homeWorld] without an editor. *)
Definition noEditorWorld : World :=
  {| currentUser := inr "/home/u";
     environ := fun _ => "";
     numCPU := 8;
     files := ∅;
     directories := fun _ => Missing;
     mkdirFails := fun _ => None;
     createFails := fun _ => None;
     writeFails := fun _ => None;
     runFails := fun _ _ => None |}.

(** A world in which the configuration directory cannot be created. *)
Definition readOnlyWorld : World :=
  {| currentUser := inr "/home/u";
     environ := fun key => if String.eqb key "EDITOR" then "vi" else "";
     numCPU := 8;
     files := ∅;
     directories := fun _ => Missing;
     mkdirFails := fun _ =>
       Some (ErrOther "mkdir /home/u/.config: read-only file system");
     createFails := fun _ => None;
     writeFails := fun _ => None;
     runFails := fun _ _ => None |}.

(** A computation that leaves the world as it is: it may print and run
    commands, and it writes no file. *)
Definition keepsWorld {A} (m : Prog A) : Prop :=
  forall st : State, world (snd (m st)) = world st.

(** A world whose configuration directory holds the given entries. *)
Definition listedWorld (names : list string) : World :=
  {| currentUser := inr "/home/u";
     environ := fun key => if String.eqb key "EDITOR" then "vi" else "";
     numCPU := 8;
     files := ∅;
     directories := fun _ => Entries names;
     mkdirFails := fun _ => None;
     createFails := fun _ => None;
     writeFails := fun _ => None;
     runFails := fun _ _ => None |}.

(** A world whose configuration directory cannot be read. *)
Definition unreadableWorld : World :=
  {| currentUser := inr "/home/u";
     environ := fun key => if String.eqb key "EDITOR" then "vi" else "";
     numCPU := 8;
     files := ∅;
     directories := fun _ => Unreadable ["vm1.json"] "permission denied";
     mkdirFails := fun _ => None;
     createFails := fun _ => None;
     writeFails := fun _ => None;
     runFails := fun _ _ => None |}.

(** The arguments that an "img" drive at position [idx] adds (lines 215-216). *)
Definition imgArgs (idx : nat) (path : string) : list string :=
  ["-drive";
   "if=none,id=usb" +:+ fmt.d (N.of_nat idx) +:+ ",format=raw,file=" +:+ path;
   "-device"; "usb-storage,bus=xhci.0,drive=usb" +:+ fmt.d (N.of_nat idx)].

(** The arguments with which a record that [create] wrote is launched: the
    disk, if there is one, is its only drive. *)
Definition templateArgs (cpus : Z) (disk : string) : list string :=
  ["-m"; "2G"; "-machine"; "q35"; "-device"; "qemu-xhci,id=xhci";
   "-device"; "usb-kbd"; "-device"; "usb-tablet";
   "-device"; "virtio-net,netdev=net0"]
    ++ (if String.eqb disk "" then []
        else ["-drive"; "if=virtio,format=qcow2,file=" +:+ disk])
    ++ ["-enable-kvm"; "-cpu"; "host"; "-smp"; fmt.d (uint_of_int cpus);
        "-netdev"; "user,id=net0,hostfwd=tcp::2222-:22"].

(** A JSON string literal of plain text, in which nothing is escaped. *)
Definition quoted (s : string) : string :=
  String DQUOTE (s +:+ String DQUOTE "").

(** The text of the given lines, each ended by a line feed. *)
Fixpoint unlines (lines : list string) : string :=
  match lines with
  | [] => ""
  | line :: rest => line +:+ String LF (unlines rest)
  end.

(** The text of the file that [create] is expected to write, for a name and
    a disk path of plain text. *)
Definition templateText (name disk : string) : string :=
  unlines
    ["{";
     "    " +:+ quoted "name" +:+ ": " +:+ quoted name +:+ ",";
     "    " +:+ quoted "memory" +:+ ": " +:+ quoted "2G" +:+ ",";
     "    " +:+ quoted "drives" +:+ ": [";
     "        {";
     "            " +:+ quoted "path" +:+ ": " +:+ quoted "" +:+ ",";
     "            " +:+ quoted "type" +:+ ": " +:+ quoted "img";
     "        },";
     "        {";
     "            " +:+ quoted "path" +:+ ": " +:+ quoted disk +:+ ",";
     "            " +:+ quoted "type" +:+ ": " +:+ quoted "qcow2";
     "        },";
     "        {";
     "            " +:+ quoted "path" +:+ ": " +:+ quoted "" +:+ ",";
     "            " +:+ quoted "type" +:+ ": " +:+ quoted "iso";
     "        }";
     "    ],";
     "    " +:+ quoted "ports" +:+ ": [";
     "        {";
     "            " +:+ quoted "guest" +:+ ": 22,";
     "            " +:+ quoted "host" +:+ ": 2222";
     "        }";
     "    ],";
     "    " +:+ quoted "cores" +:+ ": 0,";
     "    " +:+ quoted "fullscreen" +:+ ": false";
     "}"].

(** A world in which a write fails once the first two bytes are written. *)
Definition fullDiskWorld : World :=
  {| currentUser := inr "/home/u";
     environ := fun key => if String.eqb key "EDITOR" then "vi" else "";
     numCPU := 8;
     files := ∅;
     directories := fun _ => Missing;
     mkdirFails := fun _ => None;
     createFails := fun _ => None;
     writeFails := fun _ => Some (2%nat, ErrOther "no space left on device");
     runFails := fun _ _ => None |}.

(** An absolute path of plain elements, such as [/home/u]. *)
Definition absolutePath (elements : list string) : string :=
  "/" +:+ strings.Join elements "/".

(** * Part II: properties *)

(** ** Strings *)

Section StringFacts.

Lemma app_cons (c : ascii) (s t : string) : String c s +:+ t = String c (s +:+ t).
Proof. reflexivity. Qed.

Lemma app_empty_l (s : string) : "" +:+ s = s.
Proof. reflexivity. Qed.

Lemma app_empty_r (s : string) : s +:+ "" = s.
Proof. induction s as [|c s IH]; [reflexivity|]. rewrite app_cons, IH. reflexivity. Qed.

Lemma app_assoc_str (s t u : string) : (s +:+ t) +:+ u = s +:+ (t +:+ u).
Proof.
  induction s as [|c s IH]; [reflexivity|].
  rewrite !app_cons, IH. reflexivity.
Qed.

Lemma length_app_str (s t : string) :
  String.length (s +:+ t) = (String.length s + String.length t)%nat.
Proof.
  induction s as [|c s IH]; [reflexivity|].
  rewrite app_cons. simpl. rewrite IH. reflexivity.
Qed.

Lemma take_bytes_app (s t : string) : take_bytes (String.length s) (s +:+ t) = s.
Proof.
  induction s as [|c s IH]; simpl.
  - destruct t; reflexivity.
  - rewrite IH. reflexivity.
Qed.

Lemma drop_bytes_app (s t : string) : drop_bytes (String.length s) (s +:+ t) = t.
Proof.
  induction s as [|c s IH]; simpl.
  - destruct t; reflexivity.
  - exact IH.
Qed.

Lemma take_drop_bytes (n : nat) (s : string) :
  take_bytes n s +:+ drop_bytes n s = s.
Proof.
  revert s. induction n as [|n IH]; intros [|c s]; simpl; try reflexivity.
  rewrite ?app_cons, IH. reflexivity.
Qed.

Lemma length_take_bytes (n : nat) (s : string) :
  (n <= String.length s)%nat -> String.length (take_bytes n s) = n.
Proof.
  revert s. induction n as [|n IH]; intros [|c s] H; simpl in *; try lia.
  rewrite IH; lia.
Qed.

Lemma length_drop_bytes (n : nat) (s : string) :
  String.length (drop_bytes n s) = (String.length s - n)%nat.
Proof.
  revert s. induction n as [|n IH]; intros [|c s]; simpl; try lia.
  apply IH.
Qed.

Lemma code_byte_of (n : N) : (n < 256)%N -> code (byte_of n) = n.
Proof. intros H. unfold code, byte_of. apply N_ascii_embedding. exact H. Qed.

Lemma byte_of_code (c : ascii) : byte_of (code c) = c.
Proof. unfold code, byte_of. apply ascii_N_embedding. Qed.

Lemma code_bounded (c : ascii) : (code c < 256)%N.
Proof. unfold code. apply N_ascii_bounded. Qed.

Lemma code_inj (a b : ascii) : code a = code b -> a = b.
Proof. intros H. rewrite <- (byte_of_code a), <- (byte_of_code b), H. reflexivity. Qed.

End StringFacts.

(** ** strconv: the digits of a number, and reading them back *)

Section StrconvFacts.

Lemma code_digit (n : N) : (n < 10)%N -> code (strconv.digit n) = (48 + n)%N.
Proof. intros H. unfold strconv.digit. apply code_byte_of. lia. Qed.

Lemma isDigit_digit (n : N) : (n < 10)%N -> strconv.isDigit (strconv.digit n) = true.
Proof.
  intros H. unfold strconv.isDigit. rewrite code_digit by exact H.
  apply andb_true_iff. split; apply N.leb_le; lia.
Qed.

Lemma allDigits_app (s t : string) :
  allDigits (s +:+ t) = allDigits s && allDigits t.
Proof.
  induction s as [|c s IH]; [reflexivity|].
  rewrite app_cons. simpl. rewrite IH, andb_assoc. reflexivity.
Qed.

Lemma div10_lt_pow2 (u : N) (f : nat) :
  (u < 2 ^ N.of_nat (S f))%N -> (u / 10 < 2 ^ N.of_nat f)%N.
Proof.
  intros H. rewrite Nat2N.inj_succ, N.pow_succ_r' in H.
  apply N.Div0.div_lt_upper_bound. lia.
Qed.

Lemma formatBits_S (f : nat) (u : N) :
  strconv.formatBits (S f) u =
  if (u <? 10)%N then String (strconv.digit u) ""
  else strconv.formatBits f (u / 10) +:+ String (strconv.digit (u mod 10)) "".
Proof. reflexivity. Qed.

(** The digits of a number: a first digit that is zero for zero only, then
    digits. *)
Lemma formatBits_shape (f : nat) (u : N) :
  (u < 2 ^ N.of_nat (S f))%N ->
  exists c r, strconv.formatBits (S f) u = String c r /\
    strconv.isDigit c = true /\ allDigits r = true /\
    (c = "0"%char -> u = 0%N /\ r = "").
Proof.
  revert u. induction f as [|f IH]; intros u H.
  - assert (u < 10)%N as Hu by (simpl in H; lia).
    simpl. apply N.ltb_lt in Hu as Hb. rewrite Hb.
    exists (strconv.digit u), "".
    split; [reflexivity|]. split; [auto using isDigit_digit|].
    split; [reflexivity|].
    intros E. apply (f_equal code) in E. rewrite code_digit in E by exact Hu.
    change (code "0") with 48%N in E. split; [lia|reflexivity].
  - rewrite formatBits_S. destruct (u <? 10)%N eqn:Hb.
    + apply N.ltb_lt in Hb. exists (strconv.digit u), "".
      split; [reflexivity|]. split; [auto using isDigit_digit|].
      split; [reflexivity|].
      intros E. apply (f_equal code) in E. rewrite code_digit in E by exact Hb.
      change (code "0") with 48%N in E. split; [lia|reflexivity].
    + apply N.ltb_ge in Hb.
      destruct (IH (u / 10)%N (div10_lt_pow2 _ _ H)) as (c & r & E & Hc & Hr & Hz).
      rewrite E, app_cons.
      exists c, (r +:+ String (strconv.digit (u mod 10)) "").
      split; [reflexivity|]. split; [exact Hc|]. split.
      * rewrite allDigits_app, Hr. simpl. rewrite isDigit_digit; [reflexivity|].
        apply N.mod_lt. lia.
      * intros Ec. destruct (Hz Ec) as [Hdiv _].
        assert (1 <= u / 10)%N by (apply N.div_le_lower_bound; lia). lia.
Qed.

Lemma lt_pow2_log2 (u : N) : (u < 2 ^ N.of_nat (S (N.to_nat (N.log2 u))))%N.
Proof.
  rewrite Nat2N.inj_succ, N2Nat.id.
  destruct (N.eq_dec u 0%N) as [->|Hu]; [reflexivity|].
  apply N.log2_spec. lia.
Qed.

Lemma FormatUint_shape (u : N) :
  exists c r, strconv.FormatUint u = String c r /\
    strconv.isDigit c = true /\ allDigits r = true /\
    (c = "0"%char -> u = 0%N /\ r = "").
Proof. apply formatBits_shape, lt_pow2_log2. Qed.

Lemma parseDigits_app (s t : string) (n : N) :
  strconv.parseDigits (s +:+ t) n =
  match strconv.parseDigits s n with
  | Some m => strconv.parseDigits t m
  | None => None
  end.
Proof.
  revert n. induction s as [|c s IH]; intros n; [reflexivity|].
  rewrite app_cons. simpl.
  destruct (strconv.isDigit c); [|reflexivity].
  destruct (_ <? _)%N; [apply IH|reflexivity].
Qed.

Lemma parseDigits_formatBits (f : nat) (u : N) :
  (u < 2 ^ N.of_nat (S f))%N -> (u < 2 ^ 64)%N ->
  strconv.parseDigits (strconv.formatBits (S f) u) 0%N = Some u.
Proof.
  revert u. induction f as [|f IH]; intros u H H64.
  - assert (u < 10)%N as Hu by (simpl in H; lia).
    simpl. apply N.ltb_lt in Hu as Hb. rewrite Hb. simpl.
    rewrite isDigit_digit, code_digit by exact Hu.
    replace (0 * 10 + (48 + u - 48))%N with u by lia.
    apply N.ltb_lt in H64. rewrite H64. reflexivity.
  - rewrite formatBits_S. destruct (u <? 10)%N eqn:Hb.
    + apply N.ltb_lt in Hb. simpl.
      rewrite isDigit_digit, code_digit by exact Hb.
      replace (0 * 10 + (48 + u - 48))%N with u by lia.
      apply N.ltb_lt in H64. rewrite H64. reflexivity.
    + apply N.ltb_ge in Hb.
      assert (u / 10 <= u)%N as Hle by (apply N.Div0.div_le_upper_bound; lia).
      rewrite parseDigits_app, IH by (auto using div10_lt_pow2; lia).
      simpl. assert (u mod 10 < 10)%N as Hm by (apply N.mod_lt; lia).
      rewrite isDigit_digit, code_digit by exact Hm.
      replace (u / 10 * 10 + (48 + u mod 10 - 48))%N with u
        by (rewrite (N.add_comm 48), N.add_sub, N.mul_comm; apply N.div_mod; lia).
      apply N.ltb_lt in H64. rewrite H64. reflexivity.
Qed.

Lemma ParseUint_FormatUint (u : N) :
  is_uint u -> strconv.ParseUint (strconv.FormatUint u) = Some u.
Proof.
  intros H. unfold strconv.ParseUint.
  destruct (FormatUint_shape u) as (c & r & E & _).
  rewrite E, <- E. apply parseDigits_formatBits; [apply lt_pow2_log2|exact H].
Qed.

End StrconvFacts.

(** ** The argument builder *)

Section BuilderFacts.

Lemma driveStep_app (args : list string) (idx : nat) (drive : Drive) :
  Builder.driveStep args idx drive = args ++ contribution idx drive.
Proof.
  unfold contribution, Builder.driveStep.
  destruct (String.eqb (Path drive) ""); [now rewrite app_nil_r|].
  destruct (String.eqb (Type_ drive) "img"); [now rewrite <- app_assoc|].
  destruct (String.eqb (Type_ drive) "qcow2"); [reflexivity|].
  destruct (String.eqb (Type_ drive) "iso"); [reflexivity|].
  now rewrite app_nil_r.
Qed.

Lemma rangeDrives_app (drives : list Drive) (idx : nat) (args : list string) :
  Builder.rangeDrives idx drives args = args ++ contributions idx drives.
Proof.
  revert idx args. induction drives as [|d ds IH]; intros idx args; simpl.
  - now rewrite app_nil_r.
  - rewrite IH, driveStep_app, <- app_assoc. reflexivity.
Qed.

Lemma rangePorts_app (ports : list Port) (fwds : list string) :
  Builder.rangePorts ports fwds = fwds ++ map forward ports.
Proof.
  revert fwds. induction ports as [|p ps IH]; intros fwds; simpl.
  - now rewrite app_nil_r.
  - rewrite IH, <- app_assoc. reflexivity.
Qed.

Lemma portsStep_app (args : list string) (config : VMConfig) :
  Builder.portsStep args config = args ++ forwardArgs config.
Proof.
  unfold forwardArgs, Builder.portsStep.
  destruct (Nat.ltb 0 (len (Ports config))); [reflexivity|now rewrite app_nil_r].
Qed.

Lemma forwardArgs_empty (config : VMConfig) :
  len (Ports config) = 0%nat -> forwardArgs config = [].
Proof. intros H. unfold forwardArgs, Builder.portsStep. now rewrite H. Qed.

Lemma forwardArgs_ports (config : VMConfig) :
  len (Ports config) <> 0%nat ->
  forwardArgs config =
  ["-netdev";
   "user,id=net0,hostfwd=" +:+ strings.Join (map forward (elems (Ports config))) ","].
Proof.
  intros H. unfold forwardArgs, Builder.portsStep.
  destruct (Nat.ltb_spec 0 (len (Ports config))) as [_|Hle]; [|lia].
  rewrite rangePorts_app. reflexivity.
Qed.

Lemma resolveCores_frame (numCPU : Z) (config : VMConfig) :
  let config' := Builder.resolveCores numCPU config in
  Name config' = Name config /\ Memory config' = Memory config /\
  Drives config' = Drives config /\ Ports config' = Ports config /\
  Fullscreen config' = Fullscreen config.
Proof.
  unfold Builder.resolveCores. destruct (N.eqb (Cores config) 0); simpl; auto.
Qed.

(** The argument list, section by section. *)
Lemma buildArgs_sections (numCPU : Z) (config : VMConfig) :
  snd (Builder.buildArgs numCPU config) =
  Builder.preamble config ++ contributions 0 (elems (Drives config))
    ++ cpuArgs (Cores (Builder.resolveCores numCPU config))
    ++ displayArgs config ++ forwardArgs config.
Proof.
  unfold Builder.buildArgs. cbv zeta. cbn [snd].
  destruct (resolveCores_frame numCPU config) as (_ & _ & _ & HP & HF).
  cbv zeta in HP, HF.
  rewrite portsStep_app, rangeDrives_app.
  unfold forwardArgs, Builder.portsStep. rewrite HP.
  unfold displayArgs. rewrite HF.
  destruct (Fullscreen config); rewrite <- ?app_assoc; [reflexivity|].
  rewrite app_nil_l. reflexivity.
Qed.

Lemma buildArgs_config (numCPU : Z) (config : VMConfig) :
  fst (Builder.buildArgs numCPU config) = Builder.resolveCores numCPU config.
Proof. reflexivity. Qed.

Lemma uint_of_int_small (x : Z) :
  (0 <= x < 2 ^ 64)%Z -> uint_of_int x = Z.to_N x.
Proof. intros H. unfold uint_of_int. rewrite Z.mod_small by exact H. reflexivity. Qed.

Lemma contribution_nil_iff (idx : nat) (drive : Drive) :
  contribution idx drive = [] <->
  Path drive = "" \/ recognized (Type_ drive) = false.
Proof.
  unfold contribution, Builder.driveStep, recognized.
  destruct (String.eqb_spec (Path drive) "") as [HP|HP].
  - split; auto.
  - destruct (String.eqb (Type_ drive) "img"); simpl.
    { split; [discriminate|]. intros [?|?]; [contradiction|discriminate]. }
    destruct (String.eqb (Type_ drive) "qcow2"); simpl.
    { split; [discriminate|]. intros [?|?]; [contradiction|discriminate]. }
    destruct (String.eqb (Type_ drive) "iso"); simpl.
    { split; [discriminate|]. intros [?|?]; [contradiction|discriminate]. }
    split; auto.
Qed.

End BuilderFacts.

(** C1: a drive whose path is empty, or whose type is none of "img",
    "qcow2" and "iso", adds no string to the argument list, whatever its
    other field holds, and every other drive adds some: what a drive adds
    is empty exactly in these two cases, the loop body appends what the
    drive adds and nothing else, and the argument list is the preamble, then
    what the drives add in their order, then the remaining sections. *)
Theorem skipped_drive_adds_nothing (numCPU : Z) (config : VMConfig)
  (idx : nat) (drive : Drive) :
  (contribution idx drive = [] <->
   Path drive = "" \/ recognized (Type_ drive) = false)
  /\ (forall args : list string,
        Builder.driveStep args idx drive = args ++ contribution idx drive)
  /\ snd (Builder.buildArgs numCPU config) =
     Builder.preamble config ++ contributions 0 (elems (Drives config))
       ++ cpuArgs (Cores (Builder.resolveCores numCPU config))
       ++ displayArgs config ++ forwardArgs config.
Proof.
  split; [apply contribution_nil_iff|].
  split; [intros args; apply driveStep_app|apply buildArgs_sections].
Qed.

(** C3: the count after "-smp" is the number of logical processors of the
    host when the stored count is 0, and the stored count when it is not;
    a stored count of 4 is printed as "4". *)
Theorem smp_core_count (numCPU : Z) (config : VMConfig) :
  (1 <= numCPU < 2 ^ 63)%Z ->
  snd (Builder.buildArgs numCPU config) =
    Builder.preamble config ++ contributions 0 (elems (Drives config))
      ++ ["-enable-kvm"; "-cpu"; "host"; "-smp";
          fmt.d (if N.eqb (Cores config) 0 then Z.to_N numCPU
                 else Cores config)]
      ++ displayArgs config ++ forwardArgs config
  /\ fmt.d 4 = "4".
Proof.
  intros H. split; [|reflexivity].
  rewrite buildArgs_sections. unfold cpuArgs, Builder.resolveCores.
  destruct (N.eqb (Cores config) 0); [|reflexivity].
  simpl. rewrite uint_of_int_small by lia. reflexivity.
Qed.

Lemma smp_core_count_witness :
  (1 <= 8 < 2 ^ 63)%Z /\
  snd (Builder.buildArgs 8 vm1) =
    Builder.preamble vm1 ++ contributions 0 (elems (Drives vm1))
      ++ ["-enable-kvm"; "-cpu"; "host"; "-smp"; "8"]
      ++ displayArgs vm1 ++ forwardArgs vm1.
Proof.
  split; [lia|]. apply (smp_core_count 8 vm1). lia.
Defined.

Section LaunchFacts.

(** Nothing that [launchVM] does changes the files. *)
Lemma launchVM_files (config : VMConfig) (st : State) :
  files (world (snd (launchVM (Some config) st))) = files (world st).
Proof.
  unfold launchVM, bind, runtime.NumCPU, ask.
  destruct (Builder.buildArgs (numCPU (world st)) config) as [config' args].
  unfold Println, emit, exec.Run, bind, ask, ret. cbn.
  destruct (runFails _ _ _); reflexivity.
Qed.

End LaunchFacts.

(** C4, as the code has it: building the argument list leaves the name, the
    memory, the drives, the ports and the display flag of the record as they
    were; it leaves a core count other than 0 as it was, and overwrites a
    core count of 0 with the processor count of the host, in the record that
    the caller passed.  No file is written, so the stored record keeps its 0. *)
Theorem builder_overwrites_zero_cores (numCPU : Z) (config : VMConfig) :
  let config' := fst (Builder.buildArgs numCPU config) in
  Name config' = Name config /\ Memory config' = Memory config /\
  Drives config' = Drives config /\ Ports config' = Ports config /\
  Fullscreen config' = Fullscreen config /\
  (Cores config <> 0%N -> config' = config) /\
  (Cores config = 0%N -> Cores config' = uint_of_int numCPU) /\
  (forall st : State,
     files (world (snd (launchVM (Some config) st))) = files (world st)).
Proof.
  cbv zeta. rewrite buildArgs_config.
  destruct (resolveCores_frame numCPU config) as (HN & HM & HD & HP & HF).
  cbv zeta in *. repeat (split; [assumption|]).
  unfold Builder.resolveCores. split; [|split].
  - intros H. apply N.eqb_neq in H. now rewrite H.
  - intros H. rewrite H. reflexivity.
  - intros st. apply launchVM_files.
Qed.

Lemma builder_overwrites_zero_cores_witness :
  Cores vm1 = 0%N /\ Cores (fst (Builder.buildArgs 8 vm1)) = uint_of_int 8 /\
  Cores vm2 <> 0%N /\ fst (Builder.buildArgs 8 vm2) = vm2.
Proof.
  split; [reflexivity|]. split.
  - apply (builder_overwrites_zero_cores 8 vm1). reflexivity.
  - split; [discriminate|].
    apply (builder_overwrites_zero_cores 8 vm2). discriminate.
Defined.

(** C4 fails as stated: on a host with 8 processors the builder turns the
    core count 0 of the record it is given into 8. *)
Lemma builder_mutates_its_input :
  Cores vm1 = 0%N /\ Cores (fst (Builder.buildArgs 8 vm1)) = 8%N /\
  fst (Builder.buildArgs 8 vm1) <> vm1.
Proof. split; [reflexivity|]. split; [reflexivity|discriminate]. Qed.

(** ** The network arguments *)

Section NetdevFacts.

Lemma fmt_d_not_netdev (n : N) : fmt.d n <> "-netdev".
Proof.
  unfold fmt.d. destruct (FormatUint_shape n) as (c & r & E & Hc & _).
  rewrite E. intros [= -> _]. discriminate Hc.
Qed.

Lemma fmt_d_eqb_netdev (n : N) : String.eqb (fmt.d n) "-netdev" = false.
Proof. apply String.eqb_neq, fmt_d_not_netdev. Qed.

Lemma contribution_cases (idx : nat) (drive : Drive) :
  contribution idx drive = []
  \/ contribution idx drive =
     ["-drive";
      "if=none,id=usb" +:+ fmt.d (N.of_nat idx) +:+ ",format=raw,file="
        +:+ Path drive;
      "-device"; "usb-storage,bus=xhci.0,drive=usb" +:+ fmt.d (N.of_nat idx)]
  \/ contribution idx drive =
     ["-drive"; "if=virtio,format=qcow2,file=" +:+ Path drive]
  \/ (contribution idx drive = ["-cdrom"; Path drive] /\ Type_ drive = "iso").
Proof.
  unfold contribution, Builder.driveStep.
  destruct (String.eqb (Path drive) ""); [auto|].
  destruct (String.eqb (Type_ drive) "img"); [auto|].
  destruct (String.eqb (Type_ drive) "qcow2"); [auto|].
  destruct (String.eqb_spec (Type_ drive) "iso"); auto.
Qed.

Lemma contributions_no_netdev (drives : list Drive) (idx : nat) :
  (forall d, In d drives -> Type_ d = "iso" -> Path d <> "-netdev") ->
  ~ In "-netdev" (contributions idx drives).
Proof.
  revert idx. induction drives as [|d ds IH]; intros idx H; simpl; [tauto|].
  rewrite in_app_iff. intros [Hin|Hin].
  - destruct (contribution_cases idx d) as [E|[E|[E|[E Hiso]]]];
      rewrite E in Hin; simpl in Hin.
    + exact Hin.
    + destruct Hin as [Hin|[Hin|[Hin|[Hin|[]]]]]; discriminate Hin.
    + destruct Hin as [Hin|[Hin|[]]]; discriminate Hin.
    + destruct Hin as [Hin|[Hin|[]]]; [discriminate Hin|].
      apply (H d); auto. now left.
  - apply (IH (S idx)); [|exact Hin]. intros d' Hd'. apply H. now right.
Qed.

Lemma netdevUnused_cons (x : string) (rest : list string) :
  String.eqb x "-netdev" = false -> netdevUnused rest = true ->
  netdevUnused (x :: rest) = true.
Proof.
  intros Hx Hr. simpl. rewrite Hx. destruct rest; [reflexivity|exact Hr].
Qed.

Lemma netdevUnused_cons_flag (x : string) (rest : list string) :
  startsWithFlag rest = true -> netdevUnused rest = true ->
  netdevUnused (x :: rest) = true.
Proof.
  intros Hf Hr. destruct rest as [|y rest]; [discriminate Hf|].
  simpl in Hf. change (netdevUnused (x :: y :: rest))
    with ((negb (String.eqb x "-netdev") || isFlag y) && netdevUnused (y :: rest)).
  rewrite Hf, Hr, orb_true_r. reflexivity.
Qed.

Lemma literal_not_netdev (c : ascii) (s t : string) :
  c <> "-"%char -> String.eqb (String c s +:+ t) "-netdev" = false.
Proof. intros H. apply String.eqb_neq. rewrite app_cons. intros [= E _]. contradiction. Qed.

Lemma contribution_unused (idx : nat) (drive : Drive) (rest : list string) :
  startsWithFlag rest = true -> netdevUnused rest = true ->
  startsWithFlag (contribution idx drive ++ rest) = true /\
  netdevUnused (contribution idx drive ++ rest) = true.
Proof.
  intros Hf Hr.
  destruct (contribution_cases idx drive) as [E|[E|[E|[E _]]]]; rewrite E.
  - auto.
  - split; [reflexivity|]. cbn [app].
    apply netdevUnused_cons; [reflexivity|].
    apply netdevUnused_cons; [apply literal_not_netdev; discriminate|].
    apply netdevUnused_cons; [reflexivity|].
    apply netdevUnused_cons; [apply literal_not_netdev; discriminate|exact Hr].
  - split; [reflexivity|]. cbn [app].
    apply netdevUnused_cons; [reflexivity|].
    apply netdevUnused_cons; [apply literal_not_netdev; discriminate|exact Hr].
  - split; [reflexivity|]. cbn [app].
    apply netdevUnused_cons; [reflexivity|].
    apply netdevUnused_cons_flag; assumption.
Qed.

Lemma contributions_unused (drives : list Drive) (idx : nat) (rest : list string) :
  startsWithFlag rest = true -> netdevUnused rest = true ->
  startsWithFlag (contributions idx drives ++ rest) = true /\
  netdevUnused (contributions idx drives ++ rest) = true.
Proof.
  revert idx. induction drives as [|d ds IH]; intros idx Hf Hr; simpl; [auto|].
  rewrite <- app_assoc.
  destruct (IH (S idx) Hf Hr) as [Hf' Hr'].
  apply contribution_unused; assumption.
Qed.

Lemma tail_unused (cores : N) (config : VMConfig) :
  startsWithFlag (cpuArgs cores ++ displayArgs config) = true /\
  netdevUnused (cpuArgs cores ++ displayArgs config) = true.
Proof.
  split; [reflexivity|]. unfold cpuArgs, displayArgs. cbn [app].
  repeat (apply netdevUnused_cons; [reflexivity|]).
  destruct (Fullscreen config); cbn [app].
  - apply netdevUnused_cons; [apply fmt_d_eqb_netdev|reflexivity].
  - simpl. now rewrite fmt_d_eqb_netdev.
Qed.

Lemma preamble_unused (config : VMConfig) (rest : list string) :
  startsWithFlag rest = true -> netdevUnused rest = true ->
  netdevUnused (Builder.preamble config ++ rest) = true.
Proof.
  intros Hf Hr. unfold Builder.preamble. cbn [app].
  apply netdevUnused_cons; [reflexivity|].
  apply netdevUnused_cons_flag; [reflexivity|].
  repeat (apply netdevUnused_cons; [reflexivity|]). exact Hr.
Qed.

Lemma netdevUnused_lookup (args : list string) (i : nat) :
  netdevUnused args = true -> args !! i = Some "-netdev" ->
  exists flag, args !! S i = Some flag /\ isFlag flag = true.
Proof.
  revert i. induction args as [|x rest IH]; intros i H Hi; [discriminate Hi|].
  destruct i as [|i].
  - injection Hi as ->. destruct rest as [|y rest]; [discriminate H|].
    exists y. split; [reflexivity|].
    change (netdevUnused ("-netdev" :: y :: rest))
      with ((negb (String.eqb "-netdev" "-netdev") || isFlag y)
            && netdevUnused (y :: rest)) in H.
    apply andb_true_iff in H as [H _]. exact H.
  - apply (IH i); [|exact Hi].
    destruct rest as [|y rest]; [reflexivity|].
    change (netdevUnused (x :: y :: rest))
      with ((negb (String.eqb x "-netdev") || isFlag y)
            && netdevUnused (y :: rest)) in H.
    apply andb_true_iff in H as [_ H]. exact H.
Qed.

Lemma buildArgs_unused (numCPU : Z) (config : VMConfig) :
  len (Ports config) = 0%nat ->
  netdevUnused (snd (Builder.buildArgs numCPU config)) = true.
Proof.
  intros H. rewrite buildArgs_sections, (forwardArgs_empty _ H), app_nil_r.
  destruct (tail_unused (Cores (Builder.resolveCores numCPU config)) config)
    as [Hf Hr].
  destruct (contributions_unused (elems (Drives config)) 0 _ Hf Hr) as [Hf' Hr'].
  apply preamble_unused; assumption.
Qed.

Lemma buildArgs_no_netdev (numCPU : Z) (config : VMConfig) :
  len (Ports config) = 0%nat ->
  Memory config <> "-netdev" ->
  (forall d, In d (elems (Drives config)) -> Type_ d = "iso" ->
             Path d <> "-netdev") ->
  ~ In "-netdev" (snd (Builder.buildArgs numCPU config)).
Proof.
  intros H HM HD. rewrite buildArgs_sections, (forwardArgs_empty _ H), app_nil_r.
  rewrite !in_app_iff. intros [Hin|[Hin|[Hin|Hin]]].
  - unfold Builder.preamble in Hin. simpl in Hin.
    repeat (destruct Hin as [Hin|Hin]; [try discriminate Hin|]); [|exact Hin].
    now apply HM.
  - revert Hin. apply contributions_no_netdev. exact HD.
  - unfold cpuArgs in Hin. simpl in Hin.
    repeat (destruct Hin as [Hin|Hin]; [try discriminate Hin|]); [|exact Hin].
    now apply (fmt_d_not_netdev _ Hin).
  - unfold displayArgs in Hin. destruct (Fullscreen config); simpl in Hin.
    + repeat (destruct Hin as [Hin|Hin]; [try discriminate Hin|]). exact Hin.
    + exact Hin.
Qed.

End NetdevFacts.

(** C2: the arguments that the ports add come last.  For a record without
    ports the builder appends no forwarding argument: the list is the one
    that was built before the ports were looked at, and no "-netdev" option
    is added to it.  For a record with ports it appends exactly one such
    argument, "-netdev" with one operand whose forward list joins
    "tcp::{host}-:{guest}" of every port with commas, in the stored order;
    the forward of guest 22 and host 2222 is "tcp::2222-:22". *)
Theorem forwarding_argument (numCPU : Z) (config : VMConfig) :
  let before :=
    Builder.preamble config ++ contributions 0 (elems (Drives config))
      ++ cpuArgs (Cores (Builder.resolveCores numCPU config))
      ++ displayArgs config in
  snd (Builder.buildArgs numCPU config) = before ++ forwardArgs config
  /\ (len (Ports config) = 0%nat ->
      forwardArgs config = [] /\
      snd (Builder.buildArgs numCPU config) = before)
  /\ (len (Ports config) <> 0%nat ->
      forwardArgs config =
      ["-netdev";
       "user,id=net0,hostfwd="
         +:+ strings.Join (map forward (elems (Ports config))) ","])
  /\ strings.Join (map forward [ {| Guest := 22; Host := 2222 |} ]) ","
     = "tcp::2222-:22".
Proof.
  cbv zeta.
  assert (snd (Builder.buildArgs numCPU config) =
          (Builder.preamble config ++ contributions 0 (elems (Drives config))
             ++ cpuArgs (Cores (Builder.resolveCores numCPU config))
             ++ displayArgs config) ++ forwardArgs config) as E
    by (rewrite buildArgs_sections, <- !app_assoc; reflexivity).
  split; [exact E|].
  split; [|split; [apply forwardArgs_ports|reflexivity]].
  intros H. split; [apply forwardArgs_empty, H|].
  rewrite E, (forwardArgs_empty config H). apply app_nil_r.
Qed.

Lemma forwarding_argument_witness :
  forwardArgs vm1 = ["-netdev"; "user,id=net0,hostfwd=tcp::2222-:22"]
  /\ forwardArgs vm2 = []
  /\ snd (Builder.buildArgs 8 vm2)
     = ["-m"; "4G"; "-machine"; "q35"; "-device"; "qemu-xhci,id=xhci";
        "-device"; "usb-kbd"; "-device"; "usb-tablet";
        "-device"; "virtio-net,netdev=net0";
        "-drive"; "if=none,id=usb0,format=raw,file=/images/usb.img";
        "-device"; "usb-storage,bus=xhci.0,drive=usb0";
        "-enable-kvm"; "-cpu"; "host"; "-smp"; "4";
        "-display"; "gtk,full-screen=on"].
Proof.
  destruct (forwarding_argument 8 vm1) as (_ & _ & H1 & _).
  destruct (forwarding_argument 8 vm2) as (_ & H2 & _).
  split; [apply H1; discriminate|].
  destruct (H2 eq_refl) as [H2a H2b].
  split; [exact H2a|exact H2b].
Defined.

(** C10: the argument list always holds the pair "-device",
    "virtio-net,netdev=net0", at positions 10 and 11; without ports the
    builder adds no "-netdev" argument, and wherever the list still holds
    the string "-netdev" the next element is an option flag, so that nothing
    in the list defines net0. *)
Theorem net0_referenced_without_definition (numCPU : Z) (config : VMConfig) :
  let args := snd (Builder.buildArgs numCPU config) in
  args !! 10%nat = Some "-device"
  /\ args !! 11%nat = Some "virtio-net,netdev=net0"
  /\ (len (Ports config) = 0%nat ->
      forwardArgs config = [] /\
      forall i : nat, args !! i = Some "-netdev" ->
        exists flag, args !! S i = Some flag /\ isFlag flag = true).
Proof.
  cbv zeta. split; [|split].
  - rewrite buildArgs_sections. reflexivity.
  - rewrite buildArgs_sections. reflexivity.
  - intros H. split; [apply forwardArgs_empty, H|].
    intros i. apply netdevUnused_lookup, buildArgs_unused, H.
Qed.

Lemma net0_referenced_without_definition_witness :
  len (Ports vm3) = 0%nat /\
  snd (Builder.buildArgs 8 vm3) !! 1%nat = Some "-netdev" /\
  exists flag, snd (Builder.buildArgs 8 vm3) !! 2%nat = Some flag /\
               isFlag flag = true.
Proof.
  split; [reflexivity|]. split; [reflexivity|].
  destruct (net0_referenced_without_definition 8 vm3) as (_ & _ & H).
  destruct (H eq_refl) as [_ H']. apply (H' 1%nat). reflexivity.
Defined.

(** ** The program: what each function does *)

Section ProgramFacts.

Lemma state_eta (st : State) : mkState (world st) (trace st) = st.
Proof. destruct st; reflexivity. Qed.

Lemma Current_home (st : State) (home : string) :
  currentUser (world st) = inr home ->
  user.Current st = (Value (home, None), st).
Proof. intros H. unfold user.Current, ask. rewrite H. reflexivity. Qed.

Lemma Current_fails (st : State) (e : error) :
  currentUser (world st) = inl e ->
  user.Current st = (Value ("", Some e), st).
Proof. intros H. unfold user.Current, ask. rewrite H. reflexivity. Qed.

Lemma bind_value {A B} (m : Prog A) (k : A -> Prog B) (st st' : State) (a : A) :
  m st = (Value a, st') -> bind m k st = k a st'.
Proof. intros H. unfold bind. rewrite H. reflexivity. Qed.

Lemma trimAll (names acc : list string) :
  fold_left (fun configs file => configs ++ [strings.TrimSuffix file ".json"])
            names acc
  = acc ++ map (fun file => strings.TrimSuffix file ".json") names.
Proof.
  revert acc. induction names as [|n ns IH]; intros acc; simpl.
  - now rewrite app_nil_r.
  - rewrite IH, <- app_assoc. reflexivity.
Qed.

Lemma listConfigs_spec (st : State) (home : string) :
  currentUser (world st) = inr home ->
  listConfigs st =
  match directories (world st) (filepath.Join [home; ConfigDir]) with
  | Missing => (Value ([], None), st)
  | Entries names =>
      (Value (map (fun file => strings.TrimSuffix file ".json") names, None), st)
  | Unreadable _ msg =>
      (Value ([], Some (Errorf "reading config file directory: " (ErrOther msg))),
       st)
  end.
Proof.
  intros H. unfold listConfigs.
  rewrite (bind_value _ _ _ _ _ (Current_home st home H)).
  unfold bind, os.ReadDir, ask.
  destruct (directories (world st) (filepath.Join [home; ConfigDir]));
    cbn [isNil IsNotExist negb andb ret]; try reflexivity.
  rewrite trimAll. reflexivity.
Qed.

Lemma Run_spec (st : State) (name : string) (args : list string) :
  name <> "" ->
  exec.Run name args st =
  (Value (runFails (world st) name args),
   mkState (world st) (trace st ++ [Exec name args])).
Proof.
  intros H. unfold exec.Run. apply String.eqb_neq in H. rewrite H.
  reflexivity.
Qed.

Lemma newDisk_spec (st : State) (home name size : string) :
  currentUser (world st) = inr home ->
  let filePath := filepath.Join [home; DiskDir; name +:+ ".qcow2"] in
  let args := ["create"; "-f"; "qcow2"; filePath; size] in
  newDisk name size st =
  (Value (match runFails (world st) QemuImg args with
          | Some e => ("", Some (Errorf "creating disk image: " e))
          | None => (filePath, None)
          end),
   mkState (world st) (trace st ++ [Exec QemuImg args])).
Proof.
  intros H. cbv zeta. unfold newDisk.
  rewrite (bind_value _ _ _ _ _ (Current_home st home H)).
  rewrite (bind_value _ _ _ _ _ (Run_spec st QemuImg _ ltac:(discriminate))).
  cbn [world]. destruct (runFails _ _ _); reflexivity.
Qed.

Lemma editor_spec (st : State) (file : string) :
  editorProgram (world st) <> "" ->
  editor file st =
  (Value (match runFails (world st) (editorProgram (world st)) [file] with
          | Some e => Some (Errorf "opening editor: " e)
          | None => None
          end),
   mkState (world st) (trace st ++ [Exec (editorProgram (world st)) [file]])).
Proof.
  intros H. unfold editor, os.Getenv, editorProgram in *.
  unfold bind at 1 2. unfold ask at 1.
  destruct (String.eqb (environ (world st) "VISUAL") "") eqn:E;
    unfold ask, ret; unfold bind; rewrite (Run_spec st _ [file] H);
    destruct (runFails _ _ _); reflexivity.
Qed.

Lemma writeConfig_spec (st : State) (home name : string)
  (config : option VMConfig) :
  currentUser (world st) = inr home ->
  let configDir := filepath.Join [home; ConfigDir] in
  let filePath := filepath.Join [configDir; name +:+ ".json"] in
  mkdirFails (world st) configDir = None ->
  createFails (world st) filePath = None ->
  writeFails (world st) filePath = None ->
  writeConfig name config st =
  (Value (filePath, None),
   mkState (withFiles (world st)
              (<[filePath := json.Encode config]> (files (world st))))
           (trace st ++ [Written filePath (json.Encode config)])).
Proof.
  intros H. cbv zeta. intros Hm Hc Hw. unfold writeConfig.
  rewrite (bind_value _ _ _ _ _ (Current_home st home H)).
  unfold bind, os.MkdirAll, os.Create, os.Write, ask, setFiles, emit, ret, bind.
  rewrite Hm, Hc. cbn [world trace files withFiles writeFails]. rewrite Hw.
  cbn [world trace files withFiles fmap option_fmap option_map].
  rewrite lookup_insert_eq, insert_insert_eq. reflexivity.
Qed.

Lemma readConfig_spec (st : State) (home name content : string) :
  currentUser (world st) = inr home ->
  files (world st) !! filepath.Join [home; ConfigDir; name +:+ ".json"]
    = Some content ->
  readConfig name st =
  (Value (match json.Decode content
                  (Some (mkVMConfig "" "" nil_slice nil_slice 0 false)) with
          | Some config => (config, None)
          | None => (None, Some (Errorf "decoding config: "
                                        (ErrOther "invalid JSON input")))
          end), st).
Proof.
  intros H Hf. unfold readConfig.
  rewrite (bind_value _ _ _ _ _ (Current_home st home H)).
  unfold bind, os.Open, ask. rewrite Hf.
  destruct (json.Decode content _); reflexivity.
Qed.

End ProgramFacts.

(** ** The configuration store and the dispatcher *)

(** C6: when the configuration directory of the user does not exist,
    [listConfigs] returns no name and no error, and changes nothing; when
    reading the directory fails in another way it returns the error; and
    otherwise it returns the entries without their ".json" suffix. *)
Theorem listConfigs_missing_directory (st : State) (home : string) :
  currentUser (world st) = inr home ->
  let dir := filepath.Join [home; ConfigDir] in
  (directories (world st) dir = Missing ->
   listConfigs st = (Value ([], None), st))
  /\ (forall names msg, directories (world st) dir = Unreadable names msg ->
      listConfigs st =
      (Value ([], Some (Errorf "reading config file directory: "
                               (ErrOther msg))), st))
  /\ (forall names, directories (world st) dir = Entries names ->
      listConfigs st =
      (Value (map (fun file => strings.TrimSuffix file ".json") names, None),
       st)).
Proof.
  intros H. cbv zeta. rewrite (listConfigs_spec st home H).
  split; [|split]; intros;
    repeat match goal with E : directories _ _ = _ |- _ => rewrite E end;
    reflexivity.
Qed.

Lemma listConfigs_missing_directory_witness :
  currentUser (world (start homeWorld)) = inr "/home/u" /\
  directories homeWorld (filepath.Join ["/home/u"; ConfigDir]) = Missing /\
  listConfigs (start homeWorld) = (Value ([], None), start homeWorld).
Proof.
  split; [reflexivity|]. split; [reflexivity|].
  apply (listConfigs_missing_directory (start homeWorld) "/home/u");
    reflexivity.
Defined.

Section DispatchFacts.

Lemma main_dispatch (Args : list string) :
  (2 <= length Args)%nat ->
  main Args =
  let command := arg Args 1 in
  if String.eqb command "list" then mainList
  else if String.eqb command "run" then mainRun Args
  else if String.eqb command "create" then mainCreate Args
  else if String.eqb command "edit" then mainEdit Args
  else ret tt.
Proof.
  intros H. unfold main.
  destruct (Nat.ltb_spec (length Args) 2); [lia|reflexivity].
Qed.

End DispatchFacts.

(** C9, as the code has it: without a command the program prints the usage
    message to the error stream and does nothing else; with a command that
    is none of list, run, create and edit it does nothing at all, and
    prints nothing; with run, create or edit and no name it prints an error
    to the error stream and exits with code 1. *)
Theorem dispatch_without_work (Args : list string) (w : World) :
  ((length Args < 2)%nat ->
   main Args (start w) = (Value tt, mkState w [Stderr usage]))
  /\ ((2 <= length Args)%nat ->
      arg Args 1 <> "list" -> arg Args 1 <> "run" ->
      arg Args 1 <> "create" -> arg Args 1 <> "edit" ->
      main Args (start w) = (Value tt, start w))
  /\ (length Args = 2%nat ->
      (arg Args 1 = "run" ->
       main Args (start w) = (Exit 1, mkState w [Stderr "no run name"]))
      /\ (arg Args 1 = "create" ->
          main Args (start w) = (Exit 1, mkState w [Stderr "no create name"]))
      /\ (arg Args 1 = "edit" ->
          main Args (start w) = (Exit 1, mkState w [Stderr "no edit name"]))).
Proof.
  split; [|split].
  - intros H. unfold main.
    destruct (Nat.ltb_spec (length Args) 2); [reflexivity|lia].
  - intros H Hl Hr Hc He. rewrite main_dispatch by exact H. cbv zeta.
    apply String.eqb_neq in Hl, Hr, Hc, He. rewrite Hl, Hr, Hc, He.
    reflexivity.
  - intros H. rewrite main_dispatch by lia. cbv zeta.
    split; [|split]; intros ->; cbn [String.eqb Ascii.eqb Bool.eqb];
      unfold mainRun, mainCreate, mainEdit; rewrite H; reflexivity.
Qed.

Lemma dispatch_without_work_witness :
  main ["qmgr"] (start homeWorld) = (Value tt, mkState homeWorld [Stderr usage])
  /\ main ["qmgr"; "delete"; "vm1"] (start homeWorld)
     = (Value tt, start homeWorld)
  /\ main ["qmgr"; "run"] (start homeWorld)
     = (Exit 1, mkState homeWorld [Stderr "no run name"]).
Proof.
  destruct (dispatch_without_work ["qmgr"] homeWorld) as (H1 & _ & _).
  destruct (dispatch_without_work ["qmgr"; "delete"; "vm1"] homeWorld)
    as (_ & H2 & _).
  destruct (dispatch_without_work ["qmgr"; "run"] homeWorld) as (_ & _ & H3).
  split; [apply H1; simpl; lia|].
  split; [apply H2; simpl; try lia; discriminate|].
  apply H3; reflexivity.
Defined.

(** C9 fails as stated: for a command that the program does not know it
    prints nothing, and so no usage message. *)
Lemma unknown_command_prints_nothing :
  arg ["qmgr"; "delete"; "vm1"] 1 = "delete" /\
  trace (snd (main ["qmgr"; "delete"; "vm1"] (start homeWorld))) = [] /\
  trace (snd (main ["qmgr"; "delete"; "vm1"] (start homeWorld)))
    <> [Stderr usage].
Proof. split; [reflexivity|]. split; [reflexivity|discriminate]. Qed.

Section CreateFacts.

Lemma Fprintln_spec (line : string) (st : State) :
  Fprintln_Stderr line st
  = (Value tt, mkState (world st) (trace st ++ [Stderr line])).
Proof. reflexivity. Qed.

Lemma Println_spec (line : string) (st : State) :
  Println line st = (Value tt, mkState (world st) (trace st ++ [Stdout line])).
Proof. reflexivity. Qed.

Lemma ret_spec {A} (a : A) (st : State) : ret a st = (Value a, st).
Proof. reflexivity. Qed.

(** What [create] does after the disk was asked for, for a record whose disk
    path is [disk]. *)
Lemma create_after_disk (st : State) (home name disk : string) :
  currentUser (world st) = inr home ->
  editorProgram (world st) <> "" ->
  let configDir := filepath.Join [home; ConfigDir] in
  let configPath := filepath.Join [configDir; name +:+ ".json"] in
  mkdirFails (world st) configDir = None ->
  createFails (world st) configPath = None ->
  writeFails (world st) configPath = None ->
  let content := json.Encode (Some (template name disk)) in
  let files' := <[configPath := content]> (files (world st)) in
  let edited :=
    match runFails (world st) (editorProgram (world st)) [configPath] with
    | None => []
    | Some e => [Stderr ("editing config: opening editor: " +:+ Error e)]
    end in
  exists o,
  (let* (configPath, err) := writeConfig name (Some (template name disk)) in
   match err with
   | Some e => let* _ := Fprintln_Stderr (Error e) in os.Exit 1
   | None =>
       let* _ := Println configPath in
       let* err := editor configPath in
       match err with
       | Some e =>
           let* _ := Fprintln_Stderr ("editing config: " +:+ Error e) in
           os.Exit 1
       | None => ret tt
       end
   end) st
  = (o, mkState (withFiles (world st) files')
         (trace st ++ [Written configPath content; Stdout configPath;
                       Exec (editorProgram (world st)) [configPath]]
                   ++ edited)).
Proof.
  intros H He. cbv zeta. intros Hm Hc Hw.
  rewrite (bind_value _ _ _ _ _
             (writeConfig_spec st home name _ H Hm Hc Hw)).
  rewrite (bind_value _ _ _ _ _ (Println_spec _ _)). cbn [world trace].
  set (st2 := mkState _ _).
  assert (editorProgram (world st2) <> "") as He2 by exact He.
  rewrite (bind_value _ _ _ _ _ (editor_spec st2 _ He2)).
  subst st2. cbn [world trace withFiles runFails].
  change (editorProgram (withFiles (world st) _)) with (editorProgram (world st)).
  destruct (runFails (world st) (editorProgram (world st)) _) as [e|].
  - eexists. unfold bind, Fprintln_Stderr, emit, os.Exit. cbn [world trace Error].
    rewrite <- !app_assoc. reflexivity.
  - eexists. unfold ret. rewrite <- !app_assoc, app_nil_r. reflexivity.
Qed.

End CreateFacts.

(** C8 at the input [edit vm1], for the home directory [/home/u]: the
    editor is run on the path "~/.config/qmgr/configs/vm1.json", whose first
    element is a tilde and not the home directory, while [writeConfig] and
    [readConfig] use "/home/u/.config/qmgr/configs/vm1.json": after the
    record was saved under that path and read back from it, the path that
    [edit] passes still names no file. *)
Theorem edit_passes_tilde_path :
  let saved := snd (writeConfig "vm1" (Some vm1) (start homeWorld)) in
  trace (snd (main ["qmgr"; "edit"; "vm1"] (start homeWorld)))
    = [Exec "vi" ["~/.config/qmgr/configs/vm1.json"]]
  /\ fst (writeConfig "vm1" (Some vm1) (start homeWorld))
     = Value ("/home/u/.config/qmgr/configs/vm1.json", None)
  /\ fst (readConfig "vm1" saved) = Value (Some vm1, None)
  /\ files (world saved) !! "~/.config/qmgr/configs/vm1.json" = None
  /\ "~/.config/qmgr/configs/vm1.json"
     <> "/home/u/.config/qmgr/configs/vm1.json".
Proof.
  cbv zeta. split; [reflexivity|]. split; [reflexivity|].
  split; [vm_compute; reflexivity|]. split; [vm_compute; reflexivity|].
  discriminate.
Qed.

(** ** path/filepath: joining in one step or in two *)

Section FilepathFacts.

Lemma split_nonempty (s : string) : exists e es, filepath.split s = e :: es.
Proof.
  induction s as [|c s (e & es & IH)]; simpl; [eauto|].
  destruct (Ascii.eqb c "/"); [eauto|]. rewrite IH. eauto.
Qed.

Lemma split_app (s t : string) :
  filepath.split (s +:+ String "/" t) = filepath.split s ++ filepath.split t.
Proof.
  induction s as [|c s IH]; [reflexivity|].
  rewrite app_cons. simpl. destruct (Ascii.eqb c "/").
  - rewrite IH. reflexivity.
  - rewrite IH. destruct (split_nonempty s) as (e & es & E). rewrite E.
    reflexivity.
Qed.

Lemma split_noSlash (s : string) : Forall (fun e => noSlash e = true) (filepath.split s).
Proof.
  induction s as [|c s IH]; simpl; [repeat constructor|].
  destruct (Ascii.eqb c "/") eqn:Ec; [constructor; auto|].
  destruct (filepath.split s) as [|e es]; [repeat constructor; simpl; now rewrite Ec|].
  inversion IH; subst. constructor; [simpl; now rewrite Ec|assumption].
Qed.

Lemma split_element (e : string) : noSlash e = true -> filepath.split e = [e].
Proof.
  induction e as [|c e IH]; intros H; [reflexivity|].
  simpl in *. apply andb_true_iff in H as [Hc He].
  apply negb_true_iff in Hc. rewrite Hc, (IH He). reflexivity.
Qed.

Lemma split_Join (l : list string) :
  l <> [] -> Forall (fun e => noSlash e = true) l ->
  filepath.split (strings.Join l "/") = l.
Proof.
  induction l as [|e l IH]; intros Hne H; [contradiction|].
  inversion H as [|? ? He Hl]; subst.
  destruct l as [|e' l].
  - simpl. apply split_element, He.
  - change (strings.Join (e :: e' :: l) "/")
      with (e +:+ String "/" (strings.Join (e' :: l) "/")).
    rewrite split_app, split_element, IH by (auto; discriminate). reflexivity.
Qed.

Lemma cleanStep_real (rooted : bool) (out : list string) (e : string) :
  realElem e -> filepath.cleanStep rooted out e = e :: out.
Proof.
  intros (H1 & H2 & H3 & _). unfold filepath.cleanStep.
  apply String.eqb_neq in H1, H2, H3. now rewrite H1, H2, H3.
Qed.

Lemma cleanStep_stack (rooted : bool) (out : list string) (e : string) :
  noSlash e = true -> cleanStack rooted out ->
  cleanStack rooted (filepath.cleanStep rooted out e).
Proof.
  intros He (reals & k & -> & Hr & Hk). unfold filepath.cleanStep.
  destruct (String.eqb_spec e ""); [exists reals, k; auto|].
  destruct (String.eqb_spec e "."); [exists reals, k; auto|].
  destruct (String.eqb_spec e "..") as [->|Hdd].
  - destruct reals as [|x reals].
    + destruct k as [|k]; simpl.
      * destruct rooted; simpl.
        -- exists [], 0%nat. auto.
        -- exists [], 1%nat. repeat split; auto. discriminate.
      * destruct rooted; simpl; [specialize (Hk eq_refl); discriminate|].
        exists [], (S (S k)). repeat split; auto. discriminate.
    + inversion Hr as [|? ? Hx Hrs]; subst. simpl.
      destruct Hx as (_ & _ & Hx & _). apply String.eqb_neq in Hx.
      rewrite Hx. simpl. exists reals, k. auto.
  - exists (e :: reals), k. repeat split; auto.
    constructor; [|assumption]. repeat split; assumption.
Qed.

Lemma fold_cleanStep_stack (rooted : bool) (comps out : list string) :
  Forall (fun e => noSlash e = true) comps -> cleanStack rooted out ->
  cleanStack rooted (fold_left (filepath.cleanStep rooted) comps out).
Proof.
  revert out. induction comps as [|e comps IH]; intros out H Hs; [exact Hs|].
  inversion H; subst. simpl. apply IH; [assumption|].
  apply cleanStep_stack; assumption.
Qed.

Lemma fold_cleanStep_reals (rooted : bool) (l acc : list string) :
  Forall realElem l ->
  fold_left (filepath.cleanStep rooted) l acc = rev l ++ acc.
Proof.
  revert acc. induction l as [|e l IH]; intros acc H; [reflexivity|].
  inversion H; subst. simpl. rewrite cleanStep_real, IH by assumption.
  rewrite <- app_assoc. reflexivity.
Qed.

Lemma fold_cleanStep_dots (k j : nat) :
  fold_left (filepath.cleanStep false) (repeat ".." k) (repeat ".." j)
  = repeat ".." (k + j).
Proof.
  revert j. induction k as [|k IH]; intros j; [reflexivity|].
  simpl. replace (filepath.cleanStep false (repeat ".." j) "..")
    with (repeat ".." (S j)).
  - rewrite IH. replace (k + S j)%nat with (S (k + j)) by lia. reflexivity.
  - unfold filepath.cleanStep. simpl. destruct j; reflexivity.
Qed.

Lemma rev_repeat {A} (x : A) (k : nat) : rev (repeat x k) = repeat x k.
Proof.
  induction k as [|k IH]; [reflexivity|].
  simpl. rewrite IH. clear IH. induction k as [|k IH]; [reflexivity|].
  simpl. rewrite IH. reflexivity.
Qed.

(** Cleaning the elements that were written, in their order, writes them
    again. *)
Lemma fold_cleanStep_again (rooted : bool) (out : list string) :
  cleanStack rooted out ->
  fold_left (filepath.cleanStep rooted) (rev out) [] = out.
Proof.
  intros (reals & k & -> & Hr & Hk).
  rewrite rev_app_distr, rev_repeat, fold_left_app.
  assert (fold_left (filepath.cleanStep rooted) (repeat ".." k) []
          = repeat ".." k) as ->.
  { destruct rooted.
    - rewrite (Hk eq_refl). reflexivity.
    - change (@nil string) with (repeat ".." 0) at 1.
      rewrite (fold_cleanStep_dots k 0), Nat.add_0_r. reflexivity. }
  rewrite fold_cleanStep_reals, rev_involutive; [reflexivity|].
  apply Forall_rev. exact Hr.
Qed.

Lemma cleanStack_elements (rooted : bool) (out : list string) :
  cleanStack rooted out ->
  Forall (fun e => noSlash e = true /\ e <> "") out.
Proof.
  intros (reals & k & -> & Hr & _). apply Forall_app. split.
  - eapply Forall_impl; [exact Hr|]. intros e (H1 & _ & _ & H4). auto.
  - apply Forall_forall. intros e He. apply list_elem_of_In, repeat_spec in He. subst e.
    split; [reflexivity|discriminate].
Qed.

Lemma Clean_unfold (path : string) :
  path <> "" ->
  filepath.Clean path =
  renderPath (isRooted path)
    (fold_left (filepath.cleanStep (isRooted path)) (filepath.split path) []).
Proof. destruct path; [contradiction|reflexivity]. Qed.

Lemma cleanStack_nil (rooted : bool) : cleanStack rooted [].
Proof. exists [], 0%nat. repeat split; auto. Qed.

Lemma Join_head (e : string) (l : list string) :
  exists t, strings.Join (e :: l) "/" = e +:+ t.
Proof.
  destruct l as [|e' l]; [exists ""; now rewrite app_empty_r|].
  exists (String "/" (strings.Join (e' :: l) "/")). reflexivity.
Qed.

Lemma renderPath_rooted (rooted : bool) (out : list string) :
  cleanStack rooted out ->
  renderPath rooted out <> "" /\ isRooted (renderPath rooted out) = rooted.
Proof.
  intros Hs. unfold renderPath. destruct rooted; [split; [discriminate|reflexivity]|].
  destruct out as [|x out]; [split; [discriminate|reflexivity]|].
  pose proof (cleanStack_elements _ _ Hs) as He. apply Forall_rev in He.
  destruct (rev (x :: out)) as [|e l] eqn:E.
  { apply (f_equal (@length _)) in E. rewrite length_rev in E. discriminate. }
  inversion He as [|? ? [Hn Hne] _]; subst.
  destruct (Join_head e l) as [t ->].
  destruct e as [|c e]; [contradiction|]. rewrite app_cons.
  split; [discriminate|]. simpl in *.
  apply andb_true_iff in Hn as [Hn _]. now apply negb_true_iff in Hn.
Qed.

Lemma split_renderPath (rooted : bool) (out : list string) :
  cleanStack rooted out ->
  fold_left (filepath.cleanStep rooted) (filepath.split (renderPath rooted out)) []
  = out.
Proof.
  intros Hs. pose proof (cleanStack_elements _ _ Hs) as He.
  assert (Forall (fun e => noSlash e = true) (rev out)) as Hn.
  { apply Forall_rev. eapply Forall_impl; [exact He|]. now intros e [? _]. }
  unfold renderPath. destruct rooted.
  - destruct out as [|x out]; [reflexivity|].
    change ("/" +:+ strings.Join (rev (x :: out)) "/")
      with (String "/" (strings.Join (rev (x :: out)) "/")).
    change (filepath.split (String "/" (strings.Join (rev (x :: out)) "/")))
      with ("" :: filepath.split (strings.Join (rev (x :: out)) "/")).
    rewrite split_Join; [|intros E; apply (f_equal (@length _)) in E;
                          rewrite length_rev in E; discriminate|exact Hn].
    change (fold_left (filepath.cleanStep true) ("" :: rev (x :: out)) [])
      with (fold_left (filepath.cleanStep true) (rev (x :: out)) []).
    apply fold_cleanStep_again, Hs.
  - destruct out as [|x out]; [reflexivity|].
    rewrite split_Join; [|intros E; apply (f_equal (@length _)) in E;
                          rewrite length_rev in E; discriminate|exact Hn].
    apply fold_cleanStep_again, Hs.
Qed.

Lemma isRooted_app (p t : string) : p <> "" -> isRooted (p +:+ t) = isRooted p.
Proof. destruct p; [contradiction|reflexivity]. Qed.

Lemma app_not_empty (p t : string) : p <> "" -> p +:+ t <> "".
Proof. destruct p; [contradiction|discriminate]. Qed.

(** A clean path may be cleaned again before an element is added. *)
Lemma Clean_Clean_app (p x : string) :
  p <> "" ->
  filepath.Clean (filepath.Clean p +:+ String "/" x)
  = filepath.Clean (p +:+ String "/" x).
Proof.
  intros Hp.
  set (r := isRooted p).
  set (out := fold_left (filepath.cleanStep r) (filepath.split p) []).
  assert (cleanStack r out) as Hs
    by (apply fold_cleanStep_stack; [apply split_noSlash|apply cleanStack_nil]).
  assert (filepath.Clean p = renderPath r out) as Ec by (apply Clean_unfold, Hp).
  destruct (renderPath_rooted r out Hs) as [Hne Hr].
  rewrite Ec.
  rewrite (Clean_unfold (renderPath r out +:+ _)) by (apply app_not_empty, Hne).
  rewrite (Clean_unfold (p +:+ _)) by (apply app_not_empty, Hp).
  rewrite !isRooted_app by assumption. rewrite Hr. fold r.
  rewrite !split_app, !fold_left_app. fold out.
  rewrite split_renderPath by exact Hs. reflexivity.
Qed.

Lemma Clean_not_empty (p : string) : p <> "" -> filepath.Clean p <> "".
Proof.
  intros Hp. rewrite Clean_unfold by exact Hp.
  apply renderPath_rooted, fold_cleanStep_stack;
    [apply split_noSlash|apply cleanStack_nil].
Qed.

Lemma Join_cons (e : string) (l : list string) :
  e <> "" -> filepath.Join (e :: l) = filepath.Clean (strings.Join (e :: l) "/").
Proof.
  intros H. apply String.eqb_neq in H.
  change (filepath.Join (e :: l))
    with (if String.eqb e "" then filepath.Join l
          else filepath.Clean (strings.Join (e :: l) "/")).
  now rewrite H.
Qed.

(** [filepath.Join(filepath.Join(home, dir), file)] is
    [filepath.Join(home, dir, file)]. *)
Lemma Join_Join (home dir file : string) :
  dir <> "" ->
  filepath.Join [filepath.Join [home; dir]; file]
  = filepath.Join [home; dir; file].
Proof.
  intros Hd.
  destruct (String.eqb_spec home "") as [->|Hh].
  - change (filepath.Join [""; dir]) with (filepath.Join [dir]).
    change (filepath.Join [""; dir; file]) with (filepath.Join [dir; file]).
    rewrite (Join_cons dir [] Hd), (Join_cons dir [file] Hd).
    rewrite Join_cons by (apply Clean_not_empty, Hd).
    apply Clean_Clean_app, Hd.
  - rewrite (Join_cons home [dir] Hh), (Join_cons home [dir; file] Hh).
    assert (home +:+ String "/" dir <> "") as Hp by (apply app_not_empty, Hh).
    change (strings.Join [home; dir] "/") with (home +:+ String "/" dir).
    rewrite Join_cons by (apply Clean_not_empty, Hp).
    change (strings.Join [filepath.Clean (home +:+ String "/" dir); file] "/")
      with (filepath.Clean (home +:+ String "/" dir) +:+ String "/" file).
    rewrite Clean_Clean_app by exact Hp.
    change (strings.Join [home; dir; file] "/")
      with (home +:+ String "/" (dir +:+ String "/" file)).
    rewrite app_assoc_str. reflexivity.
Qed.

End FilepathFacts.

(** ** unicode/utf8: a rune that decodes is encoded by the same bytes *)

Section Utf8Facts.

Lemma in_byteRange (lo n : nat) (b : N) :
  (N.of_nat lo <= b < N.of_nat (lo + n))%N -> In b (byteRange lo n).
Proof.
  intros H. unfold byteRange. apply in_map_iff. exists (N.to_nat b).
  split; [apply N2Nat.id|]. apply in_seq. lia.
Qed.

Lemma first_LD (s0 : N) (sz : nat) (lo hi : N) :
  utf8.first s0 = utf8.LD sz lo hi ->
  (0x80 <= s0)%N /\ (0x80 <= lo)%N /\ (hi <= 0xBF)%N.
Proof.
  unfold utf8.first.
  repeat match goal with
         | |- context [if ?b then _ else _] => destruct b eqn:?
         end; intros [= <- <- <-]; try discriminate;
    repeat split; try lia;
    match goal with H : (s0 <? 128)%N = false |- _ => apply N.ltb_ge in H; exact H end.
Qed.

Lemma first_AS (s0 : N) : utf8.first s0 = utf8.AS <-> (s0 < 0x80)%N.
Proof.
  unfold utf8.first. destruct (N.ltb_spec s0 0x80) as [H|H]; [tauto|].
  split; [|lia].
  repeat match goal with
         | |- context [if ?b then _ else _] => destruct b
         end; discriminate.
Qed.

Lemma outside_false (lo hi b : N) :
  utf8.outside lo hi b = false -> (lo <= b <= hi)%N.
Proof.
  unfold utf8.outside. intros H. apply orb_false_iff in H as [H1 H2].
  apply N.ltb_ge in H1, H2. lia.
Qed.

Lemma in_contBytes (lo hi b : N) :
  (0x80 <= lo)%N -> (hi <= 0xBF)%N -> utf8.outside lo hi b = false ->
  In b contBytes.
Proof.
  intros Hlo Hhi H. apply outside_false in H. apply in_byteRange. simpl. lia.
Qed.

Lemma decode_unfold (c0 : ascii) (s1 : string) :
  utf8.DecodeRuneInString (String c0 s1) =
  match utf8.first (code c0) with
  | utf8.AS => (code c0, 1%nat)
  | utf8.XX => (utf8.RuneError, 1%nat)
  | utf8.LD sz lo hi =>
    match s1 with
    | "" => (utf8.RuneError, 1%nat)
    | String c1 s2 =>
      if utf8.outside lo hi (code c1) then (utf8.RuneError, 1%nat)
      else if (sz <=? 2)%nat then
        (N.lor (N.shiftl (N.land (code c0) 0x1F) 6) (N.land (code c1) 0x3F),
         2%nat)
      else
        match s2 with
        | "" => (utf8.RuneError, 1%nat)
        | String c2 s3 =>
          if utf8.outside 0x80 0xBF (code c2) then (utf8.RuneError, 1%nat)
          else if (sz <=? 3)%nat then
            (N.lor (N.lor (N.shiftl (N.land (code c0) 0x0F) 12)
                          (N.shiftl (N.land (code c1) 0x3F) 6))
                   (N.land (code c2) 0x3F), 3%nat)
          else
            match s3 with
            | "" => (utf8.RuneError, 1%nat)
            | String c3 _ =>
              if utf8.outside 0x80 0xBF (code c3) then (utf8.RuneError, 1%nat)
              else
                (N.lor (N.lor (N.lor (N.shiftl (N.land (code c0) 0x07) 18)
                                     (N.shiftl (N.land (code c1) 0x3F) 12))
                              (N.shiftl (N.land (code c2) 0x3F) 6))
                       (N.land (code c3) 0x3F), 4%nat)
            end
        end
    end
  end.
Proof. reflexivity. Qed.

Lemma runesChecked_true (s0 : N) :
  In s0 (byteRange 128 128) -> runesChecked s0 = true.
Proof.
  revert s0. apply forallb_forall.
  vm_cast_no_check (eq_refl true).
Qed.

Lemma trailing_true (b : N) : In b contBytes -> trailing b = true.
Proof. revert b. apply forallb_forall. vm_compute. reflexivity. Qed.

Lemma low6 (b : N) : (N.land b 0x3F < 64)%N.
Proof.
  change 0x3F%N with (N.ones 6). rewrite N.land_ones.
  apply N.mod_lt. discriminate.
Qed.

Lemma shiftr_low (q m : N) :
  (m < 64)%N -> N.shiftr (N.lor (N.shiftl q 6) m) 6 = q.
Proof.
  intros H. rewrite N.shiftr_lor, N.shiftr_shiftl_l by reflexivity.
  rewrite (N.shiftr_div_pow2 m), N.div_small by exact H.
  simpl. rewrite N.shiftl_0_r. apply N.lor_0_r.
Qed.

Lemma land_low (q m : N) :
  (m < 64)%N -> N.land (N.lor (N.shiftl q 6) m) 0x3F = m.
Proof.
  intros H. rewrite N.land_lor_distr_l.
  change 0x3F%N with (N.ones 6). rewrite !N.land_ones.
  rewrite N.shiftl_mul_pow2, N.Div0.mod_mul, N.mod_small by exact H.
  reflexivity.
Qed.

Lemma lor_low_bounds (q m : N) :
  (m < 64)%N -> (64 * q <= N.lor (N.shiftl q 6) m < 64 * q + 64)%N.
Proof.
  intros H. pose proof (shiftr_low q m H) as E.
  rewrite N.shiftr_div_pow2 in E. change (2 ^ 6)%N with 64%N in E.
  set (r := N.lor (N.shiftl q 6) m) in *.
  pose proof (N.div_mod r 64 ltac:(discriminate)) as D.
  pose proof (N.mod_lt r 64 ltac:(discriminate)) as L.
  rewrite E in D. generalize dependent (r mod 64)%N. intros. lia.
Qed.

Lemma rune4_split (s0 b1 b2 b3 : N) :
  N.lor (N.lor (N.lor (N.shiftl (N.land s0 0x07) 18)
                      (N.shiftl (N.land b1 0x3F) 12))
               (N.shiftl (N.land b2 0x3F) 6))
        (N.land b3 0x3F)
  = N.lor (N.shiftl (N.lor (N.lor (N.shiftl (N.land s0 0x07) 12)
                                  (N.shiftl (N.land b1 0x3F) 6))
                           (N.land b2 0x3F)) 6)
          (N.land b3 0x3F).
Proof. rewrite !N.shiftl_lor, !N.shiftl_shiftl. reflexivity. Qed.

(** A sequence of four bytes is one rune where its first three bytes and
    its last byte are written back. *)
Lemma four_bytes (c0 c1 c2 c3 : ascii) (sz : nat) (lo hi : N) :
  utf8.first (code c0) = utf8.LD sz lo hi ->
  utf8.outside lo hi (code c1) = false ->
  utf8.outside 0x80 0xBF (code c2) = false ->
  utf8.outside 0x80 0xBF (code c3) = false ->
  (sz <=? 3)%nat = false ->
  leading4 (code c0) (code c1) (code c2) = true ->
  trailing (code c3) = true ->
  oneRune (String c0 (String c1 (String c2 (String c3 "")))) = true.
Proof.
  intros F O1 O2 O3 S3 L T.
  assert ((sz <=? 2)%nat = false) as S2
    by (apply Nat.leb_gt; apply Nat.leb_gt in S3; lia).
  destruct (first_LD _ _ _ _ F) as (H0 & Hlo & Hhi).
  apply outside_false in O1 as B1. apply outside_false in O2 as B2.
  apply outside_false in O3 as B3.
  unfold oneRune. rewrite decode_unfold, F, O1, S2, O2, S3, O3.
  cbn [fst snd String.length Nat.eqb andb highBytes].
  rewrite rune4_split.
  unfold leading4 in L. cbv zeta in L.
  set (q := N.lor (N.lor (N.shiftl (N.land (code c0) 0x07) 12)
                         (N.shiftl (N.land (code c1) 0x3F) 6))
                  (N.land (code c2) 0x3F)) in *.
  pose proof (low6 (code c3)) as M.
  set (m := N.land (code c3) 0x3F) in *.
  apply andb_true_iff in L as [L E2]. apply andb_true_iff in L as [L E1].
  apply andb_true_iff in L as [L E0]. apply andb_true_iff in L as [Q1 Q2].
  apply N.leb_le in Q1, Q2. apply N.eqb_eq in E0, E1, E2.
  unfold trailing in T. apply N.eqb_eq in T. fold m in T.
  pose proof (lor_low_bounds q m M) as R.
  pose proof (shiftr_low q m M) as R6.
  pose proof (land_low q m M) as RL.
  set (r := N.lor (N.shiftl q 6) m) in *.
  apply andb_true_iff. split.
  - apply String.eqb_eq. unfold utf8.EncodeRune, utf8.MaxRune,
      utf8.surrogateMin, utf8.surrogateMax.
    replace (r <=? 0x7F)%N with false by (symmetry; apply N.leb_gt; lia).
    replace (r <=? 0x7FF)%N with false by (symmetry; apply N.leb_gt; lia).
    replace (0x10FFFF <? r)%N with false by (symmetry; apply N.ltb_ge; lia).
    replace (r <=? 0xDFFF)%N with false by (symmetry; apply N.leb_gt; lia).
    rewrite andb_false_r. cbn [orb].
    replace (r <=? 0xFFFF)%N with false by (symmetry; apply N.leb_gt; lia).
    replace (N.shiftr r 18) with (N.shiftr q 12)
      by (rewrite <- R6, N.shiftr_shiftr; reflexivity).
    replace (N.shiftr r 12) with (N.shiftr q 6)
      by (rewrite <- R6, N.shiftr_shiftr; reflexivity).
    rewrite R6, RL, E0, E1, E2, T, !byte_of_code. reflexivity.
  - repeat (apply andb_true_iff; split); try reflexivity;
      apply N.leb_le; lia.
Qed.

(** The runes of more than one byte, by the shape of the input. *)
Lemma decode_multibyte (c0 : ascii) (s1 : string) :
  (0x80 <= code c0)%N ->
  utf8.isError (utf8.DecodeRuneInString (String c0 s1)) = false ->
  exists chunk t,
    String c0 s1 = chunk +:+ t /\
    utf8.DecodeRuneInString (String c0 s1) = utf8.DecodeRuneInString chunk /\
    (forall t', utf8.DecodeRuneInString (chunk +:+ t')
                = utf8.DecodeRuneInString chunk) /\
    oneRune chunk = true.
Proof.
  intros Hc0 Hok.
  assert (runesChecked (code c0) = true) as All
    by (apply runesChecked_true, in_byteRange;
        pose proof (code_bounded c0); simpl; lia).
  unfold runesChecked in All.
  rewrite decode_unfold in Hok.
  destruct (utf8.first (code c0)) as [| |sz lo hi] eqn:F.
  - apply first_AS in F. lia.
  - discriminate Hok.
  - destruct (first_LD _ _ _ _ F) as (_ & Hlo & Hhi).
    destruct s1 as [|c1 s2]; [discriminate Hok|].
    destruct (utf8.outside lo hi (code c1)) eqn:O1; [discriminate Hok|].
    rewrite forallb_forall in All.
    specialize (All (code c1) (in_contBytes _ _ _ Hlo Hhi O1)).
    rewrite O1, orb_false_l in All.
    destruct (sz <=? 2)%nat eqn:S2.
    { exists (String c0 (String c1 "")), s2.
      split; [reflexivity|]. unfold chunk2 in All. rewrite !byte_of_code in All.
      split; [|split; [|exact All]].
      - rewrite !decode_unfold, F, O1, S2. reflexivity.
      - intros t'. rewrite !app_cons, !decode_unfold, F, O1, S2. reflexivity. }
    destruct s2 as [|c2 s3]; [discriminate Hok|].
    destruct (utf8.outside 0x80 0xBF (code c2)) eqn:O2; [discriminate Hok|].
    rewrite forallb_forall in All.
    specialize (All (code c2) (in_contBytes 0x80%N 0xBF%N _ ltac:(lia) ltac:(lia) O2)).
    destruct (sz <=? 3)%nat eqn:S3.
    { exists (String c0 (String c1 (String c2 ""))), s3.
      split; [reflexivity|]. unfold chunk3 in All. rewrite !byte_of_code in All.
      split; [|split; [|exact All]].
      - rewrite !decode_unfold, F, O1, S2, O2, S3. reflexivity.
      - intros t'. rewrite !app_cons, !decode_unfold, F, O1, S2, O2, S3.
        reflexivity. }
    destruct s3 as [|c3 s4]; [discriminate Hok|].
    destruct (utf8.outside 0x80 0xBF (code c3)) eqn:O3; [discriminate Hok|].
    pose proof (trailing_true (code c3)
      (in_contBytes 0x80%N 0xBF%N _ ltac:(lia) ltac:(lia) O3)) as Last.
    exists (String c0 (String c1 (String c2 (String c3 "")))), s4.
    split; [reflexivity|].
    split; [|split;
      [|exact (four_bytes c0 c1 c2 c3 sz lo hi F O1 O2 O3 S3 All Last)]].
    + rewrite !decode_unfold, F, O1, S2, O2, S3, O3. reflexivity.
    + intros t'. rewrite !app_cons, !decode_unfold, F, O1, S2, O2, S3, O3.
      reflexivity.
Qed.

End Utf8Facts.

(** ** encoding/json: a string literal is read back as the string *)

Section QuoteFacts.

Lemma bump_bumps (x : string) (n : nat) (r : option (string * nat)) :
  json.bump x (bumps n r) =
  match r with
  | Some (t, m) => Some (x +:+ t, S (n + m))
  | None => None
  end.
Proof. destruct r as [[t m]|]; reflexivity. Qed.

Lemma bumps_0 (r : option (string * nat)) : bumps 0 r = r.
Proof. destruct r as [[t m]|]; reflexivity. Qed.

Lemma unquoteFrom_skip (a Y : string) :
  json.unquoteFrom (String.length a) (a +:+ Y)
  = bumps (String.length a) (json.unquoteFrom 0 Y).
Proof.
  induction a as [|c a IH]; [now rewrite bumps_0|].
  rewrite app_cons. simpl. rewrite IH.
  destruct (json.unquoteFrom 0 Y) as [[t m]|]; reflexivity.
Qed.

Lemma appendFrom_skip (a Y : string) :
  json.appendFrom (String.length a) (a +:+ Y) = json.appendFrom 0 Y.
Proof.
  induction a as [|c a IH]; [reflexivity|]. rewrite app_cons. exact IH.
Qed.

Lemma validFrom_skip (a Y : string) :
  utf8.validFrom (String.length a) (a +:+ Y) = utf8.validFrom 0 Y.
Proof.
  induction a as [|c a IH]; [reflexivity|]. rewrite app_cons. exact IH.
Qed.

Lemma unquoteFrom_0 (c : ascii) (rest : string) :
  json.unquoteFrom 0 (String c rest) =
  if Ascii.eqb c DQUOTE then Some ("", 1%nat)
  else if Ascii.eqb c "\" then
    match rest with
    | "" => None
    | String e rest' =>
      if Ascii.eqb e "u" then
        match json.getu4 rest' with
        | None => None
        | Some rr =>
          if utf16.IsSurrogate rr then
            match json.pairedSurrogate rr (drop_bytes 4 rest') with
            | Some dec =>
                json.bump (utf8.EncodeRune dec) (json.unquoteFrom 11 rest)
            | None =>
                json.bump (utf8.EncodeRune utf16.ReplacementChar)
                          (json.unquoteFrom 5 rest)
            end
          else json.bump (utf8.EncodeRune rr) (json.unquoteFrom 5 rest)
        end
      else
        match json.unescape e with
        | Some ch => json.bump (String ch "") (json.unquoteFrom 1 rest)
        | None => None
        end
    end
  else if (code c <? 0x20)%N then None
  else if (code c <? utf8.RuneSelf)%N then
    json.bump (String c "") (json.unquoteFrom 0 rest)
  else
    let d := utf8.DecodeRuneInString (String c rest) in
    json.bump (utf8.EncodeRune (fst d)) (json.unquoteFrom (snd d - 1) rest).
Proof. reflexivity. Qed.

Lemma unquoteFrom_S (k : nat) (c : ascii) (rest : string) :
  json.unquoteFrom (S k) (String c rest) = json.bump "" (json.unquoteFrom k rest).
Proof. reflexivity. Qed.

(** What the encoder writes for an ASCII byte is read back as that byte. *)
Lemma unquote_escapeByte (b : ascii) (X : string) :
  (code b < 0x80)%N ->
  json.unquoteFrom 0 (json.escapeByte b +:+ X) =
  match json.unquoteFrom 0 X with
  | Some (t, n) => Some (String b t, (String.length (json.escapeByte b) + n)%nat)
  | None => None
  end.
Proof.
  intros H.
  destruct b as [[|] [|] [|] [|] [|] [|] [|] [|]];
    try (exfalso; vm_compute in H; discriminate H);
    match goal with
    | |- context [json.escapeByte ?c] =>
        let v := eval vm_compute in (json.escapeByte c) in
        change (json.escapeByte c) with v
    end;
    rewrite ?app_cons, ?app_empty_l;
    rewrite unquoteFrom_0;
    cbv -[json.unquoteFrom String.append];
    rewrite ?unquoteFrom_S;
    destruct (json.unquoteFrom 0 X) as [[t n]|]; reflexivity.
Qed.

Lemma appendFrom_0 (b : ascii) (rest : string) :
  json.appendFrom 0 (String b rest) =
  if (code b <? utf8.RuneSelf)%N
  then json.escapeByte b +:+ json.appendFrom 0 rest
  else
    let d := utf8.DecodeRuneInString (String b rest) in
    if utf8.isError d then ("\" +:+ "ufffd") +:+ json.appendFrom 0 rest
    else if (fst d =? 0x2028)%N || (fst d =? 0x2029)%N then
      ("\" +:+ "u202") +:+ String (json.hexDigit (N.land (fst d) 0xF))
                             (json.appendFrom (snd d - 1) rest)
    else take_bytes (snd d) (String b rest)
           +:+ json.appendFrom (snd d - 1) rest.
Proof. reflexivity. Qed.

Lemma validFrom_0 (b : ascii) (rest : string) :
  utf8.validFrom 0 (String b rest) =
  let d := utf8.DecodeRuneInString (String b rest) in
  if utf8.isError d then false else utf8.validFrom (snd d - 1) rest.
Proof. reflexivity. Qed.

Lemma decode_ascii (b : ascii) (rest : string) :
  (code b < 0x80)%N ->
  utf8.DecodeRuneInString (String b rest) = (code b, 1%nat).
Proof.
  intros H. rewrite decode_unfold.
  apply first_AS in H. now rewrite H.
Qed.

Lemma high_byte_plain (b : ascii) :
  (0x80 <= code b)%N ->
  Ascii.eqb b DQUOTE = false /\ Ascii.eqb b "\" = false /\
  (code b <? 0x20)%N = false /\ (code b <? utf8.RuneSelf)%N = false.
Proof.
  intros H. repeat split.
  - apply Ascii.eqb_neq. intros ->. vm_compute in H. now apply H.
  - apply Ascii.eqb_neq. intros ->. vm_compute in H. now apply H.
  - apply N.ltb_ge. lia.
  - apply N.ltb_ge. exact H.
Qed.

(** The literal that the encoder writes for a valid string is read back as
    that string, up to its closing quote. *)
Lemma unquote_appendFrom (n : nat) (src : string) :
  (String.length src <= n)%nat -> utf8.ValidString src = true ->
  forall rest : string,
    json.unquoteFrom 0 (json.appendFrom 0 src +:+ String DQUOTE rest)
    = Some (src, S (String.length (json.appendFrom 0 src))).
Proof.
  unfold utf8.ValidString. revert src.
  induction n as [|n IH]; intros src Hlen Hv rest.
  { destruct src; [reflexivity|simpl in Hlen; lia]. }
  destruct src as [|b s1]; [reflexivity|].
  rewrite validFrom_0 in Hv. cbv zeta in Hv. rewrite appendFrom_0. cbv zeta.
  destruct (N.ltb_spec (code b) utf8.RuneSelf) as [Hb|Hb].
  - rewrite (decode_ascii b s1 Hb) in Hv.
    assert (utf8.isError (code b, 1%nat) = false) as He.
    { unfold utf8.isError. cbn [fst snd].
      apply andb_false_iff. left. apply N.eqb_neq. unfold utf8.RuneError.
      unfold utf8.RuneSelf in Hb. lia. }
    rewrite He in Hv. cbn [snd Nat.sub] in Hv.
    rewrite app_assoc_str, (unquote_escapeByte b _ Hb).
    rewrite (IH s1 ltac:(simpl in Hlen; lia) Hv rest).
    rewrite length_app_str, Nat.add_succ_r. reflexivity.
  - destruct (utf8.isError (utf8.DecodeRuneInString (String b s1))) eqn:He;
      [discriminate Hv|].
    destruct (decode_multibyte b s1 Hb He) as (chunk & t & Es & Ed & Ep & Hr).
    unfold oneRune in Hr. apply andb_true_iff in Hr as [Hr Hh].
    apply andb_true_iff in Hr as [Hn Henc].
    apply Nat.eqb_eq in Hn. apply String.eqb_eq in Henc.
    destruct chunk as [|b' chunk']; [discriminate Henc|].
    rewrite app_cons in Es. injection Es as <- Es1. subst s1.
    rewrite Ed in Hv |- *. rewrite Hn in Hv |- *.
    cbn [String.length Nat.sub] in Hv |- *. rewrite Nat.sub_0_r in Hv |- *.
    rewrite validFrom_skip in Hv. rewrite appendFrom_skip.
    assert (String.length t <= n)%nat as Ht.
    { simpl in Hlen. rewrite length_app_str in Hlen. lia. }
    pose proof (IH t Ht Hv rest) as IHt.
    destruct (high_byte_plain b Hb) as (Hq & Hbs & Hctl & Hself).
    destruct ((fst (utf8.DecodeRuneInString (String b chunk')) =? 0x2028)%N
              || (fst (utf8.DecodeRuneInString (String b chunk')) =? 0x2029)%N)
      eqn:Hsep.
    + assert (exists h, json.hexDigit
                (N.land (fst (utf8.DecodeRuneInString (String b chunk'))) 0xF) = h
              /\ (h = "8"%char \/ h = "9"%char)
              /\ json.getu4 (String "2" (String "0" (String "2" (String h ""))) +:+
                             (json.appendFrom 0 t +:+ String DQUOTE rest))
                 = Some (fst (utf8.DecodeRuneInString (String b chunk')))
              /\ utf16.IsSurrogate
                   (fst (utf8.DecodeRuneInString (String b chunk'))) = false)
        as (h & Eh & Hh89 & Hu4 & Hsur).
      { apply orb_true_iff in Hsep as [E|E]; apply N.eqb_eq in E; rewrite E;
          eexists; (split; [reflexivity|]);
          (split; [auto|]); split; reflexivity. }
      rewrite Eh.
      change (("\" +:+ "u202") +:+ String h (json.appendFrom 0 t))
        with (String "\" (String "u" (String "2" (String "0" (String "2"
                (String h (json.appendFrom 0 t))))))).
      rewrite !app_cons. rewrite unquoteFrom_0.
      change (Ascii.eqb "\" DQUOTE) with false.
      change (Ascii.eqb "\" "\") with true.
      change (Ascii.eqb "u" "u") with true. cbv iota.
      rewrite !app_cons, app_empty_l in Hu4. rewrite Hu4, Hsur.
      rewrite !unquoteFrom_S, IHt, Henc.
      reflexivity.
    + change (take_bytes (S (String.length chunk')) (String b (chunk' +:+ t)))
        with (String b (take_bytes (String.length chunk') (chunk' +:+ t))).
      rewrite take_bytes_app, app_assoc_str, app_cons.
      rewrite unquoteFrom_0, Hq, Hbs, Hctl, Hself. cbv zeta.
      rewrite <- app_cons, Ep, Hn, Henc.
      cbn [String.length Nat.sub]. rewrite Nat.sub_0_r.
      rewrite unquoteFrom_skip, IHt.
      rewrite length_app_str. cbn [bumps json.bump String.length].
      rewrite Nat.add_succ_r. reflexivity.
Qed.

End QuoteFacts.

(** ** encoding/json: the scanner reads the tokens of what the encoder wrote *)

Section ScanFacts.

Lemma scan_skip (a Y : string) :
  json.scan (String.length a) (a +:+ Y) = json.scan 0 Y.
Proof.
  induction a as [|c a IH]; [reflexivity|]. rewrite app_cons. exact IH.
Qed.

Lemma scan_indentation (depth : nat) (X : string) :
  json.scan 0 (json.indentation depth +:+ X) = json.scan 0 X.
Proof.
  induction depth as [|d IH]; [reflexivity|].
  simpl json.indentation. rewrite app_assoc_str, !app_cons, app_empty_l.
  exact IH.
Qed.

Lemma scan_newline (depth : nat) (X : string) :
  json.scan 0 (json.newline depth +:+ X) = json.scan 0 X.
Proof.
  unfold json.newline. rewrite app_cons.
  change (json.scan 0 (String LF (json.indentation depth +:+ X)))
    with (json.scan 0 (json.indentation depth +:+ X)).
  apply scan_indentation.
Qed.

Lemma scan_string (s X : string) :
  utf8.ValidString s = true ->
  json.scan 0 (json.appendString s +:+ X) = json.TString s :: json.scan 0 X.
Proof.
  intros H. unfold json.appendString.
  rewrite app_cons, app_assoc_str, app_cons, app_empty_l.
  change (json.scan 0 (String DQUOTE ?R)) with
    (match json.unquoteFrom 0 R with
     | Some (t, n) => json.TString t :: json.scan n R
     | None => [json.TBad]
     end).
  rewrite (unquote_appendFrom _ s (le_n _) H X).
  f_equal.
  replace (S (String.length (json.appendFrom 0 s)))
    with (String.length (json.appendFrom 0 s +:+ String DQUOTE ""))
    by (rewrite length_app_str; simpl; lia).
  rewrite <- (scan_skip (json.appendFrom 0 s +:+ String DQUOTE "") X).
  rewrite app_assoc_str. reflexivity.
Qed.

Lemma delimited_cases (X : string) :
  delimited X = true ->
  exists r, X = String LF r \/ X = String "," r.
Proof.
  destruct X as [|c r]; [discriminate|]. simpl. intros H.
  apply orb_true_iff in H as [H|H]; apply Ascii.eqb_eq in H; subst c; eauto.
Qed.

Lemma digit_cases (c : ascii) :
  strconv.isDigit c = true ->
  c = "0"%char \/ c = "1"%char \/ c = "2"%char \/ c = "3"%char \/
  c = "4"%char \/ c = "5"%char \/ c = "6"%char \/ c = "7"%char \/
  c = "8"%char \/ c = "9"%char.
Proof.
  destruct c as [[|] [|] [|] [|] [|] [|] [|] [|]]; intros H;
    try discriminate H; tauto.
Qed.

Lemma scanNumber_digits (r X : string) :
  allDigits r = true -> delimited X = true ->
  json.scanNumber json.state1 (r +:+ X) = Some (String.length r).
Proof.
  intros Hr HX. induction r as [|c r IH].
  - destruct (delimited_cases X HX) as [x [->| ->]]; reflexivity.
  - simpl in Hr. apply andb_true_iff in Hr as [Hc Hr].
    rewrite app_cons. simpl. rewrite Hc, (IH Hr). reflexivity.
Qed.

Lemma scan_number (n : N) (X : string) :
  delimited X = true ->
  json.scan 0 (strconv.FormatUint n +:+ X)
  = json.TNumber (strconv.FormatUint n) :: json.scan 0 X.
Proof.
  intros HX. destruct (FormatUint_shape n) as (c & r & E & Hc & Hr & Hz).
  rewrite E, app_cons.
  destruct (digit_cases c Hc) as [->|Hd].
  - destruct (Hz eq_refl) as [_ ->]. rewrite app_empty_l.
    destruct (delimited_cases X HX) as [x [->| ->]]; reflexivity.
  - assert (json.scan 0 (String c (r +:+ X)) =
            json.numberToken json.state1 (String c (r +:+ X)) (r +:+ X)
              (fun k => json.scan k (r +:+ X))) as ->.
    { repeat (destruct Hd as [->|Hd]; [reflexivity|]). subst c. reflexivity. }
    unfold json.numberToken. rewrite (scanNumber_digits r X Hr HX).
    f_equal.
    + f_equal. change (take_bytes (S (String.length r)) (String c (r +:+ X)))
        with (String c (take_bytes (String.length r) (r +:+ X))).
      now rewrite take_bytes_app.
    + apply scan_skip.
Qed.

(** Induction over JSON values. *)
Lemma value_induction (P : json.value -> Prop) :
  P json.JNull -> (forall b, P (json.JBool b)) ->
  (forall lit, P (json.JNumber lit)) -> (forall s, P (json.JString s)) ->
  (forall items, Forall P items -> P (json.JArray items)) ->
  (forall members, Forall (fun m => P (snd m)) members ->
                   P (json.JObject members)) ->
  forall v, P v.
Proof.
  intros Hnull Hbool Hnum Hstr Harr Hobj.
  fix IH 1. intros [|b|lit|s|items|members].
  - exact Hnull.
  - apply Hbool.
  - apply Hnum.
  - apply Hstr.
  - apply Harr. revert items. fix IHl 1. intros [|x l].
    + constructor.
    + constructor; [apply IH|apply IHl].
  - apply Hobj. revert members. fix IHl 1. intros [|m l].
    + constructor.
    + constructor; [apply IH|apply IHl].
Qed.

Lemma render_array_cons (depth : nat) (x : json.value) (xs : list json.value) :
  json.render depth (json.JArray (x :: xs)) =
  "[" +:+ json.newline (S depth) +:+ json.render (S depth) x
    +:+ json.renderItems (json.render (S depth)) (json.newline (S depth)) xs
    +:+ json.newline depth +:+ "]".
Proof. reflexivity. Qed.

Lemma render_object_cons (depth : nat) (m : string * json.value)
  (ms : list (string * json.value)) :
  json.render depth (json.JObject (m :: ms)) =
  "{" +:+ json.newline (S depth)
    +:+ json.appendString (fst m) +:+ ": " +:+ json.render (S depth) (snd m)
    +:+ json.renderMembers (json.render (S depth)) (json.newline (S depth)) ms
    +:+ json.newline depth +:+ "}".
Proof. reflexivity. Qed.

Lemma renderItems_cons (f : json.value -> string) (sep : string)
  (x : json.value) (l : list json.value) :
  json.renderItems f sep (x :: l) =
  "," +:+ sep +:+ f x +:+ json.renderItems f sep l.
Proof. reflexivity. Qed.

Lemma renderMembers_cons (f : json.value -> string) (sep : string)
  (m : string * json.value) (l : list (string * json.value)) :
  json.renderMembers f sep (m :: l) =
  "," +:+ sep +:+ json.appendString (fst m) +:+ ": " +:+ f (snd m)
    +:+ json.renderMembers f sep l.
Proof. reflexivity. Qed.

Lemma delimited_items (f : json.value -> string) (sep : string)
  (l : list json.value) (depth : nat) (R : string) :
  delimited (json.renderItems f sep l +:+ json.newline depth +:+ R) = true.
Proof. destruct l; reflexivity. Qed.

Lemma delimited_members (f : json.value -> string) (sep : string)
  (l : list (string * json.value)) (depth : nat) (R : string) :
  delimited (json.renderMembers f sep l +:+ json.newline depth +:+ R) = true.
Proof. destruct l; reflexivity. Qed.

Lemma scan_items (depth d' : nat) (xs : list json.value) (R : string) :
  Forall scansTo xs -> wellFormed (json.JArray xs) ->
  json.scan 0 (json.renderItems (json.render depth) (json.newline depth) xs
               +:+ json.newline d' +:+ R)
  = tokensItems tokens xs ++ json.scan 0 (json.newline d' +:+ R).
Proof.
  induction xs as [|x l IH]; intros HP Hwf; [reflexivity|].
  inversion HP as [|? ? Hx Hl]; subst. destruct Hwf as [Hwx Hwl].
  rewrite renderItems_cons, !app_assoc_str.
  change (json.scan 0 ("," +:+ ?Y)) with (json.TComma :: json.scan 0 Y).
  rewrite scan_newline, (Hx Hwx) by apply delimited_items.
  rewrite (IH Hl Hwl). cbn [tokensItems].
  rewrite <- app_comm_cons, <- app_assoc. reflexivity.
Qed.

Lemma scan_members (depth d' : nat) (ms : list (string * json.value))
  (R : string) :
  Forall (fun m => scansTo (snd m)) ms -> wellFormed (json.JObject ms) ->
  json.scan 0 (json.renderMembers (json.render depth) (json.newline depth) ms
               +:+ json.newline d' +:+ R)
  = tokensMembers tokens ms ++ json.scan 0 (json.newline d' +:+ R).
Proof.
  induction ms as [|m l IH]; intros HP Hwf; [reflexivity|].
  inversion HP as [|? ? Hx Hl]; subst. destruct Hwf as [[Hk Hwx] Hwl].
  rewrite renderMembers_cons, !app_assoc_str.
  change (json.scan 0 ("," +:+ ?Y)) with (json.TComma :: json.scan 0 Y).
  rewrite scan_newline, (scan_string _ _ Hk).
  change (json.scan 0 (": " +:+ ?Y)) with (json.TColon :: json.scan 0 Y).
  rewrite (Hx Hwx) by apply delimited_members.
  rewrite (IH Hl Hwl). cbn [tokensMembers].
  rewrite <- !app_comm_cons, <- app_assoc. reflexivity.
Qed.

(** The scanner reads the text of a value as the tokens of the value. *)
Lemma scan_render (v : json.value) : scansTo v.
Proof.
  induction v as [|b|lit|s|items IH|members IH] using value_induction;
    unfold scansTo; intros Hwf depth X HX.
  - reflexivity.
  - destruct b; reflexivity.
  - destruct Hwf as [n ->]. apply scan_number, HX.
  - apply scan_string, Hwf.
  - destruct items as [|x xs]; [reflexivity|].
    inversion IH as [|? ? Hx Hxs]; subst. pose proof Hwf as [Hwx Hwxs].
    rewrite render_array_cons, !app_assoc_str.
    change (json.scan 0 ("[" +:+ ?Y)) with (json.TLBrack :: json.scan 0 Y).
    rewrite scan_newline, (Hx Hwx) by apply delimited_items.
    rewrite (scan_items _ _ _ _ Hxs Hwxs), scan_newline.
    change (json.scan 0 ("]" +:+ X)) with (json.TRBrack :: json.scan 0 X).
    cbn [tokens]. rewrite <- !app_comm_cons, <- !app_assoc. reflexivity.
  - destruct members as [|m ms]; [reflexivity|].
    inversion IH as [|? ? Hx Hxs]; subst. pose proof Hwf as [[Hk Hwx] Hwxs].
    rewrite render_object_cons, !app_assoc_str.
    change (json.scan 0 ("{" +:+ ?Y)) with (json.TLBrace :: json.scan 0 Y).
    rewrite scan_newline, (scan_string _ _ Hk).
    change (json.scan 0 (": " +:+ ?Y)) with (json.TColon :: json.scan 0 Y).
    rewrite (Hx Hwx) by apply delimited_members.
    rewrite (scan_members _ _ _ _ Hxs Hwxs), scan_newline.
    change (json.scan 0 ("}" +:+ X)) with (json.TRBrace :: json.scan 0 X).
    cbn [tokens]. rewrite <- !app_comm_cons, <- !app_assoc. reflexivity.
Qed.

End ScanFacts.

(** ** encoding/json: the parser reads the value of its tokens *)

Section ParseFacts.

Lemma parse_items (xs : list json.value) :
  Forall parsesTo xs ->
  forall (done : list json.value) (stack : list json.frame)
         (rest : list json.token),
    json.parse (json.FArray done :: stack) json.EndValue
               (tokensItems tokens xs ++ json.TRBrack :: rest)
    = completed (json.JArray (done ++ xs)) stack rest.
Proof.
  induction xs as [|x l IH]; intros HP done stack rest.
  - rewrite app_nil_r. reflexivity.
  - inversion HP as [|? ? Hx Hl]; subst.
    cbn [tokensItems]. rewrite <- app_comm_cons.
    change (json.parse (json.FArray done :: stack) json.EndValue
              (json.TComma :: ?T))
      with (json.parse (json.FArray done :: stack) json.BeginValue T).
    rewrite <- app_assoc, (Hx _ json.BeginValue _ (or_introl eq_refl)).
    unfold completed at 1. cbn [json.push].
    rewrite (IH Hl), <- app_assoc. reflexivity.
Qed.

Lemma parse_members (ms : list (string * json.value)) :
  Forall (fun m => parsesTo (snd m)) ms ->
  forall (done : list (string * json.value)) (stack : list json.frame)
         (rest : list json.token),
    json.parse (json.FObject done :: stack) json.EndValue
               (tokensMembers tokens ms ++ json.TRBrace :: rest)
    = completed (json.JObject (done ++ ms)) stack rest.
Proof.
  induction ms as [|[k x] l IH]; intros HP done stack rest.
  - rewrite app_nil_r. reflexivity.
  - inversion HP as [|? ? Hx Hl]; subst. cbn [snd] in Hx.
    cbn [tokensMembers fst snd]. rewrite <- !app_comm_cons.
    change (json.parse (json.FObject done :: stack) json.EndValue
              (json.TComma :: json.TString k :: json.TColon :: ?T))
      with (json.parse (json.FMember done k :: stack) json.BeginValue T).
    rewrite <- app_assoc, (Hx _ json.BeginValue _ (or_introl eq_refl)).
    unfold completed at 1. cbn [json.push].
    rewrite (IH Hl), <- app_assoc. reflexivity.
Qed.

(** The parser reads the tokens of a value as the value. *)
Lemma parse_tokens (v : json.value) : parsesTo v.
Proof.
  induction v as [|b|lit|s|items IH|members IH] using value_induction;
    unfold parsesTo; intros stack ph rest Hph.
  - destruct Hph as [-> | ->]; reflexivity.
  - destruct Hph as [-> | ->]; destruct b; reflexivity.
  - destruct Hph as [-> | ->]; reflexivity.
  - destruct Hph as [-> | ->]; reflexivity.
  - destruct items as [|x xs].
    + destruct Hph as [-> | ->]; reflexivity.
    + inversion IH as [|? ? Hx Hxs]; subst.
      cbn [tokens]. rewrite <- app_comm_cons.
      assert (json.parse stack ph
                (json.TLBrack :: (tokens x ++ tokensItems tokens xs
                                    ++ [json.TRBrack]) ++ rest)
              = json.parse (json.FArray [] :: stack) json.BeginValueOrEmpty
                  ((tokens x ++ tokensItems tokens xs ++ [json.TRBrack])
                     ++ rest)) as ->
        by (destruct Hph as [-> | ->]; reflexivity).
      rewrite <- app_assoc, (Hx _ _ _ (or_intror eq_refl)).
      unfold completed at 1. cbn [json.push app].
      rewrite <- app_assoc. apply (parse_items xs Hxs [x]).
  - destruct members as [|[k x] ms].
    + destruct Hph as [-> | ->]; reflexivity.
    + inversion IH as [|? ? Hx Hxs]; subst. cbn [snd] in Hx.
      cbn [tokens fst snd]. rewrite <- !app_comm_cons.
      assert (json.parse stack ph
                (json.TLBrace :: json.TString k :: json.TColon
                   :: (tokens x ++ tokensMembers tokens ms
                         ++ [json.TRBrace]) ++ rest)
              = json.parse (json.FMember [] k :: stack) json.BeginValue
                  ((tokens x ++ tokensMembers tokens ms ++ [json.TRBrace])
                     ++ rest)) as ->
        by (destruct Hph as [-> | ->]; reflexivity).
      rewrite <- app_assoc, (Hx _ _ _ (or_introl eq_refl)).
      unfold completed at 1. cbn [json.push app].
      rewrite <- app_assoc. apply (parse_members ms Hxs [(k, x)]).
Qed.

(** The first value of the text that the encoder writes for a value is that
    value. *)
Lemma parseValue_render (v : json.value) :
  wellFormed v ->
  json.parseValue (json.render 0 v +:+ String LF "") = Some v.
Proof.
  intros Hwf. unfold json.parseValue.
  rewrite (scan_render v Hwf 0 (String LF "") eq_refl).
  rewrite (parse_tokens v [] json.BeginValue _ (or_introl eq_refl)).
  reflexivity.
Qed.

End ParseFacts.

(** ** encoding/json: a record is decoded from its encoding *)

Section DecodeFacts.

Lemma decode_drive (d : Drive) :
  json.decodeStruct json.storeDrive (mkDrive "" "") (json.encodeDrive d)
  = Some d.
Proof. destruct d. reflexivity. Qed.

Lemma decode_port (p : Port) :
  validPort p ->
  json.decodeStruct json.storePort (mkPort 0 0) (json.encodePort p) = Some p.
Proof.
  destruct p as [g h]. intros [Hg Hh]. cbn [Guest Host] in Hg, Hh.
  unfold json.encodePort, json.decodeStruct, json.decodeMembers.
  cbn [Guest Host].
  change (json.storePort (mkPort 0 0) "guest"
            (json.JNumber (strconv.FormatUint g)))
    with ((fun n => mkPort n 0) <$> strconv.ParseUint (strconv.FormatUint g)).
  rewrite (ParseUint_FormatUint g Hg). cbn [fmap option_fmap option_map].
  change (json.storePort (mkPort g 0) "host"
            (json.JNumber (strconv.FormatUint h)))
    with ((fun n => mkPort g n) <$> strconv.ParseUint (strconv.FormatUint h)).
  rewrite (ParseUint_FormatUint h Hh). reflexivity.
Qed.

Lemma decode_items {A} (item : json.value -> option A) (enc : A -> json.value)
  (l : list A) :
  Forall (fun a => item (enc a) = Some a) l ->
  json.decodeItems item (map enc l) = Some l.
Proof.
  induction l as [|a l IH]; intros H; [reflexivity|].
  inversion H as [|? ? Ha Hl]; subst.
  simpl. rewrite Ha. fold (json.decodeItems item). rewrite (IH Hl). reflexivity.
Qed.

Lemma decode_slice {A} (item : json.value -> option A) (enc : A -> json.value)
  (s : slice A) :
  Forall (fun a => item (enc a) = Some a) (elems s) ->
  json.decodeSlice item (json.encodeSlice enc s) = Some s.
Proof.
  destruct s as [|l]; intros H; [reflexivity|].
  simpl. rewrite (decode_items item enc l H). reflexivity.
Qed.

Lemma decode_config (c : VMConfig) :
  validConfig c ->
  json.decodeStruct json.storeVMConfig zeroConfig (json.encodeVMConfig c)
  = Some c.
Proof.
  destruct c as [name memory drives ports cores fullscreen].
  intros (_ & _ & Hd & Hp & Hc). cbn [Drives Ports Cores] in Hd, Hp, Hc.
  unfold json.encodeVMConfig, json.decodeStruct, json.decodeMembers, zeroConfig.
  cbn [Name Memory Drives Ports Cores Fullscreen].
  change (json.storeVMConfig ?c "name" (json.JString name))
    with (Some (mkVMConfig name (Memory c) (Drives c) (Ports c) (Cores c)
                           (Fullscreen c))).
  cbn [Name Memory Drives Ports Cores Fullscreen].
  change (json.storeVMConfig ?c "memory" (json.JString memory))
    with (Some (mkVMConfig (Name c) memory (Drives c) (Ports c) (Cores c)
                           (Fullscreen c))).
  cbn [Name Memory Drives Ports Cores Fullscreen].
  change (json.storeVMConfig ?c "drives" ?v)
    with ((fun l => mkVMConfig (Name c) (Memory c) l (Ports c) (Cores c)
                               (Fullscreen c))
            <$> json.decodeSlice
                  (json.decodeStruct json.storeDrive (mkDrive "" "")) v).
  rewrite decode_slice
    by (eapply Forall_impl; [exact Hd|]; intros d _; apply decode_drive).
  cbn [fmap option_fmap option_map Name Memory Drives Ports Cores Fullscreen].
  change (json.storeVMConfig ?c "ports" ?v)
    with ((fun l => mkVMConfig (Name c) (Memory c) (Drives c) l (Cores c)
                               (Fullscreen c))
            <$> json.decodeSlice
                  (json.decodeStruct json.storePort (mkPort 0 0)) v).
  rewrite decode_slice
    by (eapply Forall_impl; [exact Hp|]; intros p Hv; apply decode_port, Hv).
  cbn [fmap option_fmap option_map Name Memory Drives Ports Cores Fullscreen].
  change (json.storeVMConfig ?c "cores" (json.JNumber ?lit))
    with ((fun n => mkVMConfig (Name c) (Memory c) (Drives c) (Ports c) n
                               (Fullscreen c)) <$> strconv.ParseUint lit).
  rewrite (ParseUint_FormatUint cores Hc).
  cbn [fmap option_fmap option_map Name Memory Drives Ports Cores Fullscreen].
  reflexivity.
Qed.

Lemma wellFormed_array (l : list json.value) :
  Forall wellFormed l -> wellFormed (json.JArray l).
Proof.
  induction l as [|x l IH]; intros H; [exact I|].
  inversion H; subst. split; [assumption|]. apply IH. assumption.
Qed.

Lemma wellFormed_slice {A} (enc : A -> json.value) (s : slice A) :
  Forall (fun a => wellFormed (enc a)) (elems s) ->
  wellFormed (json.encodeSlice enc s).
Proof.
  destruct s as [|l]; intros H; [exact I|].
  apply wellFormed_array. apply Forall_map. exact H.
Qed.

Lemma wellFormed_config (c : VMConfig) :
  validConfig c -> wellFormed (json.encodeVMConfig c).
Proof.
  intros (Hn & Hm & Hd & Hp & Hc). unfold json.encodeVMConfig.
  repeat split; try assumption; try (eexists; reflexivity).
  - apply wellFormed_slice. eapply Forall_impl; [exact Hd|].
    intros d [H1 H2]. repeat split; assumption.
  - apply wellFormed_slice. eapply Forall_impl; [exact Hp|].
    intros p _. repeat split; eexists; reflexivity.
Qed.

(** A valid record is read back from the text that the encoder writes for
    it. *)
Lemma Decode_Encode (c : VMConfig) :
  validConfig c ->
  json.Decode (json.Encode (Some c)) (Some zeroConfig) = Some (Some c).
Proof.
  intros H. unfold json.Decode, json.Encode.
  rewrite (parseValue_render _ (wellFormed_config c H)).
  change (json.encodeVMConfig c) with (json.JObject
    [("name", json.JString (Name c)); ("memory", json.JString (Memory c));
     ("drives", json.encodeSlice json.encodeDrive (Drives c));
     ("ports", json.encodeSlice json.encodePort (Ports c));
     ("cores", json.JNumber (strconv.FormatUint (Cores c)));
     ("fullscreen", json.JBool (Fullscreen c))]) at 1.
  cbv iota. fold (json.encodeVMConfig c).
  change (mkVMConfig "" "" nil_slice nil_slice 0 false) with zeroConfig.
  rewrite (decode_config c H). reflexivity.
Qed.

End DecodeFacts.

(** C5: a valid record that [writeConfig] saves under a name is the record
    that [readConfig] loads under that name: when the user is known, neither
    the directory nor the file fails to be created and the write to the file
    does not fail, [writeConfig] returns the path of the file and no error,
    and [readConfig] then returns a record equal to the saved one and no
    error.  The core count is part of the record: a stored 0 is loaded as
    0. *)
Theorem save_then_load (w : World) (home name : string) (config : VMConfig) :
  validConfig config ->
  currentUser w = inr home ->
  mkdirFails w (filepath.Join [home; ConfigDir]) = None ->
  createFails w (filepath.Join [home; ConfigDir; name +:+ ".json"]) = None ->
  writeFails w (filepath.Join [home; ConfigDir; name +:+ ".json"]) = None ->
  exists saved : State,
    writeConfig name (Some config) (start w)
    = (Value (filepath.Join [home; ConfigDir; name +:+ ".json"], None), saved)
    /\ readConfig name saved = (Value (Some config, None), saved)
    /\ (Cores config = 0%N ->
        exists loaded, fst (readConfig name saved) = Value (Some loaded, None)
                       /\ Cores loaded = 0%N).
Proof.
  intros Hv Hu Hm Hc Hf.
  assert (ConfigDir <> "") as Hdir by discriminate.
  pose proof (Join_Join home ConfigDir (name +:+ ".json") Hdir) as EJ.
  pose proof (writeConfig_spec (start w) home name (Some config) Hu) as Hw.
  cbv zeta in Hw. rewrite EJ in Hw. specialize (Hw Hm Hc Hf).
  eexists. split; [exact Hw|].
  match goal with |- readConfig name ?st = _ /\ _ =>
    assert (readConfig name st = (Value (Some config, None), st)) as Hr end.
  { erewrite readConfig_spec; [|exact Hu|cbn [world files withFiles];
                                 apply lookup_insert_eq].
    fold zeroConfig. rewrite (Decode_Encode config Hv). reflexivity. }
  split; [exact Hr|].
  intros H0. exists config. rewrite Hr. split; [reflexivity|exact H0].
Qed.

Lemma save_then_load_witness :
  validConfig vm1 /\ Cores vm1 = 0%N /\
  exists saved : State,
    writeConfig "vm1" (Some vm1) (start homeWorld)
    = (Value ("/home/u/.config/qmgr/configs/vm1.json", None), saved)
    /\ readConfig "vm1" saved = (Value (Some vm1, None), saved).
Proof.
  assert (validConfig vm1) as Hv.
  { repeat split; try reflexivity; repeat constructor. }
  split; [exact Hv|]. split; [reflexivity|].
  destruct (save_then_load homeWorld "/home/u" "vm1" vm1 Hv eq_refl eq_refl
              eq_refl eq_refl) as (saved & Hw & Hr & _).
  exists saved. split; [exact Hw|exact Hr].
Defined.

(** * Further properties of the program *)

(** ** The run command *)

Section RunFacts.

Lemma readConfig_no_user (st : State) (name : string) (e : error) :
  currentUser (world st) = inl e ->
  readConfig name st
  = (Value (None, Some (Errorf "getting current user: " e)), st).
Proof.
  intros H. unfold readConfig.
  rewrite (bind_value _ _ _ _ _ (Current_fails st e H)). reflexivity.
Qed.

Lemma readConfig_missing (st : State) (home name : string) :
  currentUser (world st) = inr home ->
  let path := filepath.Join [home; ConfigDir; name +:+ ".json"] in
  files (world st) !! path = None ->
  readConfig name st
  = (Value (None, Some (Errorf "opening config: " (ErrNotExist "open" path))),
     st).
Proof.
  intros H path Hf. unfold readConfig.
  rewrite (bind_value _ _ _ _ _ (Current_home st home H)).
  unfold bind, os.Open, ask. fold path. rewrite Hf. reflexivity.
Qed.

Lemma main_run (Args : list string) :
  (3 <= length Args)%nat -> arg Args 1 = "run" ->
  main Args =
  let* (config, err) := readConfig (arg Args 2) in
  match err with
  | Some e => let* _ := Fprintln_Stderr (Error e) in os.Exit 1
  | None =>
      let* (_, err) := launchVM config in
      match err with
      | Some e => runtime.panic e
      | None => ret tt
      end
  end.
Proof.
  intros H Hc. rewrite main_dispatch by lia. cbv zeta. rewrite Hc.
  cbn [String.eqb Ascii.eqb Bool.eqb]. unfold mainRun.
  destruct (Nat.ltb_spec (length Args) 3); [lia|reflexivity].
Qed.

Lemma launchVM_spec (config : VMConfig) (st : State) :
  let built := Builder.buildArgs (numCPU (world st)) config in
  launchVM (Some config) st =
  (Value (fst built,
          match runFails (world st) QemuExec (snd built) with
          | Some e => Some (Errorf "executing qemu: " e)
          | None => None
          end),
   mkState (world st) (trace st ++ launched (snd built))).
Proof.
  cbv zeta. unfold launchVM, bind, runtime.NumCPU, ask.
  destruct (Builder.buildArgs (numCPU (world st)) config) as [config' args].
  unfold Println, emit, exec.Run, bind, ask, ret, launched, commandLine.
  cbn. rewrite <- app_assoc.
  destruct (runFails _ _ _); reflexivity.
Qed.

End RunFacts.

(** X1: when the record cannot be loaded, [run] prints the error to the
    error stream and exits with code 1, and starts no process.  This holds
    when the current user is not known, when the file of the name does not
    exist (the message names its path) and when the content of the file is
    not decoded. *)
Theorem run_load_failure (Args : list string) (st : State) :
  (3 <= length Args)%nat -> arg Args 1 = "run" ->
  (forall e, currentUser (world st) = inl e ->
     main Args st =
     (Exit 1, mkState (world st)
                (trace st ++ [Stderr ("getting current user: " +:+ Error e)])))
  /\ (forall home, currentUser (world st) = inr home ->
      let path := filepath.Join [home; ConfigDir; arg Args 2 +:+ ".json"] in
      (files (world st) !! path = None ->
       main Args st =
       (Exit 1, mkState (world st)
                  (trace st ++ [Stderr ("opening config: open " +:+ path
                                        +:+ ": no such file or directory")])))
      /\ (forall content, files (world st) !! path = Some content ->
          json.Decode content (Some zeroConfig) = None ->
          exists msg,
            main Args st =
            (Exit 1, mkState (world st)
                       (trace st ++ [Stderr ("decoding config: " +:+ msg)])))).
Proof.
  intros H Hc. rewrite (main_run Args H Hc). split.
  - intros e He.
    rewrite (bind_value _ _ _ _ _ (readConfig_no_user st _ e He)).
    reflexivity.
  - intros home Hh path. split.
    + intros Hf.
      rewrite (bind_value _ _ _ _ _ (readConfig_missing st home _ Hh Hf)).
      reflexivity.
    + intros content Hf Hd. eexists.
      rewrite (bind_value _ _ _ _ _ (readConfig_spec st home _ content Hh Hf)).
      fold zeroConfig. rewrite Hd. reflexivity.
Qed.

Lemma run_load_failure_witness :
  main ["qmgr"; "run"; "vm1"] (start homeWorld) =
  (Exit 1, mkState homeWorld
             [Stderr ("opening config: open /home/u/.config/qmgr/configs/vm1.json"
                      +:+ ": no such file or directory")])
  /\ main ["qmgr"; "run"; "vm1"] (start noUserWorld) =
     (Exit 1, mkState noUserWorld
                [Stderr "getting current user: user: unknown userid 1000"]).
Proof.
  split.
  - destruct (run_load_failure ["qmgr"; "run"; "vm1"] (start homeWorld))
      as [_ H]; [simpl; lia|reflexivity|].
    destruct (H "/home/u" eq_refl) as [H1 _]. apply H1. reflexivity.
  - destruct (run_load_failure ["qmgr"; "run"; "vm1"] (start noUserWorld))
      as [H _]; [simpl; lia|reflexivity|].
    apply (H _ eq_refl).
Defined.

(** X2: a file whose content decodes to the nil pointer, as the text "null"
    does, is loaded without an error, as a nil record; [run] then panics on
    the nil dereference at the first line of [launchVM], having printed
    nothing and started no process. *)
Theorem run_null_config_panics (Args : list string) (st : State)
  (home content : string) :
  (3 <= length Args)%nat -> arg Args 1 = "run" ->
  currentUser (world st) = inr home ->
  files (world st) !! filepath.Join [home; ConfigDir; arg Args 2 +:+ ".json"]
    = Some content ->
  json.Decode content (Some zeroConfig) = Some None ->
  readConfig (arg Args 2) st = (Value (None, None), st)
  /\ main Args st = (Panic runtime.nilDereference, st).
Proof.
  intros H Hc Hh Hf Hd.
  assert (readConfig (arg Args 2) st = (Value (None, None), st)) as Hr.
  { rewrite (readConfig_spec st home _ content Hh Hf). fold zeroConfig.
    rewrite Hd. reflexivity. }
  split; [exact Hr|].
  rewrite (main_run Args H Hc), (bind_value _ _ _ _ _ Hr). reflexivity.
Qed.

Lemma run_null_config_panics_witness :
  let w := homeWorldWith "/home/u/.config/qmgr/configs/vm1.json" "null" in
  main ["qmgr"; "run"; "vm1"] (start w) = (Panic runtime.nilDereference, start w).
Proof.
  cbv zeta.
  apply (run_null_config_panics ["qmgr"; "run"; "vm1"] _ "/home/u" "null");
    [simpl; lia|reflexivity|reflexivity|reflexivity|vm_compute; reflexivity].
Defined.

(** X3: when the file of the name holds the text that the encoder writes for
    a valid record, [run] prints the command line and runs the hypervisor
    with the arguments that the builder derives from that record and from the
    processor count of the host.  It returns when the hypervisor succeeds and
    panics with the wrapped error when it fails. *)
Theorem run_launches_saved_config (Args : list string) (st : State)
  (home : string) (config : VMConfig) :
  (3 <= length Args)%nat -> arg Args 1 = "run" ->
  currentUser (world st) = inr home ->
  validConfig config ->
  files (world st) !! filepath.Join [home; ConfigDir; arg Args 2 +:+ ".json"]
    = Some (json.Encode (Some config)) ->
  let args := snd (Builder.buildArgs (numCPU (world st)) config) in
  main Args st =
  (match runFails (world st) QemuExec args with
   | Some e => Panic (Errorf "executing qemu: " e)
   | None => Value tt
   end,
   mkState (world st)
     (trace st ++ [Stdout ("cmd.Args: [" +:+ strings.Join (QemuExec :: args) " "
                           +:+ "]");
                   Exec QemuExec args])).
Proof.
  intros H Hc Hh Hv Hf. cbv zeta.
  rewrite (main_run Args H Hc).
  rewrite (bind_value _ _ _ _ _ (readConfig_spec st home _ _ Hh Hf)).
  fold zeroConfig. rewrite (Decode_Encode config Hv).
  cbv beta iota.
  rewrite (bind_value _ _ _ _ _ (launchVM_spec config st)).
  cbv beta iota zeta. cbn [snd fst world].
  destruct (runFails _ _ _); reflexivity.
Qed.

Lemma run_launches_saved_config_witness :
  let w := homeWorldWith "/home/u/.config/qmgr/configs/vm2.json"
             (json.Encode (Some vm2)) in
  main ["qmgr"; "run"; "vm2"] (start w) =
  (Value tt,
   mkState w
     [Stdout ("cmd.Args: [qemu-system-x86_64 -m 4G -machine q35 "
              +:+ "-device qemu-xhci,id=xhci -device usb-kbd "
              +:+ "-device usb-tablet -device virtio-net,netdev=net0 "
              +:+ "-drive if=none,id=usb0,format=raw,file=/images/usb.img "
              +:+ "-device usb-storage,bus=xhci.0,drive=usb0 "
              +:+ "-enable-kvm -cpu host -smp 4 -display gtk,full-screen=on]");
      Exec "qemu-system-x86_64"
        ["-m"; "4G"; "-machine"; "q35"; "-device"; "qemu-xhci,id=xhci";
         "-device"; "usb-kbd"; "-device"; "usb-tablet";
         "-device"; "virtio-net,netdev=net0";
         "-drive"; "if=none,id=usb0,format=raw,file=/images/usb.img";
         "-device"; "usb-storage,bus=xhci.0,drive=usb0";
         "-enable-kvm"; "-cpu"; "host"; "-smp"; "4";
         "-display"; "gtk,full-screen=on"]]).
Proof.
  cbv zeta.
  assert (validConfig vm2) as Hv
    by (repeat split; try reflexivity; repeat constructor).
  pose proof (run_launches_saved_config ["qmgr"; "run"; "vm2"]
                (start (homeWorldWith "/home/u/.config/qmgr/configs/vm2.json"
                          (json.Encode (Some vm2))))
                "/home/u" vm2 ltac:(simpl; lia) eq_refl eq_refl Hv eq_refl) as P.
  exact P.
Defined.

(** ** The editor, and the edit and create commands *)

Section EditorFacts.

Lemma editor_none (st : State) (file : string) :
  editorProgram (world st) = "" ->
  editor file st
  = (Value (Some (Errorf "opening editor: " (ErrOther "exec: no command"))), st).
Proof.
  unfold editor, os.Getenv, editorProgram.
  unfold bind at 1 2. unfold ask at 1.
  destruct (String.eqb (environ (world st) "VISUAL") "") eqn:E; intros H.
  - unfold ask, bind, exec.Run. rewrite H. reflexivity.
  - apply String.eqb_neq in E. contradiction.
Qed.

Lemma editorProgram_visual (w : World) :
  environ w "VISUAL" <> "" -> editorProgram w = environ w "VISUAL".
Proof.
  intros H. unfold editorProgram. apply String.eqb_neq in H. now rewrite H.
Qed.

Lemma editorProgram_editor (w : World) :
  environ w "VISUAL" = "" -> editorProgram w = environ w "EDITOR".
Proof. intros H. unfold editorProgram. now rewrite H. Qed.

End EditorFacts.

(** X4: [editor] runs the program that VISUAL names when VISUAL is set,
    whatever EDITOR holds, and the program that EDITOR names otherwise, with
    the file as its only argument, and wraps the failure of that program.
    When neither variable is set it runs nothing and returns the error of a
    command without a name. *)
Theorem editor_selection (st : State) (file : string) :
  let ran (program : string) :=
    (Value (match runFails (world st) program [file] with
            | Some e => Some (Errorf "opening editor: " e)
            | None => None
            end),
     mkState (world st) (trace st ++ [Exec program [file]])) in
  (environ (world st) "VISUAL" <> "" ->
   editor file st = ran (environ (world st) "VISUAL"))
  /\ (environ (world st) "VISUAL" = "" -> environ (world st) "EDITOR" <> "" ->
      editor file st = ran (environ (world st) "EDITOR"))
  /\ (environ (world st) "VISUAL" = "" -> environ (world st) "EDITOR" = "" ->
      editor file st =
      (Value (Some (Errorf "opening editor: " (ErrOther "exec: no command"))),
       st)).
Proof.
  cbv zeta. split; [|split].
  - intros H. rewrite <- (editorProgram_visual _ H). apply editor_spec.
    rewrite (editorProgram_visual _ H). exact H.
  - intros H He. rewrite <- (editorProgram_editor _ H). apply editor_spec.
    rewrite (editorProgram_editor _ H). exact He.
  - intros H He. apply editor_none. rewrite (editorProgram_editor _ H).
    exact He.
Qed.

Lemma editor_selection_witness :
  editor "vm1.json" (start homeWorld)
  = (Value None, mkState homeWorld [Exec "vi" ["vm1.json"]])
  /\ editor "vm1.json" (start noEditorWorld)
     = (Value (Some (Errorf "opening editor: " (ErrOther "exec: no command"))),
        start noEditorWorld).
Proof.
  destruct (editor_selection (start homeWorld) "vm1.json") as (_ & H1 & _).
  destruct (editor_selection (start noEditorWorld) "vm1.json") as (_ & _ & H2).
  split; [apply H1; [reflexivity|discriminate]|apply H2; reflexivity].
Defined.

Section EditFacts.

Lemma main_edit (Args : list string) :
  (3 <= length Args)%nat -> arg Args 1 = "edit" ->
  main Args =
  let* err :=
    editor (filepath.Join ["~"; ConfigDir; arg Args 2 +:+ ".json"]) in
  match err with
  | Some e => Fprintln_Stderr ("editing config: " +:+ Error e)
  | None => ret tt
  end.
Proof.
  intros H Hc. rewrite main_dispatch by lia. cbv zeta. rewrite Hc.
  cbn [String.eqb Ascii.eqb Bool.eqb]. unfold mainEdit.
  destruct (Nat.ltb_spec (length Args) 3); [lia|reflexivity].
Qed.

End EditFacts.

(** X5: [edit] with a name returns normally, so that the exit status is 0,
    whether the editor succeeds, fails or is not set: a failure is only
    printed to the error stream.  It looks at no file and leaves the world
    as it is. *)
Theorem edit_always_returns (Args : list string) (st : State) :
  (3 <= length Args)%nat -> arg Args 1 = "edit" ->
  let path := filepath.Join ["~"; ConfigDir; arg Args 2 +:+ ".json"] in
  let program := editorProgram (world st) in
  (program <> "" ->
   main Args st =
   (Value tt,
    mkState (world st)
      (trace st ++ [Exec program [path]]
         ++ reported "editing config: opening editor: "
              (runFails (world st) program [path]))))
  /\ (program = "" ->
      main Args st =
      (Value tt,
       mkState (world st)
         (trace st
            ++ [Stderr "editing config: opening editor: exec: no command"]))).
Proof.
  intros H Hc. cbv zeta. rewrite (main_edit Args H Hc). split; intros He.
  - rewrite (bind_value _ _ _ _ _ (editor_spec st _ He)).
    destruct (runFails _ _ _) as [e|]; unfold reported.
    + unfold Fprintln_Stderr, emit. cbn [world trace Error].
      rewrite <- app_assoc. reflexivity.
    + unfold ret. rewrite app_nil_r. reflexivity.
  - rewrite (bind_value _ _ _ _ _ (editor_none st _ He)). reflexivity.
Qed.

Lemma edit_always_returns_witness :
  main ["qmgr"; "edit"; "vm9"] (start homeWorld)
  = (Value tt,
     mkState homeWorld [Exec "vi" ["~/.config/qmgr/configs/vm9.json"]])
  /\ main ["qmgr"; "edit"; "vm9"] (start noEditorWorld)
     = (Value tt,
        mkState noEditorWorld
          [Stderr "editing config: opening editor: exec: no command"]).
Proof.
  destruct (edit_always_returns ["qmgr"; "edit"; "vm9"] (start homeWorld))
    as [H1 _]; [simpl; lia|reflexivity|].
  destruct (edit_always_returns ["qmgr"; "edit"; "vm9"] (start noEditorWorld))
    as [_ H2]; [simpl; lia|reflexivity|].
  split; [apply H1; discriminate|apply H2; reflexivity].
Defined.

Section CreateMoreFacts.

(** The record that [create] builds is one that is read back. *)
Lemma template_valid (name disk : string) :
  utf8.ValidString name = true -> utf8.ValidString disk = true ->
  validConfig (template name disk).
Proof.
  intros Hn Hd. unfold validConfig, template. cbn [Name Memory Drives Ports Cores elems].
  split; [exact Hn|]. split; [reflexivity|]. split; [|split].
  - repeat constructor; assumption.
  - repeat constructor.
  - reflexivity.
Qed.

Lemma main_create (Args : list string) :
  (3 <= length Args)%nat -> arg Args 1 = "create" ->
  main Args =
  let* (diskPath, err) := newDisk (arg Args 2) (diskSize Args) in
  let* _ :=
    match err with
    | Some e => Fprintln_Stderr (Error e)
    | None => ret tt
    end in
  let* (configPath, err) :=
    writeConfig (arg Args 2) (Some (template (arg Args 2) diskPath)) in
  match err with
  | Some e => let* _ := Fprintln_Stderr (Error e) in os.Exit 1
  | None =>
      let* _ := Println configPath in
      let* err := editor configPath in
      match err with
      | Some e =>
          let* _ := Fprintln_Stderr ("editing config: " +:+ Error e) in
          os.Exit 1
      | None => ret tt
      end
  end.
Proof.
  intros H Hc. rewrite main_dispatch by lia. cbv zeta. rewrite Hc.
  cbn [String.eqb Ascii.eqb Bool.eqb]. unfold mainCreate.
  destruct (Nat.ltb_spec (length Args) 3); [lia|reflexivity].
Qed.

(** The disk step of [create]: the tool is run, and its failure printed. *)
Lemma create_disk_step (st : State) (home name size : string) :
  currentUser (world st) = inr home ->
  let diskPath := filepath.Join [home; DiskDir; name +:+ ".qcow2"] in
  let diskArgs := ["create"; "-f"; "qcow2"; diskPath; size] in
  let failure := runFails (world st) QemuImg diskArgs in
  forall (B : Type) (k : string -> Prog B),
    (let* (diskPath, err) := newDisk name size in
     let* _ :=
       match err with
       | Some e => Fprintln_Stderr (Error e)
       | None => ret tt
       end in
     k diskPath) st
    = k (if isNil failure then diskPath else "")
        (mkState (world st)
           (trace st ++ [Exec QemuImg diskArgs]
              ++ reported "creating disk image: " failure)).
Proof.
  intros H. cbv zeta. intros B k.
  rewrite (bind_value _ _ _ _ _ (newDisk_spec st home name size H)).
  destruct (runFails _ _ _) as [e|]; cbv beta iota; unfold reported, isNil.
  - rewrite (bind_value _ _ _ _ _ (Fprintln_spec _ _)). cbn [world trace Error].
    rewrite <- app_assoc. reflexivity.
  - rewrite (bind_value _ _ _ _ _ (ret_spec _ _)). rewrite app_nil_r.
    reflexivity.
Qed.

Lemma writeConfig_mkdir_fails (st : State) (home name : string)
  (config : option VMConfig) (e : error) :
  currentUser (world st) = inr home ->
  mkdirFails (world st) (filepath.Join [home; ConfigDir]) = Some e ->
  writeConfig name config st
  = (Value ("", Some (Errorf "creating config directory: " e)), st).
Proof.
  intros H Hm. unfold writeConfig.
  rewrite (bind_value _ _ _ _ _ (Current_home st home H)).
  unfold bind, os.MkdirAll, ask. rewrite Hm. reflexivity.
Qed.

Lemma writeConfig_create_fails (st : State) (home name : string)
  (config : option VMConfig) (e : error) :
  currentUser (world st) = inr home ->
  mkdirFails (world st) (filepath.Join [home; ConfigDir]) = None ->
  createFails (world st) (filepath.Join [home; ConfigDir; name +:+ ".json"])
    = Some e ->
  writeConfig name config st
  = (Value ("", Some (Errorf "creating config: " e)), st).
Proof.
  intros H Hm Hc. unfold writeConfig.
  rewrite (bind_value _ _ _ _ _ (Current_home st home H)).
  rewrite Join_Join by discriminate.
  unfold bind, os.MkdirAll, os.Create, ask, ret, bind. rewrite Hm, Hc.
  reflexivity.
Qed.

(** The fourth error return of [writeConfig]: the write fails after the
    first [n] bytes of the text. *)
Lemma writeConfig_write_fails (st : State) (home name : string)
  (config : option VMConfig) (n : nat) (e : error) :
  currentUser (world st) = inr home ->
  let filePath := filepath.Join [home; ConfigDir; name +:+ ".json"] in
  let written := take_bytes n (json.Encode config) in
  mkdirFails (world st) (filepath.Join [home; ConfigDir]) = None ->
  createFails (world st) filePath = None ->
  writeFails (world st) filePath = Some (n, e) ->
  writeConfig name config st =
  (Value ("", Some (Errorf "encofing config: " e)),
   mkState (withFiles (world st) (<[filePath := written]> (files (world st))))
           (trace st ++ [Written filePath written])).
Proof.
  intros H. cbv zeta. intros Hm Hc Hw. unfold writeConfig.
  rewrite (bind_value _ _ _ _ _ (Current_home st home H)).
  rewrite Join_Join by discriminate.
  unfold bind, os.MkdirAll, os.Create, os.Write, ask, setFiles, emit, ret, bind.
  rewrite Hm, Hc. cbn [world trace files withFiles writeFails]. rewrite Hw.
  cbn [world trace files withFiles fmap option_fmap option_map snd].
  rewrite lookup_insert_eq, insert_insert_eq. reflexivity.
Qed.

Lemma writeConfig_no_user (st : State) (name : string)
  (config : option VMConfig) (e : error) :
  currentUser (world st) = inl e ->
  writeConfig name config st
  = (Value ("", Some (Errorf "getting current user: " e)), st).
Proof.
  intros H. unfold writeConfig.
  rewrite (bind_value _ _ _ _ _ (Current_fails st e H)). reflexivity.
Qed.

Lemma newDisk_no_user (st : State) (name size : string) (e : error) :
  currentUser (world st) = inl e ->
  newDisk name size st
  = (Value ("", Some (Errorf "getting current user: " e)), st).
Proof.
  intros H. unfold newDisk.
  rewrite (bind_value _ _ _ _ _ (Current_fails st e H)). reflexivity.
Qed.

(** What [create] does when every step before the editor succeeds or, for
    the disk, is only reported. *)
Lemma main_create_spec (Args : list string) (st : State) (home : string) :
  (3 <= length Args)%nat -> arg Args 1 = "create" ->
  currentUser (world st) = inr home ->
  editorProgram (world st) <> "" ->
  let name := arg Args 2 in
  let diskPath := filepath.Join [home; DiskDir; name +:+ ".qcow2"] in
  let diskArgs := ["create"; "-f"; "qcow2"; diskPath; diskSize Args] in
  let configPath := filepath.Join [home; ConfigDir; name +:+ ".json"] in
  mkdirFails (world st) (filepath.Join [home; ConfigDir]) = None ->
  createFails (world st) configPath = None ->
  writeFails (world st) configPath = None ->
  let failure := runFails (world st) QemuImg diskArgs in
  let content :=
    json.Encode (Some (template name (if isNil failure then diskPath else ""))) in
  let edited := runFails (world st) (editorProgram (world st)) [configPath] in
  main Args st =
  (if isNil edited then Value tt else Exit 1,
   mkState (withFiles (world st) (<[configPath := content]> (files (world st))))
     (trace st ++ [Exec QemuImg diskArgs]
        ++ reported "creating disk image: " failure
        ++ [Written configPath content; Stdout configPath;
            Exec (editorProgram (world st)) [configPath]]
        ++ reported "editing config: opening editor: " edited)).
Proof.
  intros H Hc Hh He. cbv zeta. intros Hm Hf Hwr.
  rewrite (main_create Args H Hc). cbv zeta.
  rewrite (create_disk_step st home _ _ Hh).
  set (st1 := mkState _ _).
  set (disk := if isNil _ then _ else _).
  pose proof (writeConfig_spec st1 home (arg Args 2)
                (Some (template (arg Args 2) disk)) Hh) as Hw.
  cbv zeta in Hw. rewrite Join_Join in Hw by discriminate.
  specialize (Hw Hm Hf Hwr).
  rewrite (bind_value _ _ _ _ _ Hw). cbv beta iota.
  rewrite (bind_value _ _ _ _ _ (Println_spec _ _)). cbn [world trace].
  set (st2 := mkState _ _).
  assert (editorProgram (world st2) <> "") as He2 by exact He.
  rewrite (bind_value _ _ _ _ _ (editor_spec st2 _ He2)).
  subst st2 st1. cbn [world trace withFiles runFails].
  change (editorProgram (withFiles (world st) _))
    with (editorProgram (world st)).
  destruct (runFails (world st) (editorProgram (world st)) _) as [e|];
    unfold reported at 2; cbn [isNil].
  - unfold bind, Fprintln_Stderr, emit, os.Exit. cbn [world trace Error].
    rewrite <- !app_assoc. reflexivity.
  - unfold ret. rewrite <- !app_assoc. reflexivity.
Qed.

(** What [create] does when the write to the file of the record fails. *)
Lemma main_create_write_fails (Args : list string) (st : State)
  (home : string) (n : nat) (e : error) :
  (3 <= length Args)%nat -> arg Args 1 = "create" ->
  currentUser (world st) = inr home ->
  let name := arg Args 2 in
  let diskPath := filepath.Join [home; DiskDir; name +:+ ".qcow2"] in
  let diskArgs := ["create"; "-f"; "qcow2"; diskPath; diskSize Args] in
  let configPath := filepath.Join [home; ConfigDir; name +:+ ".json"] in
  mkdirFails (world st) (filepath.Join [home; ConfigDir]) = None ->
  createFails (world st) configPath = None ->
  writeFails (world st) configPath = Some (n, e) ->
  let failure := runFails (world st) QemuImg diskArgs in
  let written :=
    take_bytes n
      (json.Encode
         (Some (template name (if isNil failure then diskPath else "")))) in
  main Args st =
  (Exit 1,
   mkState (withFiles (world st) (<[configPath := written]> (files (world st))))
     (trace st ++ [Exec QemuImg diskArgs]
        ++ reported "creating disk image: " failure
        ++ [Written configPath written;
            Stderr ("encofing config: " +:+ Error e)])).
Proof.
  intros H Hc Hh. cbv zeta. intros Hm Hf Hwr.
  rewrite (main_create Args H Hc). cbv zeta.
  rewrite (create_disk_step st home _ _ Hh).
  set (st1 := mkState _ _).
  set (disk := if isNil _ then _ else _).
  rewrite (bind_value _ _ _ _ _
             (writeConfig_write_fails st1 home (arg Args 2)
                (Some (template (arg Args 2) disk)) n e Hh Hm Hf Hwr)).
  cbv beta iota. unfold bind, Fprintln_Stderr, emit, os.Exit.
  subst st1. cbn [world trace Error]. rewrite <- !app_assoc. reflexivity.
Qed.

End CreateMoreFacts.

(** C7: [create vm1 32G] runs the disk-image tool with the arguments
    "create", "-f", "qcow2", the disk path and "32G"; then, when the
    directory and the file are created and the write does not fail, it
    writes, at the path of vm1.json in the configuration directory, the
    text of the record whose drives are an empty "img", the disk as "qcow2"
    and an empty "iso", and whose one port forwards 2222 to 22: a text that
    is read back as that record; then it prints that path and runs the
    editor on it.  When the disk-image tool fails the error is printed and
    the same steps follow, for a record whose disk path is empty. *)
Theorem create_vm1 (w : World) (home : string) :
  currentUser w = inr home ->
  editorProgram w <> "" ->
  let diskPath := filepath.Join [home; DiskDir; "vm1.qcow2"] in
  let configDir := filepath.Join [home; ConfigDir] in
  let configPath := filepath.Join [configDir; "vm1.json"] in
  let diskArgs := ["create"; "-f"; "qcow2"; diskPath; "32G"] in
  mkdirFails w configDir = None ->
  createFails w configPath = None ->
  writeFails w configPath = None ->
  let final := snd (main ["qmgr"; "create"; "vm1"; "32G"] (start w)) in
  let content (disk : string) := json.Encode (Some (template "vm1" disk)) in
  let edited :=
    match runFails w (editorProgram w) [configPath] with
    | None => []
    | Some e => [Stderr ("editing config: opening editor: " +:+ Error e)]
    end in
  Drives (template "vm1" diskPath) =
    make_slice [ {| Path := ""; Type_ := "img" |};
                 {| Path := diskPath; Type_ := "qcow2" |};
                 {| Path := ""; Type_ := "iso" |} ]
  /\ Ports (template "vm1" diskPath) =
     make_slice [ {| Guest := 22; Host := 2222 |} ]
  /\ (utf8.ValidString diskPath = true ->
      json.Decode (content diskPath) (Some zeroConfig)
      = Some (Some (template "vm1" diskPath)))
  /\ json.Decode (content "") (Some zeroConfig) = Some (Some (template "vm1" ""))
  /\ match runFails w QemuImg diskArgs with
     | None =>
         trace final =
           [Exec QemuImg diskArgs; Written configPath (content diskPath);
            Stdout configPath; Exec (editorProgram w) [configPath]] ++ edited
         /\ files (world final) !! configPath = Some (content diskPath)
     | Some e =>
         trace final =
           [Exec QemuImg diskArgs;
            Stderr ("creating disk image: " +:+ Error e);
            Written configPath (content ""); Stdout configPath;
            Exec (editorProgram w) [configPath]] ++ edited
         /\ files (world final) !! configPath = Some (content "")
     end.
Proof.
  intros H He. cbv zeta. intros Hm Hc Hw.
  split; [reflexivity|]. split; [reflexivity|].
  split; [intros Hd; apply Decode_Encode, template_valid;
          [reflexivity|exact Hd]|].
  split; [apply Decode_Encode, template_valid; reflexivity|].
  change (main ["qmgr"; "create"; "vm1"; "32G"])
    with (mainCreate ["qmgr"; "create"; "vm1"; "32G"]).
  unfold mainCreate. cbn [length Nat.ltb Nat.leb arg nth].
  rewrite (bind_value _ _ _ _ _ (newDisk_spec (start w) home "vm1" "32G" H)).
  cbn [world trace start app].
  destruct (runFails w QemuImg _) as [e|].
  - rewrite (bind_value _ _ _ _ _ (Fprintln_spec _ _)). cbn [world trace app].
    match goal with |- context [snd (_ ?st)] =>
      destruct (create_after_disk st home "vm1" "" H He Hm Hc Hw) as [o E] end.
    cbv zeta in E. change ("vm1" +:+ ".json") with "vm1.json" in E.
    change (template "vm1" "") with
      {| Name := "vm1"; Memory := "2G";
         Drives := make_slice [ {| Path := ""; Type_ := "img" |};
                                {| Path := ""; Type_ := "qcow2" |};
                                {| Path := ""; Type_ := "iso" |} ];
         Ports := make_slice [ {| Guest := 22; Host := 2222 |} ];
         Cores := 0; Fullscreen := false |} in E.
    rewrite E. cbn [snd trace world app].
    split; [reflexivity|]. cbn [files withFiles]. apply lookup_insert_eq.
  - rewrite (bind_value _ _ _ _ _ (ret_spec _ _)).
    change ("vm1" +:+ ".qcow2") with "vm1.qcow2".
    match goal with |- context [snd (_ ?st)] =>
      destruct (create_after_disk st home "vm1"
                  (filepath.Join [home; DiskDir; "vm1.qcow2"]) H He Hm Hc Hw)
        as [o E] end.
    cbv zeta in E. change ("vm1" +:+ ".json") with "vm1.json" in E.
    unfold template in E.
    rewrite E. cbn [snd trace world app].
    split; [reflexivity|]. cbn [files withFiles]. apply lookup_insert_eq.
Qed.

Lemma create_vm1_witness :
  currentUser homeWorld = inr "/home/u" /\
  trace (snd (main ["qmgr"; "create"; "vm1"; "32G"] (start homeWorld))) =
    [Exec "qemu-img"
       ["create"; "-f"; "qcow2"; "/home/u/.config/qmgr/disks/vm1.qcow2"; "32G"];
     Written "/home/u/.config/qmgr/configs/vm1.json"
       (templateText "vm1" "/home/u/.config/qmgr/disks/vm1.qcow2");
     Stdout "/home/u/.config/qmgr/configs/vm1.json";
     Exec "vi" ["/home/u/.config/qmgr/configs/vm1.json"]]
  /\ json.Decode (templateText "vm1" "/home/u/.config/qmgr/disks/vm1.qcow2")
       (Some zeroConfig)
     = Some (Some vm1).
Proof.
  split; [reflexivity|].
  pose proof (create_vm1 homeWorld "/home/u" eq_refl) as H.
  cbv zeta in H. specialize (H ltac:(discriminate) eq_refl eq_refl eq_refl).
  destruct H as (_ & _ & D & _ & H). hnf in H. destruct H as [H _].
  split; [exact H|exact (D eq_refl)].
Defined.

(** X6: for every name, [create] runs the disk-image tool with the size
    given as the fourth argument, and with "64G" when there is none; it
    reports a failure of the tool and goes on; it writes the text of the
    template record, whose disk path is empty after such a failure, to the
    file of the name, which is the only file that the program itself
    writes (the disk image is the work of the tool, which is not modelled).
    When the write succeeds, the path is printed and the editor is run on
    it: the exit status is 1 when the editor fails and 0 otherwise, and the
    file holds a text that is read back as the template record when the
    name and the disk path are valid UTF-8.  When the write fails, the error
    is printed, the exit status is 1, the editor is not run, and the file
    holds the bytes that were written before the failure. *)
Theorem create_steps (Args : list string) (w : World) (home : string) :
  (3 <= length Args)%nat -> arg Args 1 = "create" ->
  currentUser w = inr home ->
  editorProgram w <> "" ->
  let name := arg Args 2 in
  let size := if (3 <? length Args)%nat then arg Args 3 else "64G" in
  let diskPath := filepath.Join [home; DiskDir; name +:+ ".qcow2"] in
  let diskArgs := ["create"; "-f"; "qcow2"; diskPath; size] in
  let configPath := filepath.Join [home; ConfigDir; name +:+ ".json"] in
  mkdirFails w (filepath.Join [home; ConfigDir]) = None ->
  createFails w configPath = None ->
  let failure := runFails w QemuImg diskArgs in
  let disk := if isNil failure then diskPath else "" in
  let content := json.Encode (Some (template name disk)) in
  let edited := runFails w (editorProgram w) [configPath] in
  let result := main Args (start w) in
  (writeFails w configPath = None ->
   exitStatus (fst result) = (if isNil edited then 0 else 1)%Z
   /\ files (world (snd result)) = <[configPath := content]> (files w)
   /\ trace (snd result) =
      [Exec QemuImg diskArgs] ++ reported "creating disk image: " failure
        ++ [Written configPath content; Stdout configPath;
            Exec (editorProgram w) [configPath]]
        ++ reported "editing config: opening editor: " edited)
  /\ (utf8.ValidString name = true -> utf8.ValidString diskPath = true ->
      json.Decode content (Some zeroConfig) = Some (Some (template name disk)))
  /\ (forall n e, writeFails w configPath = Some (n, e) ->
      fst result = Exit 1
      /\ files (world (snd result))
         = <[configPath := take_bytes n content]> (files w)
      /\ trace (snd result) =
         [Exec QemuImg diskArgs] ++ reported "creating disk image: " failure
           ++ [Written configPath (take_bytes n content);
               Stderr ("encofing config: " +:+ Error e)]).
Proof.
  intros H Hc Hh He. cbv zeta. intros Hm Hf. split; [|split].
  - intros Hw.
    rewrite (main_create_spec Args (start w) home H Hc Hh He Hm Hf Hw).
    cbn [fst snd world trace start files withFiles app].
    split; [|split; reflexivity].
    destruct (runFails w (editorProgram w) _); reflexivity.
  - intros Hn Hd. apply Decode_Encode, template_valid; [exact Hn|].
    destruct (isNil _); [exact Hd|reflexivity].
  - intros n e Hw.
    rewrite (main_create_write_fails Args (start w) home n e H Hc Hh Hm Hf Hw).
    cbn [fst snd world trace start files withFiles app].
    split; [|split]; reflexivity.
Qed.

Lemma create_steps_witness :
  let result := main ["qmgr"; "create"; "vm7"] (start homeWorld) in
  exitStatus (fst result) = 0%Z
  /\ trace (snd result) =
     [Exec "qemu-img"
        ["create"; "-f"; "qcow2"; "/home/u/.config/qmgr/disks/vm7.qcow2"; "64G"];
      Written "/home/u/.config/qmgr/configs/vm7.json"
        (templateText "vm7" "/home/u/.config/qmgr/disks/vm7.qcow2");
      Stdout "/home/u/.config/qmgr/configs/vm7.json";
      Exec "vi" ["/home/u/.config/qmgr/configs/vm7.json"]]
  /\ json.Decode (templateText "vm7" "/home/u/.config/qmgr/disks/vm7.qcow2")
       (Some zeroConfig)
     = Some (Some (template "vm7" "/home/u/.config/qmgr/disks/vm7.qcow2"))
  /\ main ["qmgr"; "create"; "vm7"] (start fullDiskWorld)
     = (Exit 1,
        mkState
          (withFiles fullDiskWorld
             (<["/home/u/.config/qmgr/configs/vm7.json"
                := String "{" (String LF "")]> (files fullDiskWorld)))
          [Exec "qemu-img"
             ["create"; "-f"; "qcow2"; "/home/u/.config/qmgr/disks/vm7.qcow2";
              "64G"];
           Written "/home/u/.config/qmgr/configs/vm7.json"
             (String "{" (String LF ""));
           Stderr "encofing config: no space left on device"]).
Proof.
  cbv zeta.
  pose proof (create_steps ["qmgr"; "create"; "vm7"] homeWorld "/home/u"
                ltac:(simpl; lia) eq_refl eq_refl ltac:(discriminate)
                eq_refl eq_refl) as P.
  cbv zeta in P. destruct P as (P1 & P2 & _).
  destruct (P1 eq_refl) as (Q1 & _ & Q3).
  split; [exact Q1|]. split; [exact Q3|].
  split; [exact (P2 eq_refl eq_refl)|].
  reflexivity.
Defined.

(** X7: when the configuration directory or the file of the name cannot be
    created, [create] prints the wrapped error and exits with code 1: no file
    is written and the editor is not run.  The disk-image tool has run
    before, and what it did is not undone. *)
Theorem create_store_failure (Args : list string) (w : World) (home : string)
  (e : error) :
  (3 <= length Args)%nat -> arg Args 1 = "create" ->
  currentUser w = inr home ->
  let name := arg Args 2 in
  let diskPath := filepath.Join [home; DiskDir; name +:+ ".qcow2"] in
  let diskArgs := ["create"; "-f"; "qcow2"; diskPath; diskSize Args] in
  let configPath := filepath.Join [home; ConfigDir; name +:+ ".json"] in
  let before :=
    [Exec QemuImg diskArgs]
      ++ reported "creating disk image: " (runFails w QemuImg diskArgs) in
  (mkdirFails w (filepath.Join [home; ConfigDir]) = Some e ->
   main Args (start w) =
   (Exit 1,
    mkState w (before ++ [Stderr ("creating config directory: " +:+ Error e)])))
  /\ (mkdirFails w (filepath.Join [home; ConfigDir]) = None ->
      createFails w configPath = Some e ->
      main Args (start w) =
      (Exit 1,
       mkState w (before ++ [Stderr ("creating config: " +:+ Error e)]))).
Proof.
  intros H Hc Hh. cbv zeta. rewrite (main_create Args H Hc). cbv zeta.
  rewrite (create_disk_step (start w) home _ _ Hh).
  cbn [world trace start app]. split.
  - intros Hm.
    match goal with |- bind (writeConfig ?n ?c) _ ?s = _ =>
      rewrite (bind_value _ _ _ _ _
                 (writeConfig_mkdir_fails s home n c e Hh Hm)) end.
    unfold bind, Fprintln_Stderr, emit, os.Exit. cbn [world trace Error].
    reflexivity.
  - intros Hm Hf.
    match goal with |- bind (writeConfig ?n ?c) _ ?s = _ =>
      rewrite (bind_value _ _ _ _ _
                 (writeConfig_create_fails s home n c e Hh Hm Hf)) end.
    unfold bind, Fprintln_Stderr, emit, os.Exit. cbn [world trace Error].
    reflexivity.
Qed.

Lemma create_store_failure_witness :
  main ["qmgr"; "create"; "vm7"; "8G"] (start readOnlyWorld) =
  (Exit 1,
   mkState readOnlyWorld
     [Exec "qemu-img"
        ["create"; "-f"; "qcow2"; "/home/u/.config/qmgr/disks/vm7.qcow2"; "8G"];
      Stderr ("creating config directory: "
              +:+ "mkdir /home/u/.config: read-only file system")]).
Proof.
  destruct (create_store_failure ["qmgr"; "create"; "vm7"; "8G"] readOnlyWorld
              "/home/u"
              (ErrOther "mkdir /home/u/.config: read-only file system")
              ltac:(simpl; lia) eq_refl eq_refl) as [P _].
  apply P. reflexivity.
Defined.

(** X8: when the current user is not known, [create] starts no process
    and writes no file: [newDisk] and [writeConfig] both fail on the lookup,
    so the same error is printed twice, and the exit code is 1. *)
Theorem create_without_user (Args : list string) (w : World) (e : error) :
  (3 <= length Args)%nat -> arg Args 1 = "create" ->
  currentUser w = inl e ->
  main Args (start w) =
  (Exit 1,
   mkState w [Stderr ("getting current user: " +:+ Error e);
              Stderr ("getting current user: " +:+ Error e)]).
Proof.
  intros H Hc He. rewrite (main_create Args H Hc). cbv zeta.
  rewrite (bind_value _ _ _ _ _ (newDisk_no_user (start w) _ _ e He)).
  cbv beta iota.
  rewrite (bind_value _ _ _ _ _ (Fprintln_spec _ _)).
  match goal with |- bind (writeConfig ?n ?c) _ ?s = _ =>
    rewrite (bind_value _ _ _ _ _ (writeConfig_no_user s n c e He)) end.
  reflexivity.
Qed.

Lemma create_without_user_witness :
  main ["qmgr"; "create"; "vm7"] (start noUserWorld) =
  (Exit 1,
   mkState noUserWorld
     [Stderr "getting current user: user: unknown userid 1000";
      Stderr "getting current user: user: unknown userid 1000"]).
Proof.
  apply (create_without_user ["qmgr"; "create"; "vm7"] noUserWorld
           (ErrOther "user: unknown userid 1000"));
    [simpl; lia|reflexivity|reflexivity].
Defined.

(** ** The list command, and what is written *)

Section ListFacts.

Lemma TrimSuffix_suffix (s suffix : string) :
  strings.TrimSuffix (s +:+ suffix) suffix = s.
Proof.
  unfold strings.TrimSuffix, strings.HasSuffix.
  rewrite length_app_str.
  replace (String.length s + String.length suffix - String.length suffix)%nat
    with (String.length s) by lia.
  rewrite drop_bytes_app, take_bytes_app, String.eqb_refl.
  destruct (Nat.leb_spec (String.length suffix)
              (String.length s + String.length suffix)); [reflexivity|lia].
Qed.

Lemma TrimSuffix_other (s suffix : string) :
  strings.HasSuffix s suffix = false -> strings.TrimSuffix s suffix = s.
Proof. intros H. unfold strings.TrimSuffix. now rewrite H. Qed.

Lemma printAll (configs : list string) (done : Prog unit) (st st1 : State) :
  done st = (Value tt, st1) ->
  fold_left (fun done config => let* _ := done in Println config) configs done st
  = (Value tt, mkState (world st1) (trace st1 ++ map Stdout configs)).
Proof.
  revert done st1. induction configs as [|c cs IH]; intros done st1 H; simpl.
  - rewrite app_nil_r, state_eta. exact H.
  - rewrite (IH _ (mkState (world st1) (trace st1 ++ [Stdout c]))).
    + cbn [world trace]. rewrite <- app_assoc. reflexivity.
    + rewrite (bind_value _ _ _ _ _ H). reflexivity.
Qed.

Lemma main_list (Args : list string) :
  (2 <= length Args)%nat -> arg Args 1 = "list" -> main Args = mainList.
Proof.
  intros H Hc. rewrite main_dispatch by lia. cbv zeta. rewrite Hc. reflexivity.
Qed.

Lemma listConfigs_no_user (st : State) (e : error) :
  currentUser (world st) = inl e ->
  listConfigs st = (Value ([], Some (Errorf "getting current user: " e)), st).
Proof.
  intros H. unfold listConfigs.
  rewrite (bind_value _ _ _ _ _ (Current_fails st e H)). reflexivity.
Qed.

End ListFacts.

(** X9: [list] prints one line for each entry of the configuration
    directory, in the order of the directory, and returns: the entry without
    its suffix when it ends in ".json", so that the files of the names are
    listed as the names, and any other entry unchanged, since [TrimSuffix]
    leaves it as it is and no entry is filtered out.  A missing directory
    prints nothing. *)
Theorem list_prints_entries (Args : list string) (st : State) (home : string) :
  (2 <= length Args)%nat -> arg Args 1 = "list" ->
  currentUser (world st) = inr home ->
  let dir := filepath.Join [home; ConfigDir] in
  (forall names, directories (world st) dir = Entries names ->
     main Args st =
     (Value tt,
      mkState (world st)
        (trace st
           ++ map (fun file => Stdout (strings.TrimSuffix file ".json")) names)))
  /\ (forall stems,
        directories (world st) dir
          = Entries (map (fun stem => stem +:+ ".json") stems) ->
        main Args st =
        (Value tt, mkState (world st) (trace st ++ map Stdout stems)))
  /\ (forall file, strings.HasSuffix file ".json" = false ->
        strings.TrimSuffix file ".json" = file)
  /\ (directories (world st) dir = Missing -> main Args st = (Value tt, st)).
Proof.
  intros H Hc Hh. cbv zeta. rewrite (main_list Args H Hc).
  pose proof (listConfigs_spec st home Hh) as L.
  assert (forall names,
    directories (world st) (filepath.Join [home; ConfigDir]) = Entries names ->
    mainList st =
    (Value tt,
     mkState (world st)
       (trace st
          ++ map (fun file => Stdout (strings.TrimSuffix file ".json"))
               names))) as General.
  { intros names Hd. rewrite Hd in L. unfold mainList.
    rewrite (bind_value _ _ _ _ _ L). cbv beta iota.
    rewrite (printAll _ (ret tt) st st eq_refl), map_map. reflexivity. }
  split; [exact General|split; [|split]].
  - intros stems Hd. rewrite (General _ Hd), map_map.
    do 3 f_equal. apply map_ext. intros stem.
    now rewrite TrimSuffix_suffix.
  - intros file. apply TrimSuffix_other.
  - intros Hd. rewrite Hd in L. unfold mainList.
    rewrite (bind_value _ _ _ _ _ L). reflexivity.
Qed.

Lemma list_prints_entries_witness :
  main ["qmgr"; "list"] (start (listedWorld ["vm1.json"; "notes.txt"; ".json"]))
  = (Value tt,
     mkState (listedWorld ["vm1.json"; "notes.txt"; ".json"])
       [Stdout "vm1"; Stdout "notes.txt"; Stdout ""]).
Proof.
  destruct (list_prints_entries ["qmgr"; "list"]
              (start (listedWorld ["vm1.json"; "notes.txt"; ".json"]))
              "/home/u" ltac:(simpl; lia) eq_refl eq_refl) as [P _].
  apply (P ["vm1.json"; "notes.txt"; ".json"]). reflexivity.
Defined.

(** X10: [list] panics, with exit status 2 and without printing a name,
    when the current user is not known and when the directory cannot be
    read, also when some entries were read before the failure. *)
Theorem list_failure_panics (Args : list string) (st : State) :
  (2 <= length Args)%nat -> arg Args 1 = "list" ->
  (forall e, currentUser (world st) = inl e ->
     main Args st = (Panic (Errorf "getting current user: " e), st))
  /\ (forall home names msg,
        currentUser (world st) = inr home ->
        directories (world st) (filepath.Join [home; ConfigDir])
          = Unreadable names msg ->
        main Args st =
        (Panic (Errorf "reading config file directory: " (ErrOther msg)), st)
        /\ exitStatus (fst (main Args st)) = 2%Z).
Proof.
  intros H Hc. rewrite (main_list Args H Hc). unfold mainList. split.
  - intros e He.
    rewrite (bind_value _ _ _ _ _ (listConfigs_no_user st e He)). reflexivity.
  - intros home names msg Hh Hd.
    pose proof (listConfigs_spec st home Hh) as L. rewrite Hd in L.
    rewrite (bind_value _ _ _ _ _ L). split; reflexivity.
Qed.

Lemma list_failure_panics_witness :
  main ["qmgr"; "list"] (start unreadableWorld)
  = (Panic (Errorf "reading config file directory: "
                   (ErrOther "permission denied")),
     start unreadableWorld).
Proof.
  destruct (list_failure_panics ["qmgr"; "list"] (start unreadableWorld)
              ltac:(simpl; lia) eq_refl) as [_ P].
  apply (P "/home/u" ["vm1.json"] "permission denied"); reflexivity.
Defined.

Section StoreFacts.

Lemma keeps_ret {A} (a : A) : keepsWorld (ret a).
Proof. intros st. reflexivity. Qed.

Lemma keeps_ask {A} (f : World -> A) : keepsWorld (ask f).
Proof. intros st. reflexivity. Qed.

Lemma keeps_emit (e : event) : keepsWorld (emit e).
Proof. intros st. reflexivity. Qed.

Lemma keeps_Exit {A} (n : Z) : keepsWorld (@os.Exit A n).
Proof. intros st. reflexivity. Qed.

Lemma keeps_panic {A} (e : error) : keepsWorld (@runtime.panic A e).
Proof. intros st. reflexivity. Qed.

Lemma keeps_bind {A B} (m : Prog A) (k : A -> Prog B) :
  keepsWorld m -> (forall a, keepsWorld (k a)) -> keepsWorld (bind m k).
Proof.
  intros Hm Hk st. unfold bind. specialize (Hm st).
  destruct (m st) as [[a|n|e] st']; cbn [snd] in *; try exact Hm.
  rewrite (Hk a st'). exact Hm.
Qed.

Lemma keeps_Run (name : string) (args : list string) :
  keepsWorld (exec.Run name args).
Proof.
  unfold exec.Run. destruct (String.eqb name "");
    [apply keeps_ret
    |apply keeps_bind; [apply keeps_emit|intros; apply keeps_ask]].
Qed.

Lemma keeps_listConfigs : keepsWorld listConfigs.
Proof.
  unfold listConfigs, user.Current, os.ReadDir.
  apply keeps_bind; [apply keeps_ask|]. intros [home [e|]]; [apply keeps_ret|].
  apply keeps_bind; [apply keeps_ask|]. intros [names err].
  destruct (_ && _); apply keeps_ret.
Qed.

Lemma keeps_readConfig (name : string) : keepsWorld (readConfig name).
Proof.
  unfold readConfig, user.Current, os.Open.
  apply keeps_bind; [apply keeps_ask|]. intros [home [e|]]; [apply keeps_ret|].
  apply keeps_bind; [apply keeps_ask|]. intros [file [e|]]; [apply keeps_ret|].
  destruct (json.Decode _ _); apply keeps_ret.
Qed.

Lemma keeps_launchVM (config : option VMConfig) : keepsWorld (launchVM config).
Proof.
  destruct config as [config|]; [|apply keeps_panic]. unfold launchVM.
  apply keeps_bind; [apply keeps_ask|]. intros cpus.
  destruct (Builder.buildArgs cpus config) as [config' args].
  apply keeps_bind; [apply keeps_emit|]. intros _.
  apply keeps_bind; [apply keeps_Run|]. intros [e|]; apply keeps_ret.
Qed.

Lemma keeps_editor (file : string) : keepsWorld (editor file).
Proof.
  unfold editor, os.Getenv.
  apply keeps_bind; [apply keeps_ask|]. intros ed.
  apply keeps_bind;
    [destruct (String.eqb ed ""); [apply keeps_ask|apply keeps_ret]|].
  intros ed'. apply keeps_bind; [apply keeps_Run|].
  intros [e|]; apply keeps_ret.
Qed.

Lemma keeps_printAll (configs : list string) (done : Prog unit) :
  keepsWorld done ->
  keepsWorld (fold_left (fun done config => let* _ := done in Println config)
                        configs done).
Proof.
  revert done. induction configs as [|c cs IH]; intros done H; simpl.
  - exact H.
  - apply IH. apply keeps_bind; [exact H|intros; apply keeps_emit].
Qed.

Lemma keeps_mainList : keepsWorld mainList.
Proof.
  unfold mainList. apply keeps_bind; [apply keeps_listConfigs|].
  intros [configs [e|]]; [apply keeps_panic|].
  apply keeps_printAll, keeps_ret.
Qed.

Lemma keeps_mainRun (Args : list string) : keepsWorld (mainRun Args).
Proof.
  unfold mainRun. destruct (length Args <? 3)%nat.
  - apply keeps_bind; [apply keeps_emit|intros; apply keeps_Exit].
  - apply keeps_bind; [apply keeps_readConfig|]. intros [config [e|]].
    + apply keeps_bind; [apply keeps_emit|intros; apply keeps_Exit].
    + apply keeps_bind; [apply keeps_launchVM|].
      intros [c [e|]]; [apply keeps_panic|apply keeps_ret].
Qed.

Lemma keeps_mainEdit (Args : list string) : keepsWorld (mainEdit Args).
Proof.
  unfold mainEdit. destruct (length Args <? 3)%nat.
  - apply keeps_bind; [apply keeps_emit|intros; apply keeps_Exit].
  - apply keeps_bind; [apply keeps_editor|].
    intros [e|]; [apply keeps_emit|apply keeps_ret].
Qed.

End StoreFacts.

(** X11: every command other than create, also a missing or an unknown
    one, leaves the world as it is: the program itself changes no file
    unless it is asked to create a record. *)
Theorem only_create_writes (Args : list string) (st : State) :
  arg Args 1 <> "create" ->
  world (snd (main Args st)) = world st
  /\ files (world (snd (main Args st))) = files (world st).
Proof.
  intros H.
  assert (world (snd (main Args st)) = world st) as W.
  { unfold main. destruct (length Args <? 2)%nat; [apply keeps_emit|].
    cbv zeta. apply String.eqb_neq in H. rewrite H.
    destruct (String.eqb _ "list"); [apply keeps_mainList|].
    destruct (String.eqb _ "run"); [apply keeps_mainRun|].
    destruct (String.eqb _ "edit"); [apply keeps_mainEdit|apply keeps_ret]. }
  split; [exact W|now rewrite W].
Qed.

Lemma only_create_writes_witness :
  let w := homeWorldWith "/home/u/.config/qmgr/configs/vm2.json"
             (json.Encode (Some vm2)) in
  files (world (snd (main ["qmgr"; "run"; "vm2"] (start w)))) = files w.
Proof.
  cbv zeta.
  apply (only_create_writes ["qmgr"; "run"; "vm2"]
           (start (homeWorldWith "/home/u/.config/qmgr/configs/vm2.json"
                     (json.Encode (Some vm2))))).
  discriminate.
Defined.

(** X12: [writeConfig] changes no file other than the file of the name:
    every other path holds afterwards what it held before, whether
    [writeConfig] succeeds or fails. *)
Theorem save_touches_one_file (st : State) (name : string)
  (config : option VMConfig) (path : string) :
  (forall home, currentUser (world st) = inr home ->
     path <> filepath.Join [home; ConfigDir; name +:+ ".json"]) ->
  files (world (snd (writeConfig name config st))) !! path
  = files (world st) !! path.
Proof.
  intros H. destruct (currentUser (world st)) as [e|home] eqn:Hu.
  - now rewrite (writeConfig_no_user st name config e Hu).
  - specialize (H home eq_refl).
    destruct (mkdirFails (world st) (filepath.Join [home; ConfigDir]))
      as [e|] eqn:Hm.
    { now rewrite (writeConfig_mkdir_fails st home name config e Hu Hm). }
    destruct (createFails (world st)
                (filepath.Join [home; ConfigDir; name +:+ ".json"]))
      as [e|] eqn:Hc.
    { now rewrite (writeConfig_create_fails st home name config e Hu Hm Hc). }
    destruct (writeFails (world st)
                (filepath.Join [home; ConfigDir; name +:+ ".json"]))
      as [[n e]|] eqn:Hf.
    { rewrite (writeConfig_write_fails st home name config n e Hu Hm Hc Hf).
      cbn [snd world files withFiles]. apply lookup_insert_ne. congruence. }
    pose proof (writeConfig_spec st home name config Hu) as Hw.
    cbv zeta in Hw. rewrite Join_Join in Hw by discriminate.
    rewrite (Hw Hm Hc Hf). cbn [snd world files withFiles].
    apply lookup_insert_ne. congruence.
Qed.

Lemma save_touches_one_file_witness :
  let w := homeWorldWith "/home/u/.config/qmgr/configs/vm2.json"
             (json.Encode (Some vm2)) in
  files (world (snd (writeConfig "vm1" (Some vm1) (start w))))
    !! "/home/u/.config/qmgr/configs/vm2.json"
  = Some (json.Encode (Some vm2)).
Proof.
  cbv zeta.
  rewrite (save_touches_one_file
             (start (homeWorldWith "/home/u/.config/qmgr/configs/vm2.json"
                       (json.Encode (Some vm2))))
             "vm1" (Some vm1) "/home/u/.config/qmgr/configs/vm2.json").
  - reflexivity.
  - intros home [= <-]. discriminate.
Defined.

(** X13: a record saved under a name replaces what was saved under that
    name before: when the directory and the file are created and the writes
    do not fail, after two calls of [writeConfig] the file holds the text of
    the second record alone, and [readConfig] returns the second record. *)
Theorem save_overwrites (w : World) (home name : string)
  (first : option VMConfig) (second : VMConfig) :
  validConfig second ->
  currentUser w = inr home ->
  let path := filepath.Join [home; ConfigDir; name +:+ ".json"] in
  mkdirFails w (filepath.Join [home; ConfigDir]) = None ->
  createFails w path = None ->
  writeFails w path = None ->
  exists s1 s2 : State,
    writeConfig name first (start w) = (Value (path, None), s1)
    /\ writeConfig name (Some second) s1 = (Value (path, None), s2)
    /\ readConfig name s2 = (Value (Some second, None), s2)
    /\ files (world s2) = <[path := json.Encode (Some second)]> (files w).
Proof.
  intros Hv Hu. cbv zeta. intros Hm Hc Hf.
  pose proof (writeConfig_spec (start w) home name first Hu) as H1.
  cbv zeta in H1. rewrite Join_Join in H1 by discriminate.
  specialize (H1 Hm Hc Hf).
  eexists. eexists. split; [exact H1|].
  match goal with |- writeConfig _ _ ?s = _ /\ _ =>
    pose proof (writeConfig_spec s home name (Some second) Hu) as H2 end.
  cbv zeta in H2. rewrite Join_Join in H2 by discriminate.
  specialize (H2 Hm Hc Hf). cbn [world trace files withFiles start] in H2.
  rewrite insert_insert_eq in H2.
  split; [exact H2|]. split; [|reflexivity].
  erewrite readConfig_spec;
    [|exact Hu|cbn [world files withFiles]; apply lookup_insert_eq].
  fold zeroConfig. rewrite (Decode_Encode second Hv). reflexivity.
Qed.

Lemma save_overwrites_witness :
  exists s1 s2 : State,
    writeConfig "vm" (Some vm2) (start homeWorld)
    = (Value ("/home/u/.config/qmgr/configs/vm.json", None), s1)
    /\ writeConfig "vm" (Some vm1) s1
       = (Value ("/home/u/.config/qmgr/configs/vm.json", None), s2)
    /\ readConfig "vm" s2 = (Value (Some vm1, None), s2).
Proof.
  assert (validConfig vm1) as Hv
    by (repeat split; try reflexivity; repeat constructor).
  destruct (save_overwrites homeWorld "/home/u" "vm" (Some vm2) vm1 Hv eq_refl
              eq_refl eq_refl eq_refl) as (s1 & s2 & H1 & H2 & H3 & _).
  exists s1, s2. split; [exact H1|]. split; [exact H2|exact H3].
Defined.

(** ** The builder: drive identifiers, and a second build *)

Section DriveFacts.

Lemma contributions_app (l1 l2 : list Drive) (idx : nat) :
  contributions idx (l1 ++ l2)
  = contributions idx l1 ++ contributions (idx + length l1) l2.
Proof.
  revert idx. induction l1 as [|d l1 IH]; intros idx; simpl.
  - now rewrite Nat.add_0_r.
  - rewrite IH, <- app_assoc. do 3 f_equal. lia.
Qed.

Lemma contribution_img (idx : nat) (d : Drive) :
  Type_ d = "img" -> Path d <> "" -> contribution idx d = imgArgs idx (Path d).
Proof.
  intros Ht Hp. unfold contribution, Builder.driveStep.
  apply String.eqb_neq in Hp. rewrite Hp, Ht. reflexivity.
Qed.

Lemma FormatUint_inj (m n : N) :
  is_uint m -> is_uint n -> strconv.FormatUint m = strconv.FormatUint n -> m = n.
Proof.
  intros Hm Hn E. apply ParseUint_FormatUint in Hm, Hn.
  rewrite E in Hm. congruence.
Qed.

Lemma append_inv_head (p s t : string) : p +:+ s = p +:+ t -> s = t.
Proof.
  induction p as [|c p IH]; intros H; [exact H|].
  rewrite !app_cons in H. injection H as H. auto.
Qed.

End DriveFacts.

(** X14: an "img" drive with a path gets the identifier "usb" followed by
    its position in the list of drives, where the drives that add nothing
    are counted too; the device arguments of two different positions are
    never the same. *)
Theorem img_drive_ids (pre post : list Drive) (d : Drive) :
  Type_ d = "img" -> Path d <> "" ->
  contributions 0 (pre ++ d :: post)
  = contributions 0 pre
      ++ ["-drive";
          "if=none,id=usb" +:+ fmt.d (N.of_nat (length pre))
            +:+ ",format=raw,file=" +:+ Path d;
          "-device";
          "usb-storage,bus=xhci.0,drive=usb" +:+ fmt.d (N.of_nat (length pre))]
      ++ contributions (S (length pre)) post
  /\ forall i j : nat,
       is_uint (N.of_nat i) -> is_uint (N.of_nat j) -> i <> j ->
       "usb-storage,bus=xhci.0,drive=usb" +:+ fmt.d (N.of_nat i)
       <> "usb-storage,bus=xhci.0,drive=usb" +:+ fmt.d (N.of_nat j).
Proof.
  intros Ht Hp. split.
  - rewrite contributions_app. cbn [contributions Nat.add].
    rewrite (contribution_img _ d Ht Hp). reflexivity.
  - intros i j Hi Hj Hij E.
    apply append_inv_head in E. apply FormatUint_inj in E; [|exact Hi|exact Hj].
    apply Nat2N.inj in E. contradiction.
Qed.

Lemma img_drive_ids_witness :
  contributions 0 [ {| Path := ""; Type_ := "img" |};
                    {| Path := "/a.img"; Type_ := "img" |};
                    {| Path := "/b.img"; Type_ := "img" |} ]
  = ["-drive"; "if=none,id=usb1,format=raw,file=/a.img";
     "-device"; "usb-storage,bus=xhci.0,drive=usb1";
     "-drive"; "if=none,id=usb2,format=raw,file=/b.img";
     "-device"; "usb-storage,bus=xhci.0,drive=usb2"].
Proof.
  destruct (img_drive_ids [ {| Path := ""; Type_ := "img" |} ]
              [ {| Path := "/b.img"; Type_ := "img" |} ]
              {| Path := "/a.img"; Type_ := "img" |} eq_refl
              ltac:(discriminate)) as [P _].
  exact P.
Defined.

Section ResolveFacts.

Lemma resolveCores_again (first second : Z) (config : VMConfig) :
  uint_of_int first <> 0%N ->
  Builder.resolveCores second (Builder.resolveCores first config)
  = Builder.resolveCores first config.
Proof.
  intros Hn. unfold Builder.resolveCores.
  destruct (N.eqb_spec (Cores config) 0) as [E|E].
  - cbn [Cores]. apply N.eqb_neq in Hn. now rewrite Hn.
  - apply N.eqb_neq in E. now rewrite E.
Qed.

End ResolveFacts.

(** X15: on a host with at least one processor, building the arguments
    again from the record that a first build left behind gives that record
    and the same arguments, whatever processor count is reported then: the
    core count that was resolved first stays in the record. *)
Theorem builder_second_call (first second : Z) (config : VMConfig) :
  (1 <= first < 2 ^ 64)%Z ->
  Builder.buildArgs second (fst (Builder.buildArgs first config))
  = Builder.buildArgs first config.
Proof.
  intros H.
  assert (uint_of_int first <> 0%N) as Hn
    by (rewrite uint_of_int_small by lia; lia).
  apply injective_projections.
  - rewrite !buildArgs_config. apply resolveCores_again, Hn.
  - rewrite !buildArgs_sections, buildArgs_config.
    rewrite (resolveCores_again first second config Hn).
    destruct (resolveCores_frame first config) as (HN & HM & HD & HP & HF).
    cbv zeta in *.
    unfold Builder.preamble, displayArgs, forwardArgs, Builder.portsStep.
    rewrite HM, HD, HP, HF. reflexivity.
Qed.

Lemma builder_second_call_witness :
  Builder.buildArgs 2 (fst (Builder.buildArgs 8 vm1)) = Builder.buildArgs 8 vm1
  /\ Builder.buildArgs 2 vm1 <> Builder.buildArgs 8 vm1.
Proof.
  split; [apply (builder_second_call 8 2 vm1); lia|discriminate].
Defined.

(** ** From create to run *)

Section TemplateFacts.

Lemma template_args (cpus : Z) (name disk : string) :
  snd (Builder.buildArgs cpus (template name disk)) = templateArgs cpus disk.
Proof.
  rewrite buildArgs_sections. unfold templateArgs, template.
  cbn [Drives elems contributions Builder.preamble Memory app].
  unfold contribution, Builder.driveStep.
  cbn [Path Type_ String.eqb Ascii.eqb Bool.eqb app].
  rewrite app_nil_r.
  unfold cpuArgs, Builder.resolveCores, displayArgs. cbn [Cores N.eqb Fullscreen app].
  rewrite forwardArgs_ports by (cbn; discriminate).
  destruct (String.eqb disk ""); reflexivity.
Qed.

Lemma Join3_not_empty (home dir file : string) :
  dir <> "" -> filepath.Join [home; dir; file] <> "".
Proof.
  intros Hd. destruct (String.eqb_spec home "") as [->|Hh].
  - change (filepath.Join [""; dir; file]) with (filepath.Join [dir; file]).
    rewrite Join_cons by exact Hd.
    apply Clean_not_empty.
    destruct dir; [contradiction|]. discriminate.
  - rewrite Join_cons by exact Hh. apply Clean_not_empty.
    destruct home; [contradiction|]. discriminate.
Qed.

End TemplateFacts.

(** X16: [run] after [create], for a name and a disk path that are valid
    UTF-8.  When the directory and the file are created and the write does
    not fail, [create] leaves the text of the template record in the file of
    the name; and in every later state in which the file still holds that
    text, [run] reads the record back and runs the hypervisor with the fixed
    devices, 2G of memory, the disk as its only drive (the empty "img" and
    "iso" entries of the template add nothing; there is no drive at all when
    the disk-image tool had failed), all processors of the host, and the
    forward of port 2222 to port 22. *)
Theorem create_then_run (w : World) (prog home name size : string) :
  currentUser w = inr home ->
  editorProgram w <> "" ->
  let diskPath := filepath.Join [home; DiskDir; name +:+ ".qcow2"] in
  let configPath := filepath.Join [home; ConfigDir; name +:+ ".json"] in
  utf8.ValidString name = true ->
  utf8.ValidString diskPath = true ->
  mkdirFails w (filepath.Join [home; ConfigDir]) = None ->
  createFails w configPath = None ->
  writeFails w configPath = None ->
  let failure := runFails w QemuImg ["create"; "-f"; "qcow2"; diskPath; size] in
  let content :=
    json.Encode (Some (template name (if isNil failure then diskPath else ""))) in
  let created := snd (main [prog; "create"; name; size] (start w)) in
  files (world created) !! configPath = Some content
  /\ forall st : State,
       currentUser (world st) = inr home ->
       files (world st) !! configPath = Some content ->
       let args :=
         ["-m"; "2G"; "-machine"; "q35"; "-device"; "qemu-xhci,id=xhci";
          "-device"; "usb-kbd"; "-device"; "usb-tablet";
          "-device"; "virtio-net,netdev=net0"]
           ++ (if isNil failure
               then ["-drive"; "if=virtio,format=qcow2,file=" +:+ diskPath]
               else [])
           ++ ["-enable-kvm"; "-cpu"; "host"; "-smp";
               fmt.d (uint_of_int (numCPU (world st)));
               "-netdev"; "user,id=net0,hostfwd=tcp::2222-:22"] in
       main [prog; "run"; name] st =
       (match runFails (world st) QemuExec args with
        | Some e => Panic (Errorf "executing qemu: " e)
        | None => Value tt
        end,
        mkState (world st)
          (trace st
             ++ [Stdout ("cmd.Args: [" +:+ strings.Join (QemuExec :: args) " "
                         +:+ "]");
                 Exec QemuExec args])).
Proof.
  intros Hh He. cbv zeta. intros Hn Hd Hm Hc Hw. split.
  - pose proof (main_create_spec [prog; "create"; name; size] (start w) home
                  ltac:(simpl; lia) eq_refl Hh He Hm Hc Hw) as C.
    cbv zeta in C. cbn [arg nth world trace start app] in C.
    change (diskSize [prog; "create"; name; size]) with size in C.
    rewrite C. cbn [snd world files withFiles]. apply lookup_insert_eq.
  - intros st Hu Hf.
    set (failure := runFails w QemuImg _) in *.
    set (disk := if isNil failure then _ else "") in *.
    assert (validConfig (template name disk)) as Hv.
    { apply template_valid; [exact Hn|].
      subst disk. destruct (isNil failure); [exact Hd|reflexivity]. }
    pose proof (main_run [prog; "run"; name] ltac:(simpl; lia) eq_refl) as R.
    cbn [arg nth] in R. rewrite R.
    pose proof (readConfig_spec st home name _ Hu Hf) as L.
    fold zeroConfig in L. rewrite (Decode_Encode _ Hv) in L.
    rewrite (bind_value _ _ _ _ _ L). cbv beta iota.
    pose proof (launchVM_spec (template name disk) st) as V.
    cbv zeta in V. rewrite template_args in V.
    rewrite (bind_value _ _ _ _ _ V). cbv beta iota.
    assert (templateArgs (numCPU (world st)) disk =
            ["-m"; "2G"; "-machine"; "q35"; "-device"; "qemu-xhci,id=xhci";
             "-device"; "usb-kbd"; "-device"; "usb-tablet";
             "-device"; "virtio-net,netdev=net0"]
              ++ (if isNil failure
                  then ["-drive";
                        "if=virtio,format=qcow2,file="
                          +:+ filepath.Join [home; DiskDir; name +:+ ".qcow2"]]
                  else [])
              ++ ["-enable-kvm"; "-cpu"; "host"; "-smp";
                  fmt.d (uint_of_int (numCPU (world st)));
                  "-netdev"; "user,id=net0,hostfwd=tcp::2222-:22"]) as EA.
    { unfold templateArgs. subst disk. destruct (isNil failure); [|reflexivity].
      pose proof (Join3_not_empty home DiskDir (name +:+ ".qcow2")
                    ltac:(discriminate)) as NE.
      apply String.eqb_neq in NE. rewrite NE. reflexivity. }
    rewrite EA. unfold launched, commandLine.
    match goal with |- context [runFails (world st) QemuExec ?a] =>
      generalize (runFails (world st) QemuExec a) end.
    intros [e|]; reflexivity.
Qed.

Lemma create_then_run_witness :
  let created := snd (main ["qmgr"; "create"; "vm1"; "32G"] (start homeWorld)) in
  files (world created) !! "/home/u/.config/qmgr/configs/vm1.json"
  = Some (templateText "vm1" "/home/u/.config/qmgr/disks/vm1.qcow2")
  /\ main ["qmgr"; "run"; "vm1"] created =
     (Value tt,
      mkState (world created)
        (trace created
           ++ [Stdout ("cmd.Args: [qemu-system-x86_64 -m 2G -machine q35 "
                       +:+ "-device qemu-xhci,id=xhci -device usb-kbd "
                       +:+ "-device usb-tablet -device virtio-net,netdev=net0 "
                       +:+ "-drive if=virtio,format=qcow2,"
                       +:+ "file=/home/u/.config/qmgr/disks/vm1.qcow2 "
                       +:+ "-enable-kvm -cpu host -smp 8 "
                       +:+ "-netdev user,id=net0,hostfwd=tcp::2222-:22]");
               Exec "qemu-system-x86_64"
                 ["-m"; "2G"; "-machine"; "q35"; "-device"; "qemu-xhci,id=xhci";
                  "-device"; "usb-kbd"; "-device"; "usb-tablet";
                  "-device"; "virtio-net,netdev=net0";
                  "-drive";
                  "if=virtio,format=qcow2,file=/home/u/.config/qmgr/disks/vm1.qcow2";
                  "-enable-kvm"; "-cpu"; "host"; "-smp"; "8";
                  "-netdev"; "user,id=net0,hostfwd=tcp::2222-:22"]])).
Proof.
  cbv zeta.
  pose proof (create_then_run homeWorld "qmgr" "/home/u" "vm1" "32G" eq_refl
                ltac:(discriminate) eq_refl eq_refl eq_refl eq_refl eq_refl)
    as P.
  cbv zeta in P. destruct P as [P1 P2].
  split; [exact P1|].
  exact (P2 (snd (main ["qmgr"; "create"; "vm1"; "32G"] (start homeWorld)))
            eq_refl P1).
Defined.

(** ** The paths of the store *)

Section PathFacts.

Lemma noSlash_app (s t : string) :
  noSlash (s +:+ t) = noSlash s && noSlash t.
Proof.
  induction s as [|c s IH]; [reflexivity|].
  rewrite app_cons. simpl. rewrite IH. now rewrite andb_assoc.
Qed.

Lemma realElem_suffix (name suffix : string) :
  noSlash name = true -> noSlash suffix = true ->
  (3 <= String.length suffix)%nat -> realElem (name +:+ suffix).
Proof.
  intros Hn Hs Hl.
  assert (3 <= String.length (name +:+ suffix))%nat as L
    by (rewrite length_app_str; lia).
  repeat split.
  - intros E. rewrite E in L. simpl in L. lia.
  - intros E. rewrite E in L. simpl in L. lia.
  - intros E. rewrite E in L. simpl in L. lia.
  - rewrite noSlash_app, Hn, Hs. reflexivity.
Qed.

Lemma Join_snoc (l : list string) (x sep : string) :
  l <> [] -> strings.Join (l ++ [x]) sep = strings.Join l sep +:+ sep +:+ x.
Proof.
  induction l as [|e l IH]; [contradiction|]. intros _.
  destruct l as [|e' l]; [reflexivity|].
  change (strings.Join ((e :: e' :: l) ++ [x]) sep)
    with (e +:+ sep +:+ strings.Join ((e' :: l) ++ [x]) sep).
  rewrite IH by discriminate.
  change (strings.Join (e :: e' :: l) sep)
    with (e +:+ sep +:+ strings.Join (e' :: l) sep).
  now rewrite !app_assoc_str.
Qed.

Lemma realElem_noSlash (l : list string) :
  Forall realElem l -> Forall (fun e => noSlash e = true) l.
Proof. intros H. eapply Forall_impl; [exact H|]. intros e He. apply He. Qed.

(** Cleaning an absolute path: its elements are processed in their order. *)
Lemma Clean_absolute (comps : list string) :
  comps <> [] -> Forall (fun e => noSlash e = true) comps ->
  filepath.Clean (absolutePath comps)
  = "/" +:+ strings.Join
              (rev (fold_left (filepath.cleanStep true) comps [])) "/".
Proof.
  intros Hne Hns. unfold absolutePath.
  change ("/" +:+ strings.Join comps "/")
    with (String "/" (strings.Join comps "/")).
  unfold filepath.Clean. cbn [Ascii.eqb Bool.eqb andb filepath.split].
  rewrite (split_Join comps Hne Hns). reflexivity.
Qed.

End PathFacts.

Section StorePathFacts.

Lemma Join_app (l1 l2 : list string) (sep : string) :
  l1 <> [] -> l2 <> [] ->
  strings.Join (l1 ++ l2) sep
  = strings.Join l1 sep +:+ sep +:+ strings.Join l2 sep.
Proof.
  intros H1 H2. induction l1 as [|e l1 IH]; [contradiction|].
  destruct l1 as [|e' l1].
  - destruct l2; [contradiction|reflexivity].
  - change (strings.Join ((e :: e' :: l1) ++ l2) sep)
      with (e +:+ sep +:+ strings.Join ((e' :: l1) ++ l2) sep).
    rewrite IH by discriminate.
    change (strings.Join (e :: e' :: l1) sep)
      with (e +:+ sep +:+ strings.Join (e' :: l1) sep).
    now rewrite !app_assoc_str.
Qed.

Lemma absolutePath_app (elements more : list string) :
  elements <> [] -> more <> [] ->
  absolutePath (elements ++ more)
  = absolutePath elements +:+ "/" +:+ strings.Join more "/".
Proof.
  intros H1 H2. unfold absolutePath. rewrite Join_app by assumption.
  now rewrite !app_assoc_str.
Qed.

Lemma absolutePath_not_empty (elements : list string) :
  absolutePath elements <> "".
Proof. discriminate. Qed.

Lemma Clean_reals (elements : list string) :
  elements <> [] -> Forall realElem elements ->
  filepath.Clean (absolutePath elements) = absolutePath elements.
Proof.
  intros Hne Hr.
  rewrite Clean_absolute by (try exact Hne; apply realElem_noSlash, Hr).
  rewrite fold_cleanStep_reals by exact Hr.
  now rewrite app_nil_r, rev_involutive.
Qed.

(** A file of a directory below an absolute home directory. *)
Lemma Join_below_home (elements : list string) (a b c file : string) :
  elements <> [] -> Forall realElem elements ->
  realElem a -> realElem b -> realElem c -> realElem file ->
  filepath.Join [absolutePath elements;
                 a +:+ "/" +:+ b +:+ "/" +:+ c; file]
  = absolutePath elements +:+ "/" +:+ a +:+ "/" +:+ b +:+ "/" +:+ c
      +:+ "/" +:+ file.
Proof.
  intros Hne Hr Ha Hb Hc Hf.
  rewrite Join_cons by apply absolutePath_not_empty.
  change (strings.Join [absolutePath elements; a +:+ "/" +:+ b +:+ "/" +:+ c;
                        file] "/")
    with (absolutePath elements +:+ "/"
            +:+ (a +:+ "/" +:+ b +:+ "/" +:+ c) +:+ "/" +:+ file).
  assert (absolutePath elements +:+ "/"
            +:+ (a +:+ "/" +:+ b +:+ "/" +:+ c) +:+ "/" +:+ file
          = absolutePath (elements ++ [a; b; c; file])) as E.
  { rewrite absolutePath_app by (try exact Hne; discriminate).
    cbn [strings.Join]. now rewrite !app_assoc_str. }
  rewrite E, Clean_reals.
  - rewrite absolutePath_app by (try exact Hne; discriminate).
    cbn [strings.Join]. reflexivity.
  - destruct elements; [contradiction|discriminate].
  - apply Forall_app. split; [exact Hr|].
    repeat (constructor; [assumption|]). constructor.
Qed.

Lemma realElem_literal (e : string) :
  (String.eqb e "" || String.eqb e "." || String.eqb e ".."
   || negb (noSlash e)) = false -> realElem e.
Proof.
  intros H. repeat (apply orb_false_iff in H as [H ?]).
  repeat split; try (apply String.eqb_neq; assumption).
  now apply negb_false_iff.
Qed.

End StorePathFacts.

(** X17: for a home directory that is an absolute path of plain elements
    and a name without a separator, the record is stored in the file
    ".config/qmgr/configs/<name>.json" below the home directory, and its disk
    in ".config/qmgr/disks/<name>.qcow2". *)
Theorem store_paths (elements : list string) (name : string) :
  elements <> [] -> Forall realElem elements -> noSlash name = true ->
  let home := absolutePath elements in
  filepath.Join [home; ConfigDir; name +:+ ".json"]
  = home +:+ "/.config/qmgr/configs/" +:+ name +:+ ".json"
  /\ filepath.Join [home; DiskDir; name +:+ ".qcow2"]
     = home +:+ "/.config/qmgr/disks/" +:+ name +:+ ".qcow2".
Proof.
  intros Hne Hr Hn. cbv zeta. split.
  - change ConfigDir with (".config" +:+ "/" +:+ "qmgr" +:+ "/" +:+ "configs").
    rewrite Join_below_home;
      try assumption; try (apply realElem_literal; reflexivity).
    + reflexivity.
    + apply realElem_suffix; [exact Hn|reflexivity|simpl; lia].
  - change DiskDir with (".config" +:+ "/" +:+ "qmgr" +:+ "/" +:+ "disks").
    rewrite Join_below_home;
      try assumption; try (apply realElem_literal; reflexivity).
    + reflexivity.
    + apply realElem_suffix; [exact Hn|reflexivity|simpl; lia].
Qed.

Lemma store_paths_witness :
  filepath.Join ["/home/u"; ConfigDir; "vm1" +:+ ".json"]
  = "/home/u/.config/qmgr/configs/vm1.json"
  /\ filepath.Join ["/home/u"; DiskDir; "vm1" +:+ ".qcow2"]
     = "/home/u/.config/qmgr/disks/vm1.qcow2".
Proof.
  assert (Forall realElem ["home"; "u"]) as Hr
    by (repeat (constructor; [apply realElem_literal; reflexivity|]);
        constructor).
  pose proof (store_paths ["home"; "u"] "vm1" ltac:(discriminate) Hr eq_refl)
    as P.
  exact P.
Defined.

Section EditPathFacts.

Lemma Clean_relative_reals (l : list string) :
  l <> [] -> Forall realElem l -> isRooted (strings.Join l "/") = false ->
  filepath.Clean (strings.Join l "/") = strings.Join l "/".
Proof.
  intros Hne Hr Hrel.
  assert (strings.Join l "/" <> "") as Hp.
  { destruct l as [|e l]; [contradiction|].
    destruct (Join_head e l) as [t ->].
    apply Forall_inv in Hr. destruct Hr as [He _].
    destruct e; [contradiction|discriminate]. }
  rewrite Clean_unfold by exact Hp. rewrite Hrel.
  rewrite split_Join by (try exact Hne; apply realElem_noSlash, Hr).
  rewrite fold_cleanStep_reals by exact Hr. rewrite app_nil_r.
  unfold renderPath. rewrite rev_involutive.
  destruct (rev l) eqn:E; [|reflexivity].
  apply (f_equal (@rev string)) in E. rewrite rev_involutive in E.
  contradiction.
Qed.

Lemma edit_path (name : string) :
  noSlash name = true ->
  filepath.Join ["~"; ConfigDir; name +:+ ".json"]
  = "~/.config/qmgr/configs/" +:+ name +:+ ".json".
Proof.
  intros Hn. rewrite Join_cons by discriminate.
  change (strings.Join ["~"; ConfigDir; name +:+ ".json"] "/")
    with (strings.Join ["~"; ".config"; "qmgr"; "configs"; name +:+ ".json"]
                       "/").
  rewrite Clean_relative_reals; [reflexivity|discriminate| |reflexivity].
  repeat (constructor; [apply realElem_literal; reflexivity|]).
  constructor; [|constructor].
  apply realElem_suffix; [exact Hn|reflexivity|simpl; lia].
Qed.

End EditPathFacts.

(** X18: for every name without a separator, [edit] runs the editor on
    "~/.config/qmgr/configs/<name>.json", a path relative to the working
    directory whose first element is a tilde; for a home directory that is
    an absolute path of plain elements this is never the path under which
    the record is stored. *)
Theorem edit_path_for_every_name (Args : list string) (st : State)
  (elements : list string) :
  (3 <= length Args)%nat -> arg Args 1 = "edit" ->
  noSlash (arg Args 2) = true ->
  editorProgram (world st) <> "" ->
  elements <> [] -> Forall realElem elements ->
  let edited := "~/.config/qmgr/configs/" +:+ arg Args 2 +:+ ".json" in
  let stored :=
    filepath.Join [absolutePath elements; ConfigDir; arg Args 2 +:+ ".json"] in
  trace (snd (main Args st))
  = trace st ++ [Exec (editorProgram (world st)) [edited]]
      ++ reported "editing config: opening editor: "
           (runFails (world st) (editorProgram (world st)) [edited])
  /\ stored = absolutePath elements +:+ "/.config/qmgr/configs/"
                +:+ arg Args 2 +:+ ".json"
  /\ edited <> stored.
Proof.
  intros H Hc Hn He Hne Hr. cbv zeta. split; [|split].
  - rewrite (main_edit Args H Hc). cbv zeta. rewrite (edit_path _ Hn).
    rewrite (bind_value _ _ _ _ _ (editor_spec st _ He)).
    destruct (runFails _ _ _) as [e|]; unfold reported.
    + unfold Fprintln_Stderr, emit. cbn [snd world trace Error].
      rewrite <- app_assoc. reflexivity.
    + unfold ret. cbn [snd trace]. reflexivity.
  - change ConfigDir with (".config" +:+ "/" +:+ "qmgr" +:+ "/" +:+ "configs").
    rewrite Join_below_home;
      try assumption; try (apply realElem_literal; reflexivity).
    + reflexivity.
    + apply realElem_suffix; [exact Hn|reflexivity|simpl; lia].
  - change ConfigDir with (".config" +:+ "/" +:+ "qmgr" +:+ "/" +:+ "configs").
    rewrite Join_below_home;
      try assumption; try (apply realElem_literal; reflexivity).
    + discriminate.
    + apply realElem_suffix; [exact Hn|reflexivity|simpl; lia].
Qed.

Lemma edit_path_for_every_name_witness :
  trace (snd (main ["qmgr"; "edit"; "vm9"] (start homeWorld)))
  = [Exec "vi" ["~/.config/qmgr/configs/vm9.json"]]
  /\ "~/.config/qmgr/configs/vm9.json" <> "/home/u/.config/qmgr/configs/vm9.json".
Proof.
  assert (Forall realElem ["home"; "u"]) as Hr
    by (repeat (constructor; [apply realElem_literal; reflexivity|]);
        constructor).
  pose proof (edit_path_for_every_name ["qmgr"; "edit"; "vm9"]
                (start homeWorld) ["home"; "u"] ltac:(simpl; lia) eq_refl
                eq_refl ltac:(discriminate) ltac:(discriminate) Hr) as P.
  cbv zeta in P. destruct P as (P1 & P2 & P3).
  split; [exact P1|]. intros E. apply P3. rewrite P2. exact E.
Defined.

Section EscapeFacts.

Lemma parent_path (elements : list string) (a b c file : string) :
  elements <> [] -> Forall realElem elements ->
  realElem a -> realElem b -> realElem c -> realElem file ->
  filepath.Join [absolutePath elements; a +:+ "/" +:+ b +:+ "/" +:+ c;
                 "../" +:+ file]
  = absolutePath elements +:+ "/" +:+ a +:+ "/" +:+ b +:+ "/" +:+ file.
Proof.
  intros Hne Hr Ha Hb Hc Hf.
  rewrite Join_cons by apply absolutePath_not_empty.
  change (strings.Join [absolutePath elements; a +:+ "/" +:+ b +:+ "/" +:+ c;
                        "../" +:+ file] "/")
    with (absolutePath elements +:+ "/"
            +:+ (a +:+ "/" +:+ b +:+ "/" +:+ c) +:+ "/" +:+ "../" +:+ file).
  assert (absolutePath elements +:+ "/"
            +:+ (a +:+ "/" +:+ b +:+ "/" +:+ c) +:+ "/" +:+ "../" +:+ file
          = absolutePath ((elements ++ [a; b; c]) ++ [".."; file])) as E.
  { rewrite absolutePath_app;
      [|destruct elements; [contradiction|discriminate]|discriminate].
    rewrite absolutePath_app by (try exact Hne; discriminate).
    cbn [strings.Join]. now rewrite !app_assoc_str. }
  rewrite E, Clean_absolute.
  - rewrite fold_left_app,
      (fold_cleanStep_reals true (elements ++ [a; b; c]) []).
    + rewrite app_nil_r, rev_app_distr. cbn [rev app fold_left].
      assert (filepath.cleanStep true (c :: b :: a :: rev elements) ".."
              = b :: a :: rev elements) as Up.
      { unfold filepath.cleanStep. cbn [String.eqb Ascii.eqb Bool.eqb tail].
        destruct Hc as (_ & _ & Hc & _). apply String.eqb_neq in Hc.
        rewrite Hc. reflexivity. }
      rewrite Up, (cleanStep_real true _ file Hf).
      cbn [rev]. rewrite rev_involutive, <- !app_assoc. cbn [app].
      change ("/" +:+ strings.Join (elements ++ [a; b; file]) "/")
        with (absolutePath (elements ++ [a; b; file])).
      rewrite absolutePath_app by (try exact Hne; discriminate).
      reflexivity.
    + apply Forall_app. split; [exact Hr|].
      repeat (constructor; [assumption|]). constructor.
  - destruct elements; [contradiction|discriminate].
  - apply Forall_app. split.
    + apply Forall_app. split; [apply realElem_noSlash, Hr|].
      repeat (constructor; [match goal with H : realElem ?e |- noSlash ?e = _ =>
                              apply H end|]). constructor.
    + constructor; [reflexivity|]. constructor; [apply Hf|constructor].
Qed.

End EscapeFacts.

(** X19: the name is not confined to the configuration directory: under
    the name "../<n>" the record is written to "<n>.json" in the parent of
    the configuration directory, when the directory and that file are
    created and the write does not fail. *)
Theorem name_escapes_config_dir (w : World) (elements : list string)
  (n : string) (config : option VMConfig) :
  elements <> [] -> Forall realElem elements -> noSlash n = true ->
  let home := absolutePath elements in
  let path := home +:+ "/.config/qmgr/" +:+ n +:+ ".json" in
  currentUser w = inr home ->
  mkdirFails w (filepath.Join [home; ConfigDir]) = None ->
  createFails w path = None ->
  writeFails w path = None ->
  fst (writeConfig ("../" +:+ n) config (start w)) = Value (path, None)
  /\ files (world (snd (writeConfig ("../" +:+ n) config (start w)))) !! path
     = Some (json.Encode config).
Proof.
  intros Hne Hr Hn. cbv zeta. intros Hu Hm Hc Hf.
  assert (filepath.Join [absolutePath elements; ConfigDir;
                         ("../" +:+ n) +:+ ".json"]
          = absolutePath elements +:+ "/.config/qmgr/" +:+ n +:+ ".json") as E.
  { change ConfigDir with (".config" +:+ "/" +:+ "qmgr" +:+ "/" +:+ "configs").
    change (("../" +:+ n) +:+ ".json") with ("../" +:+ (n +:+ ".json")).
    rewrite parent_path;
      try assumption; try (apply realElem_literal; reflexivity).
    - reflexivity.
    - apply realElem_suffix; [exact Hn|reflexivity|simpl; lia]. }
  pose proof (writeConfig_spec (start w) (absolutePath elements) ("../" +:+ n)
                config Hu) as Hw.
  cbv zeta in Hw. rewrite Join_Join in Hw by discriminate.
  rewrite E in Hw. specialize (Hw Hm Hc Hf). rewrite Hw.
  split; [reflexivity|]. cbn [snd world files withFiles].
  apply lookup_insert_eq.
Qed.

Lemma name_escapes_config_dir_witness :
  fst (writeConfig "../vm1" (Some vm1) (start homeWorld))
  = Value ("/home/u/.config/qmgr/vm1.json", None).
Proof.
  assert (Forall realElem ["home"; "u"]) as Hr
    by (repeat (constructor; [apply realElem_literal; reflexivity|]);
        constructor).
  pose proof (name_escapes_config_dir homeWorld ["home"; "u"] "vm1" (Some vm1)
                ltac:(discriminate) Hr eq_refl eq_refl eq_refl eq_refl eq_refl)
    as P.
  cbv zeta in P. destruct P as [P _]. exact P.
Defined.

(** ** Text after the record *)

Section TrailingFacts.

Lemma parseValue_render_more (v : json.value) (rest : string) :
  wellFormed v ->
  json.parseValue (json.render 0 v +:+ String LF rest) = Some v.
Proof.
  intros Hwf. unfold json.parseValue.
  rewrite (scan_render v Hwf 0 (String LF rest) eq_refl).
  rewrite (parse_tokens v [] json.BeginValue _ (or_introl eq_refl)).
  reflexivity.
Qed.

Lemma Decode_Encode_more (c : VMConfig) (rest : string) :
  validConfig c ->
  json.Decode (json.Encode (Some c) +:+ rest) (Some zeroConfig) = Some (Some c).
Proof.
  intros H. unfold json.Decode, json.Encode.
  rewrite app_assoc_str, app_cons, app_empty_l.
  rewrite (parseValue_render_more _ rest (wellFormed_config c H)).
  change (json.encodeVMConfig c) with (json.JObject
    [("name", json.JString (Name c)); ("memory", json.JString (Memory c));
     ("drives", json.encodeSlice json.encodeDrive (Drives c));
     ("ports", json.encodeSlice json.encodePort (Ports c));
     ("cores", json.JNumber (strconv.FormatUint (Cores c)));
     ("fullscreen", json.JBool (Fullscreen c))]) at 1.
  cbv iota. fold (json.encodeVMConfig c).
  rewrite (decode_config c H). reflexivity.
Qed.

End TrailingFacts.

(** X20: [readConfig] decodes the first JSON value of the file only: a
    file that holds the text of a valid record followed by anything else,
    also by text that is no JSON, is loaded as that record, without an
    error. *)
Theorem load_ignores_trailing_text (st : State) (home name rest : string)
  (config : VMConfig) :
  validConfig config ->
  currentUser (world st) = inr home ->
  files (world st) !! filepath.Join [home; ConfigDir; name +:+ ".json"]
    = Some (json.Encode (Some config) +:+ rest) ->
  readConfig name st = (Value (Some config, None), st).
Proof.
  intros Hv Hu Hf. rewrite (readConfig_spec st home name _ Hu Hf).
  fold zeroConfig. rewrite (Decode_Encode_more config rest Hv). reflexivity.
Qed.

Lemma load_ignores_trailing_text_witness :
  let w := homeWorldWith "/home/u/.config/qmgr/configs/vm2.json"
             (json.Encode (Some vm2) +:+ "}} not JSON, "
                +:+ json.Encode (Some vm1)) in
  readConfig "vm2" (start w) = (Value (Some vm2, None), start w).
Proof.
  cbv zeta.
  assert (validConfig vm2) as Hv
    by (repeat split; try reflexivity; repeat constructor).
  apply (load_ignores_trailing_text _ "/home/u" "vm2"
           ("}} not JSON, " +:+ json.Encode (Some vm1)) vm2 Hv);
    reflexivity.
Defined.
